(** * The catalog attribute framework (descarteslabs/catalog/attributes.py)

    A shallow embedding of the attribute / descriptor layer: typed slots with
    serialize / deserialize rules, the mutability and readonly policy, the
    modification callbacks, the owner registries of MappingAttribute and
    ListAttribute values, and the lazily resolved CatalogObjectReference.

    Python objects live in a heap indexed by object identity; every operation
    is a state transformer that returns either a result or a raised exception
    together with the state reached at that point, so that what an operation
    leaves behind when it raises can be stated. *)

From Stdlib Require Import ZArith String Ascii List Bool Lia.
From stdpp Require Import base option list gmap strings.

Local Open Scope Z_scope.
Set Warnings "-register-all".

(** ** Exceptions and outcomes *)

Inductive exn :=
| AttributeValidationError   (* subclass of ValueError in the source *)
| AttributeError
| ValueError
| TypeError
| IndexError
| KeyError
| RecursionError
| CallbackError.             (* whatever an owner's [_set_modified] raises *)

Inductive outcome (A : Type) :=
| Ok (a : A)
| Raise (e : exn).
Arguments Ok {A} a.
Arguments Raise {A} e.

(** ** Values *)

(** [tzinfo] is the UTC offset in minutes of an aware datetime; [None] is a
    naive datetime.  [pytz.utc] is offset 0. *)
Record datetime := mkDatetime {
  year : Z; month : Z; day : Z;
  hour : Z; minute : Z; second : Z; microsecond : Z;
  tzinfo : option Z
}.

Definition utc : Z := 0.

Definition objid := positive.

Inductive value :=
| VNone
| VBool (b : bool)
| VInt (z : Z)
| VStr (s : string)
| VEnum (cls : string) (s : string)     (* member of a [str]-mixin Enum *)
| VDate (d : datetime)
| VList (l : list value)                (* a builtin list *)
| VDict (d : list (string * value))     (* a builtin dict, insertion ordered *)
| VObj (o : objid).                     (* reference to a heap object *)

(** ** ISO timestamps *)

Module Iso.

Definition is_digit (c : ascii) : bool :=
(48 <=? Z.of_nat (nat_of_ascii c)) && (Z.of_nat (nat_of_ascii c) <=? 57).

Definition digit_val (c : ascii) : Z := Z.of_nat (nat_of_ascii c) - 48.

Definition in_range (lo hi : Z) (c : ascii) : bool :=
is_digit c && (lo <=? digit_val c) && (digit_val c <=? hi).

Definition is_space (c : ascii) : bool := Z.of_nat (nat_of_ascii c) =? 32.

(** [int(s)] on a matched group: digits, with a leading blank allowed. *)
Definition int_of (cs : list ascii) : Z :=
fold_left (fun acc c => if is_digit c then 10 * acc + digit_val c else acc) cs 0.

(** The directives of [strptime] used by the two formats of the source. *)
Inductive fmt_item :=
| FLit (c : ascii)
| FYear | FMonth | FDay | FHour | FMinute | FSecond | FMicro.

Fixpoint compile_format (f : list ascii) : option (list fmt_item) :=
match f with
| [] => Some []
| "%"%char :: d :: rest =>
    match compile_format rest with
    | None => None
    | Some items =>
        if Ascii.eqb d "Y" then Some (FYear :: items)
        else if Ascii.eqb d "m" then Some (FMonth :: items)
        else if Ascii.eqb d "d" then Some (FDay :: items)
        else if Ascii.eqb d "H" then Some (FHour :: items)
        else if Ascii.eqb d "M" then Some (FMinute :: items)
        else if Ascii.eqb d "S" then Some (FSecond :: items)
        else if Ascii.eqb d "f" then Some (FMicro :: items)
        else None
    end
| c :: rest =>
    match compile_format rest with
    | None => None
    | Some items => Some (FLit c :: items)
    end
end.

(** One alternative of a directive's regular expression: one or two
  characters, each with its own class. *)
Definition alt1 (p : ascii -> bool) (s : list ascii)
: list (list ascii * list ascii) :=
match s with
| c :: r => if p c then [([c], r)] else []
| _ => []
end.

Definition alt2 (p1 p2 : ascii -> bool) (s : list ascii)
: list (list ascii * list ascii) :=
match s with
| c1 :: c2 :: r => if p1 c1 && p2 c2 then [([c1; c2], r)] else []
| _ => []
end.

(** [[0-9]{1,6}], greedy: the longest run first. *)
Fixpoint digit_run (n : nat) (s : list ascii) : list (list ascii * list ascii) :=
match n, s with
| S n', c :: r =>
    if is_digit c
    then map (fun '(m, r') => (c :: m, r')) (digit_run n' r) ++ [([c], r)]
    else []
| _, _ => []
end.

Definition lower (c : ascii) : ascii :=
let n := nat_of_ascii c in
if ((65 <=? n) && (n <=? 90))%nat then ascii_of_nat (n + 32) else c.

Record fields := mkFields {
fY : Z; fm : Z; fd : Z; fH : Z; fM : Z; fS : Z; ff : Z
}.

Definition fields0 : fields := mkFields 1900 1 1 0 0 0 0.

(** Candidates for one item, in the order the regular expression tries
  them (the regular expression is compiled with IGNORECASE). *)
Definition match_item (it : fmt_item) (s : list ascii) (a : fields)
: list (fields * list ascii) :=
match it with
| FLit c =>
    match s with
    | c' :: r => if Ascii.eqb (lower c) (lower c') then [(a, r)] else []
    | [] => []
    end
| FYear =>
    match s with
    | c1 :: c2 :: c3 :: c4 :: r =>
        if is_digit c1 && is_digit c2 && is_digit c3 && is_digit c4
        then [(mkFields (int_of [c1; c2; c3; c4]) (fm a) (fd a) (fH a) (fM a) (fS a) (ff a), r)]
        else []
    | _ => []
    end
| FMonth =>
    map (fun '(m, r) => (mkFields (fY a) (int_of m) (fd a) (fH a) (fM a) (fS a) (ff a), r))
        (alt2 (in_range 1 1) (in_range 0 2) s ++ alt2 (in_range 0 0) (in_range 1 9) s
         ++ alt1 (in_range 1 9) s)
| FDay =>
    map (fun '(m, r) => (mkFields (fY a) (fm a) (int_of m) (fH a) (fM a) (fS a) (ff a), r))
        (alt2 (in_range 3 3) (in_range 0 1) s ++ alt2 (in_range 1 2) is_digit s
         ++ alt2 (in_range 0 0) (in_range 1 9) s ++ alt1 (in_range 1 9) s
         ++ alt2 is_space (in_range 1 9) s)
| FHour =>
    map (fun '(m, r) => (mkFields (fY a) (fm a) (fd a) (int_of m) (fM a) (fS a) (ff a), r))
        (alt2 (in_range 2 2) (in_range 0 3) s ++ alt2 (in_range 0 1) is_digit s
         ++ alt1 is_digit s)
| FMinute =>
    map (fun '(m, r) => (mkFields (fY a) (fm a) (fd a) (fH a) (int_of m) (fS a) (ff a), r))
        (alt2 (in_range 0 5) is_digit s ++ alt1 is_digit s)
| FSecond =>
    map (fun '(m, r) => (mkFields (fY a) (fm a) (fd a) (fH a) (fM a) (int_of m) (ff a), r))
        (alt2 (in_range 6 6) (in_range 0 1) s ++ alt2 (in_range 0 5) is_digit s
         ++ alt1 is_digit s)
| FMicro =>
    map (fun '(m, r) =>
           (mkFields (fY a) (fm a) (fd a) (fH a) (fM a) (fS a)
                     (int_of m * 10 ^ (6 - Z.of_nat (length m))), r))
        (digit_run 6 s)
end.

Fixpoint match_items (items : list fmt_item) (s : list ascii) (a : fields)
: list (fields * list ascii) :=
match items with
| [] => [(a, s)]
| it :: rest =>
    flat_map (fun '(a', s') => match_items rest s' a') (match_item it s a)
end.

Definition is_leap (y : Z) : bool :=
((y mod 4 =? 0) && negb (y mod 100 =? 0)) || (y mod 400 =? 0).

Definition days_in_month (y m : Z) : Z :=
if m =? 2 then (if is_leap y then 29 else 28)
else if (m =? 4) || (m =? 6) || (m =? 9) || (m =? 11) then 30
else 31.

(** [datetime.strptime(s, fmt)] for formats built from the directives above:
  the first match of the compiled expression is taken, unconverted trailing
  data is an error, and so is a field the [datetime] constructor refuses.
  The result is naive. *)
Definition strptime (s fmt : string) : outcome datetime :=
match compile_format (list_ascii_of_string fmt) with
| None => Raise ValueError
| Some items =>
    match match_items items (list_ascii_of_string s) fields0 with
    | (a, []) :: _ =>
        if (1 <=? fY a) && (1 <=? fd a) && (fd a <=? days_in_month (fY a) (fm a))
           && (fS a <=? 59)
        then Ok (mkDatetime (fY a) (fm a) (fd a) (fH a) (fM a) (fS a) (ff a) None)
        else Raise ValueError
    | _ => Raise ValueError
    end
end.

Definition replace_tzinfo (d : datetime) (tz : option Z) : datetime :=
mkDatetime (year d) (month d) (day d) (hour d) (minute d) (second d)
           (microsecond d) tz.

(** [date_str[-1]] of a non-empty string. *)
Definition last_char (s : string) : string :=
substring (String.length s - 1) 1 s.

(** [parse_iso_datetime] (attributes.py:14).  The [except ValueError] handler
  sees the truncated [date_str], which was rebound inside the [try]. *)
Definition parse_iso_datetime (date_str : string) : outcome datetime :=
let date_str :=
  if (27 <? String.length date_str)%nat
  then (substring 0 26 date_str ++ last_char date_str)%string
  else date_str in
match strptime date_str "%Y-%m-%dT%H:%M:%S.%fZ" with
| Ok date => Ok (replace_tzinfo date (Some utc))
| Raise ValueError =>
    match strptime date_str "%Y-%m-%dT%H:%M:%SZ" with
    | Ok date => Ok (replace_tzinfo date (Some utc))
    | Raise e => Raise e
    end
| Raise e => Raise e
end.

Definition digit_char (z : Z) : ascii := ascii_of_nat (Z.to_nat (48 + z mod 10)).

Fixpoint pad (n : nat) (z : Z) : string :=
match n with
| O => EmptyString
| S n' => (pad n' (z / 10) ++ String (digit_char z) EmptyString)%string
end.

(** [datetime.isoformat]: microseconds only when non-zero, the UTC offset
  only for an aware value. *)
Definition isoformat (d : datetime) : string :=
(pad 4 (year d) ++ "-" ++ pad 2 (month d) ++ "-" ++ pad 2 (day d) ++ "T"
 ++ pad 2 (hour d) ++ ":" ++ pad 2 (minute d) ++ ":" ++ pad 2 (second d)
 ++ (if (microsecond d =? 0)%Z then "" else "." ++ pad 6 (microsecond d))
 ++ match tzinfo d with
    | None => ""
    | Some off =>
        (if (off <? 0)%Z then "-" else "+")
        ++ pad 2 (Z.abs off / 60)%Z ++ ":" ++ pad 2 (Z.abs off mod 60)%Z
    end)%string.

(** [serialize_datetime] (attributes.py:29). *)
Definition serialize_datetime (v : value) : value :=
match v with
| VDate d => VStr (isoformat d)
| _ => v
end.

(** [Timestamp.deserialize] (attributes.py:303). *)
Definition Timestamp_deserialize (v : value) (validate : bool) : outcome value :=
match v with
| VNone => Ok v
| _ =>
    if validate then Ok v
    else
      match v with
      | VDate d =>
          match tzinfo d with
          | None => Ok (VDate (replace_tzinfo d (Some utc)))
          | Some _ => Ok v
          end
      | VStr s =>
          match parse_iso_datetime s with
          | Ok d => Ok (VDate d)
          | Raise ValueError => Raise AttributeValidationError
          | Raise e => Raise e
          end
      | _ => Raise TypeError    (* [len] / [strptime] on a non-string *)
      end
end.

(** [Timestamp.serialize] (attributes.py:323). *)
Definition Timestamp_serialize (v : value) : value := serialize_datetime v.

End Iso.

(** ** Python dictionaries

    A [dict] keeps insertion order; assigning to a key that is present keeps
    its position. *)

Section Dict.
Context {K V : Type} `{EqDecision K}.

Fixpoint dict_get (d : list (K * V)) (k : K) : option V :=
  match d with
  | [] => None
  | (k', v) :: d' => if decide (k' = k) then Some v else dict_get d' k
  end.

Fixpoint dict_set (d : list (K * V)) (k : K) (v : V) : list (K * V) :=
  match d with
  | [] => [(k, v)]
  | (k', v') :: d' =>
      if decide (k' = k) then (k, v) :: d' else (k', v') :: dict_set d' k v
  end.

(** [d.pop(k, None)] as far as the dictionary is concerned. *)
Fixpoint dict_pop (d : list (K * V)) (k : K) : list (K * V) :=
  match d with
  | [] => []
  | (k', v') :: d' =>
      if decide (k' = k) then dict_pop d' k else (k', v') :: dict_pop d' k
  end.

Definition dict_has (d : list (K * V)) (k : K) : bool :=
  match dict_get d k with Some _ => true | None => false end.

(** [d.update(e)] *)
Definition dict_update (d e : list (K * V)) : list (K * V) :=
  fold_left (fun acc kv => dict_set acc (fst kv) (snd kv)) e d.
End Dict.

(** ** Classes, attributes and heap objects *)

Definition classid := string.

Inductive DocumentState := SAVED | MODIFIED | UNSAVED | DELETED.

(** The Attribute subclasses of the source.  A MappingAttribute subclass is
    named by its class; a ListAttribute carries the kind of its item type. *)
Inductive kind :=
| KAttribute
| KTimestamp
| KEnum (enum_cls : string) (members : list string)
| KGeometry
| KBoolean
| KReference (reference_class : classid) (allow_unsaved : bool)
| KMapping (cls : classid)
| KList (item : kind).

(** The four policy flags of [Attribute.__init__]. *)
Record params := mkParams {
  p_mutable : bool;
  p_serializable : bool;
  p_sticky : bool;
  p_readonly : bool
}.

Definition default_params : params := mkParams true true false false.

(** A descriptor: its class ([a_kind]), the name [AttributeMeta] bound it to
    ([_attribute_name]) and its flags. *)
Record attribute := mkAttribute {
  a_kind : kind;
  a_name : string;
  a_params : params
}.

Definition a_mutable (a : attribute) := p_mutable (a_params a).
Definition a_serializable (a : attribute) := p_serializable (a_params a).
Definition a_readonly (a : attribute) := p_readonly (a_params a).

(** What a heap object is: a catalog (model) object, an instance of a
    MappingAttribute subclass used as a value, or a ListAttribute value. *)
Inductive shape :=
| Catalog (id : value) (st : DocumentState)
| Mapping
| ListOf (item : kind).

(** One record for all three shapes.  [o_attributes] is [_attributes] (catalog
    objects and mappings), [o_items] is [_items] (lists), [o_model_objects] is
    [_model_objects] (mappings and lists): the owners by identity, each with
    the attribute name that owner holds the value under ([None] when the owner
    is a list).  A field a shape does not have stays empty. *)
Record obj := mkObj {
  o_cls : classid;
  o_shape : shape;
  o_params : params;
  o_attributes : list (string * value);
  o_items : list value;
  o_model_objects : list (objid * option string)
}.

(** A call of a catalog object's [_set_modified (attr_name, changed, validate)]
    that returned. *)
Record notice := mkNotice {
  n_owner : objid;
  n_name : option string;
  n_changed : bool;
  n_validate : bool
}.

Record state := mkState {
  heap : gmap objid obj;
  log : list notice
}.

#[global] Instance exn_eq_dec : EqDecision exn.
Proof. solve_decision. Defined.
#[global] Instance DocumentState_eq_dec : EqDecision DocumentState.
Proof. solve_decision. Defined.
#[global] Instance params_eq_dec : EqDecision params.
Proof. solve_decision. Defined.
#[global] Instance notice_eq_dec : EqDecision notice.
Proof. solve_decision. Defined.

(** ** The state-and-exception monad

    A raised exception carries the state at the point of the raise: whatever
    was written before stays written. *)

Definition M (A : Type) : Type := state -> outcome A * state.

Definition ret {A} (a : A) : M A := fun st => (Ok a, st).
Definition raise {A} (e : exn) : M A := fun st => (Raise e, st).
Definition bind {A B} (m : M A) (f : A -> M B) : M B :=
  fun st =>
    match m st with
    | (Ok a, st') => f a st'
    | (Raise e, st') => (Raise e, st')
    end.
Definition lift {A} (r : outcome A) : M A := fun st => (r, st).
Definition read {A} (f : gmap objid obj -> outcome A) : M A :=
  fun st => (f (heap st), st).

Notation "'do' x <- m ; k" := (bind m (fun x => k))
  (at level 10, x name, m at level 100, k at level 200).
Notation "'run' m ; k" := (bind m (fun _ => k))
  (at level 10, m at level 100, k at level 200).

(** The same for computations that only read the heap. *)
Definition obind {A B} (m : outcome A) (f : A -> outcome B) : outcome B :=
  match m with
  | Ok a => f a
  | Raise e => Raise e
  end.
Notation "'try' x <- m ; k" := (obind m (fun x => k))
  (at level 10, x name, m at level 100, k at level 200).

Fixpoint for_each {A} (f : A -> M unit) (l : list A) : M unit :=
  match l with
  | [] => ret tt
  | x :: l' => run f x; for_each f l'
  end.

Fixpoint map_M {A B} (f : A -> M B) (l : list A) : M (list B) :=
  match l with
  | [] => ret []
  | x :: l' => do y <- f x; do ys <- map_M f l'; ret (y :: ys)
  end.

Fixpoint omap_M {A B} (f : A -> outcome B) (l : list A) : outcome (list B) :=
  match l with
  | [] => Ok []
  | x :: l' => try y <- f x; try ys <- omap_M f l'; Ok (y :: ys)
  end.

(** *** Heap access *)

(** An identity that is not in the heap cannot be written in Python; the
    model raises [AttributeError] there. *)
Definition lookup_obj (h : gmap objid obj) (o : objid) : outcome obj :=
  match h !! o with
  | Some x => Ok x
  | None => Raise AttributeError
  end.

Definition get_obj (o : objid) : M obj := read (fun h => lookup_obj h o).

Definition set_obj (o : objid) (x : obj) : M unit :=
  fun st => (Ok tt, mkState (<[o := x]> (heap st)) (log st)).

Definition with_attributes (x : obj) (d : list (string * value)) : obj :=
  mkObj (o_cls x) (o_shape x) (o_params x) d (o_items x) (o_model_objects x).
Definition with_items (x : obj) (l : list value) : obj :=
  mkObj (o_cls x) (o_shape x) (o_params x) (o_attributes x) l (o_model_objects x).
Definition with_model_objects (x : obj) (r : list (objid * option string)) : obj :=
  mkObj (o_cls x) (o_shape x) (o_params x) (o_attributes x) (o_items x) r.

(** [obj._attributes[name] = v] *)
Definition store (o : objid) (name : string) (v : value) : M unit :=
  do x <- get_obj o;
  set_obj o (with_attributes x (dict_set (o_attributes x) name v)).

(** [obj._attributes.pop(name, None)] *)
Definition unstore (o : objid) (name : string) : M value :=
  do x <- get_obj o;
  run set_obj o (with_attributes x (dict_pop (o_attributes x) name));
  ret (default VNone (dict_get (o_attributes x) name)).

Definition set_items (o : objid) (l : list value) : M unit :=
  do x <- get_obj o;
  set_obj o (with_items x l).

(** A new object; its identity differs from that of every live object. *)
Definition alloc (x : obj) : M objid :=
  fun st =>
    let o := fresh (dom (heap st)) in
    (Ok o, mkState (<[o := x]> (heap st)) (log st)).

Definition emit (n : notice) : M unit :=
  fun st => (Ok tt, mkState (heap st) (log st ++ [n])).

Definition is_mapping (h : gmap objid obj) (v : value) : bool :=
  match v with
  | VObj o => match h !! o with
              | Some x => match o_shape x with Mapping => true | _ => false end
              | None => false
              end
  | _ => false
  end.

Definition is_list (h : gmap objid obj) (v : value) : bool :=
  match v with
  | VObj o => match h !! o with
              | Some x => match o_shape x with ListOf _ => true | _ => false end
              | None => false
              end
  | _ => false
  end.

(** [bool(v)] *)
Definition truthy (h : gmap objid obj) (v : value) : bool :=
  match v with
  | VNone => false
  | VBool b => b
  | VInt z => negb (z =? 0)
  | VStr s | VEnum _ s => negb (String.eqb s "")
  | VDate _ => true
  | VList l => match l with [] => false | _ => true end
  | VDict d => match d with [] => false | _ => true end
  | VObj o =>
      match h !! o with
      | Some x => match o_shape x with
                  | ListOf _ => match o_items x with [] => false | _ => true end
                  | _ => true
                  end
      | None => true
      end
  end.

(** ** The environment

    What the attribute layer takes from its collaborators: the class table
    ([_attribute_types] as [AttributeMeta] merged it, and the ancestors of each
    class), the owner's modification callback, the lookup of a referenced
    object by id, the document serializer of catalog objects and the two
    geometry conversions. *)
Record env := mkEnv {
  schema : classid -> list attribute;
  superclasses : classid -> list classid;
  (** whether [owner._set_modified (attr_name, changed, validate)] raises *)
  veto : objid -> option string -> bool -> bool -> bool;
  (** [reference_class.get (id, client=model_object._client)] *)
  reference_get : classid -> value -> objid -> M value;
  (** [value.serialize (modified_only=False, ...)] of a catalog object *)
  catalog_serialize : gmap objid obj -> objid -> outcome value;
  geometry_like_to_shapely : value -> outcome value;
  shapely_to_geojson : value -> outcome value
}.

(** ** Equality of builtin values *)

Definition num_of (v : value) : option Z :=
  match v with
  | VBool b => Some (Z.b2z b)
  | VInt z => Some z
  | _ => None
  end.

Definition str_of (v : value) : option string :=
  match v with
  | VStr s | VEnum _ s => Some s
  | _ => None
  end.

Definition days_from_civil (y m d : Z) : Z :=
  let y' := if m <=? 2 then y - 1 else y in
  let era := y' / 400 in
  let yoe := y' - era * 400 in
  let mp := (m + 9) mod 12 in
  let doy := (153 * mp + 2) / 5 + d - 1 in
  let doe := yoe * 365 + yoe / 4 - yoe / 100 + doy in
  era * 146097 + doe - 719468.

Definition micros (d : datetime) : Z :=
  (((days_from_civil (year d) (month d) (day d) * 24 + hour d) * 60
    + minute d) * 60 + second d) * 1000000 + microsecond d.

(** Two aware datetimes are equal when they are the same instant; an aware
    and a naive one are never equal. *)
Definition datetime_eqb (d1 d2 : datetime) : bool :=
  match tzinfo d1, tzinfo d2 with
  | None, None => micros d1 =? micros d2
  | Some o1, Some o2 =>
      micros d1 - o1 * 60000000 =? micros d2 - o2 * 60000000
  | _, _ => false
  end.

Definition same_object (v w : value) : bool :=
  match v, w with
  | VObj a, VObj b => bool_decide (a = b)
  | _, _ => false
  end.

(** [for v in values] *)
Definition iter_values (h : gmap objid obj) (v : value) : outcome (list value) :=
  match v with
  | VList l => Ok l
  | VDict d => Ok (map (fun kv => VStr (fst kv)) d)
  | VStr s => Ok (map (fun c => VStr (String c EmptyString)) (list_ascii_of_string s))
  | VObj o =>
      match h !! o with
      | Some x => match o_shape x with
                  | ListOf _ => Ok (o_items x)
                  | _ => Raise TypeError
                  end
      | None => Raise TypeError
      end
  | _ => Raise TypeError
  end.

Definition id_field (name : string) : string := (name ++ "_id")%string.

Definition params_dict (p : params) : list (string * value) :=
  [("mutable"%string, VBool (p_mutable p));
   ("serializable"%string, VBool (p_serializable p));
   ("sticky"%string, VBool (p_sticky p));
   ("readonly"%string, VBool (p_readonly p))].

(** [Attribute._get_attr_params], with the extra parameters as a dict *)
Definition get_attr_params (p : params) (extra : list (string * value))
  : list (string * value) :=
  dict_update (params_dict p) extra.

Section Framework.
Context (E : env).

Definition issubclass (c d : classid) : bool :=
  bool_decide (c = d) || bool_decide (d ∈ superclasses E c).

(** [self._attribute_types.get (name)] *)
Definition attribute_types_get (cls : classid) (name : string) : option attribute :=
  find (fun a => String.eqb (a_name a) name) (schema E cls).

(** [get_attribute_type] (attributes.py:539) *)
Definition get_attribute_type (cls : classid) (name : string) : outcome attribute :=
  match attribute_types_get cls name with
  | Some a => Ok a
  | None => Raise AttributeError
  end.

(** The methods that call each other through dynamic dispatch.  A body is
    written against the record of callees; [calls] ties the knot with the
    depth of the call stack as fuel, and running out of it is Python's
    [RecursionError]. *)
Record calls := mkCalls {
  (** [v == w] *)
  c_eq : gmap objid obj -> value -> value -> outcome bool;
  (** [attribute_type.serialize (value)] *)
  c_serialize : gmap objid obj -> attribute -> value -> outcome value;
  (** [obj._set_modified (attr_name, changed, validate)] *)
  c_set_modified : objid -> option string -> bool -> bool -> M unit;
  (** [attribute_type.deserialize (value, validate)] *)
  c_deserialize : attribute -> value -> bool -> M value;
  (** [attribute_type.__set__ (obj, value, validate)] *)
  c_set : attribute -> objid -> value -> bool -> M unit
}.

Section Bodies.
Variable r : calls.

(** *** Equality *)

(** [PyObject_RichCompareBool (v, w, Py_EQ)]: identical objects are equal
    without asking them. *)
Definition eq_bool (h : gmap objid obj) (v w : value) : outcome bool :=
  if same_object v w then Ok true else c_eq r h v w.

Fixpoint all_eq_bool (h : gmap objid obj) (l1 l2 : list value) : outcome bool :=
  match l1, l2 with
  | x :: l1', y :: l2' =>
      try b <- eq_bool h x y;
      if b then all_eq_bool h l1' l2' else Ok false
  | _, _ => Ok true
  end.

(** [list.__eq__] *)
Definition builtin_list_eq (h : gmap objid obj) (l1 l2 : list value) : outcome bool :=
  if (length l1 =? length l2)%nat then all_eq_bool h l1 l2 else Ok false.

Fixpoint dict_entries_eq (h : gmap objid obj) (d1 d2 : list (string * value))
  : outcome bool :=
  match d1 with
  | [] => Ok true
  | (k, v) :: d1' =>
      match dict_get d2 k with
      | None => Ok false
      | Some w =>
          try b <- eq_bool h v w;
          if b then dict_entries_eq h d1' d2 else Ok false
      end
  end.

(** [dict.__eq__] *)
Definition builtin_dict_eq (h : gmap objid obj) (d1 d2 : list (string * value))
  : outcome bool :=
  if (length d1 =? length d2)%nat then dict_entries_eq h d1 d2 else Ok false.

(** The loop of [AttributeEqualityMixin.__eq__] (attributes.py:389). *)
Fixpoint fields_eq (h : gmap objid obj) (types : list attribute)
         (mine theirs : list (string * value)) : outcome bool :=
  match types with
  | [] => Ok true
  | attribute_type :: rest =>
      if negb (a_serializable attribute_type) then fields_eq h rest mine theirs
      else
        try s1 <- c_serialize r h attribute_type
                    (default VNone (dict_get mine (a_name attribute_type)));
        try s2 <- c_serialize r h attribute_type
                    (default VNone (dict_get theirs (a_name attribute_type)));
        try same <- c_eq r h s1 s2;
        if negb same then Ok false else fields_eq h rest mine theirs
  end.

(** [AttributeEqualityMixin.__eq__] (attributes.py:385) *)
Definition AttributeEqualityMixin_eq (h : gmap objid obj) (self : obj) (other : value)
  : outcome bool :=
  match other with
  | VObj o =>
      try y <- lookup_obj h o;
      if negb (issubclass (o_cls y) (o_cls self)) then Ok false
      else fields_eq h (schema E (o_cls self)) (o_attributes self) (o_attributes y)
  | _ => Ok false
  end.

(** The loop of [ListAttribute.__eq__]: [i1 != i2] is the operator, with
    no shortcut for identical items. *)
Fixpoint zip_eq (h : gmap objid obj) (l1 l2 : list value) : outcome bool :=
  match l1, l2 with
  | i1 :: l1', i2 :: l2' =>
      try same <- c_eq r h i1 i2;
      if negb same then Ok false else zip_eq h l1' l2'
  | _, _ => Ok true
  end.

(** [ListAttribute.__eq__] (attributes.py:1206) *)
Definition ListAttribute_eq (h : gmap objid obj) (self_id : objid) (self : obj)
           (other : value) : outcome bool :=
  if same_object (VObj self_id) other then Ok true
  else
    try theirs <-
      match other with
      | VList l => Ok (Some l)
      | VObj o =>
          try y <- lookup_obj h o;
          if issubclass (o_cls y) (o_cls self)
          then match o_shape y with
               | ListOf _ => Ok (Some (o_items y))
               | _ => Raise TypeError
               end
          else Ok None
      | _ => Ok None
      end;
    match theirs with
    | None => Ok false
    | Some l =>
        if negb (length (o_items self) =? length l)%nat then Ok false
        else zip_eq h (o_items self) l
    end.

(** [self.__eq__ (other)] of a heap object. *)
Definition method_eq (h : gmap objid obj) (self_id : objid) (other : value)
  : outcome bool :=
  try self <- lookup_obj h self_id;
  match o_shape self with
  | ListOf _ => ListAttribute_eq h self_id self other
  | _ => AttributeEqualityMixin_eq h self other
  end.

(** The operator [v == w].  When the right operand's class is a proper
    subclass of the left operand's, its method is asked first; neither
    [__eq__] of the source returns [NotImplemented], so the first answer
    stands.  A builtin left operand defers to the object on its right. *)
Definition eq_body (h : gmap objid obj) (v w : value) : outcome bool :=
  match v, w with
  | VObj a, VObj b =>
      try x <- lookup_obj h a;
      try y <- lookup_obj h b;
      if negb (bool_decide (o_cls x = o_cls y)) && issubclass (o_cls y) (o_cls x)
      then method_eq h b v
      else method_eq h a w
  | VObj a, _ => method_eq h a w
  | _, VObj b => method_eq h b v
  | VNone, VNone => Ok true
  | VDate d1, VDate d2 => Ok (datetime_eqb d1 d2)
  | VList l1, VList l2 => builtin_list_eq h l1 l2
  | VDict d1, VDict d2 => builtin_dict_eq h d1 d2
  | _, _ =>
      match num_of v, num_of w with
      | Some a, Some b => Ok (a =? b)
      | _, _ =>
          match str_of v, str_of w with
          | Some s, Some t => Ok (String.eqb s t)
          | _, _ => Ok false
          end
      end
  end.

(** *** Serialization *)

(** [MappingAttribute.serialize] (attributes.py:622) *)
Fixpoint serialize_items (h : gmap objid obj) (cls : classid)
         (data serialized : list (string * value))
  : outcome (list (string * value)) :=
  match data with
  | [] => Ok serialized
  | (name, value) :: data' =>
      try attribute_type <- get_attribute_type cls name;
      if a_serializable attribute_type
      then
        try s <- c_serialize r h attribute_type value;
        serialize_items h cls data' (dict_set serialized name s)
      else serialize_items h cls data' serialized
  end.

Definition MappingAttribute_serialize (h : gmap objid obj) (cls : classid)
           (attrs : value) : outcome value :=
  match attrs with
  | VNone => Ok VNone
  | VDict data =>
      try d <- serialize_items h cls data []; Ok (VDict d)
  | VObj o =>
      try x <- lookup_obj h o;
      match o_shape x with
      | Mapping =>
          try d <- serialize_items h cls (o_attributes x) []; Ok (VDict d)
      | _ => Raise AttributeError
      end
  | _ => Raise AttributeError
  end.

(** The instance of [item_cls] kept as [_item_type]: it has the list's flags. *)
Definition item_type (item : kind) (p : params) : attribute :=
  mkAttribute item "" p.

(** [ListAttribute.serialize] (attributes.py:950) *)
Definition ListAttribute_serialize (h : gmap objid obj) (item : kind) (p : params)
           (values : value) : outcome value :=
  match values with
  | VNone => Ok VNone
  | _ =>
      try l <- iter_values h values;
      try l' <- omap_M (c_serialize r h (item_type item p)) l;
      Ok (VList l')
  end.

Definition serialize_body (h : gmap objid obj) (a : attribute) (v : value)
  : outcome value :=
  match a_kind a with
  | KAttribute => Ok v
  | KTimestamp => Ok (Iso.Timestamp_serialize v)
  | KEnum enum_cls _ =>
      match v with
      | VEnum c s => if String.eqb c enum_cls then Ok (VStr s) else Ok v
      | _ => Ok v
      end
  | KGeometry => shapely_to_geojson E v
  | KBoolean => Ok (VBool (truthy h v))
  | KReference _ _ =>
      match v with
      | VObj o => catalog_serialize E h o
      | _ => Raise AttributeError
      end
  | KMapping cls => MappingAttribute_serialize h cls v
  | KList item => ListAttribute_serialize h item (a_params a) v
  end.

(** *** Owner registries and modification notices *)

(** [_add_model_object] (attributes.py:550, 863) *)
Definition add_model_object (v : value) (model_object : objid)
           (attr_name : option string) : M unit :=
  match v with
  | VObj o =>
      do x <- get_obj o;
      match o_shape x with
      | Catalog _ _ => raise AttributeError
      | _ => set_obj o (with_model_objects x
                          (dict_set (o_model_objects x) model_object attr_name))
      end
  | _ => raise AttributeError
  end.

(** [_remove_model_object] (attributes.py:562, 875) *)
Definition remove_model_object (v : value) (model_object : objid) : M unit :=
  match v with
  | VObj o =>
      do x <- get_obj o;
      match o_shape x with
      | Catalog _ _ => raise AttributeError
      | _ => set_obj o (with_model_objects x
                          (dict_pop (o_model_objects x) model_object))
      end
  | _ => raise AttributeError
  end.

(** [_set_modified]: a catalog object runs its own callback, which either
    raises or takes note; a mapping or a list (attributes.py:569, 882)
    ignores the name it is given and replays the notice to every owner
    under the name that owner holds it by. *)
Definition set_modified_body (o : objid) (attr_name : option string)
           (changed validate : bool) : M unit :=
  do x <- get_obj o;
  match o_shape x with
  | Catalog _ _ =>
      if veto E o attr_name changed validate then raise CallbackError
      else emit (mkNotice o attr_name changed validate)
  | _ =>
      for_each (fun owner => c_set_modified r (fst owner) (snd owner) changed validate)
               (o_model_objects x)
  end.

(** [_raise_if_immutable_or_readonly] (attributes.py:173) *)
Definition raise_if_immutable_or_readonly (p : params) (name : string)
           (obj : option objid) : M unit :=
  if p_readonly p then raise AttributeValidationError
  else if negb (p_mutable p) then
    match obj with
    | None => raise AttributeValidationError
    | Some o =>
        do x <- get_obj o;
        if dict_has (o_attributes x) name then raise AttributeValidationError
        else ret tt
    end
  else ret tt.

(** [changed = not (name in obj._attributes and obj._attributes[name] == value)] *)
Definition changed_from (obj : objid) (name : string) (value : value) : M bool :=
  do x <- get_obj obj;
  match dict_get (o_attributes x) name with
  | None => ret true
  | Some old => do same <- read (fun h => c_eq r h old value); ret (negb same)
  end.

(** *** Construction of mapping and list values *)

Definition flag (h : gmap objid obj) (kwargs : list (string * value))
           (key : string) (dflt : bool) : bool :=
  match dict_get kwargs key with
  | Some v => truthy h v
  | None => dflt
  end.

(** [MappingAttribute.__init__] (attributes.py:502) under a call that
    passes [validate] by keyword next to the expanded [kwargs]. *)
Definition MappingAttribute_init (cls : classid) (validate : bool)
           (kwargs : list (string * value)) : M objid :=
  if dict_has kwargs "validate" then raise TypeError
  else
    do p <- read (fun h => Ok (mkParams (flag h kwargs "mutable" true)
                                        (flag h kwargs "serializable" true)
                                        (flag h kwargs "sticky" false)
                                        (flag h kwargs "readonly" false)));
    do self <- alloc (mkObj cls Mapping p [] [] []);
    let kwargs :=
      dict_pop (dict_pop (dict_pop (dict_pop (dict_pop kwargs
        "mutable") "serializable") "sticky") "readonly") "doc" in
    run for_each
      (fun kv =>
         if validate then
           do attr <- lift (get_attribute_type cls (fst kv));
           c_set r attr self (snd kv) validate
         else
           match attribute_types_get cls (fst kv) with
           | Some attr => c_set r attr self (snd kv) validate
           | None => ret tt
           end)
      kwargs;
    ret self.

(** [ListAttribute._instantiate_item] (attributes.py:845) *)
Definition instantiate_item (self : objid) (item : kind) (v : value)
           (validate add_model : bool) : M value :=
  match item with
  | KMapping cls =>
      do already <- read (fun h => Ok (is_mapping h v));
      do v' <- (if already : bool then ret v
                else match v with
                     | VDict d => do o <- MappingAttribute_init cls validate d;
                                  ret (VObj o)
                     | _ => raise TypeError
                     end);
      run (if add_model then add_model_object v' self None else ret tt);
      ret v'
  | _ => ret v
  end.

(** [ListAttribute.__init__] (attributes.py:828) *)
Definition ListAttribute_init (item : kind) (p : params) (validate : bool)
           (items : list value) : M objid :=
  do self <- alloc (mkObj "ListAttribute" (ListOf item) p [] [] []);
  do l <- map_M (fun v => instantiate_item self item v validate true) items;
  run set_items self l;
  ret self.

(** *** Deserialization *)

(** [EnumAttribute.deserialize] (attributes.py:341): [self._enum_cls (value)]
    finds the member whose value the argument equals. *)
Definition EnumAttribute_deserialize (members : list string) (v : value)
           (validate : bool) : outcome value :=
  if validate then
    match str_of v with
    | Some s => if bool_decide (s ∈ members) then Ok (VStr s) else Raise ValueError
    | None => Raise ValueError
    end
  else Ok v.

(** [GeometryAttribute.deserialize] (attributes.py:356) *)
Definition GeometryAttribute_deserialize (v : value) : outcome value :=
  match v with
  | VNone => Ok VNone
  | _ =>
      match geometry_like_to_shapely E v with
      | Ok g => Ok g
      | Raise ValueError | Raise TypeError | Raise AttributeValidationError =>
          Raise AttributeValidationError
      | Raise e => Raise e
      end
  end.

(** [MappingAttribute.deserialize] (attributes.py:644) *)
Definition MappingAttribute_deserialize (cls : classid) (p : params)
           (values : value) (validate : bool) : M value :=
  match values with
  | VNone => ret VNone
  | _ =>
      do already <- read (fun h => Ok (is_mapping h values));
      if already : bool then ret values
      else match values with
           | VDict d =>
               do o <- MappingAttribute_init cls validate (get_attr_params p d);
               ret (VObj o)
           | _ => raise AttributeValidationError
           end
  end.

(** [ListAttribute.deserialize] (attributes.py:923) *)
Definition ListAttribute_deserialize (item : kind) (p : params)
           (values : value) (validate : bool) : M value :=
  match values with
  | VNone => ret VNone
  | _ =>
      do already <- read (fun h => Ok (is_list h values));
      if already : bool then ret values
      else match values with
           | VList l =>
               do o <- ListAttribute_init item p validate l;
               ret (VObj o)
           | _ => raise AttributeValidationError
           end
  end.

Definition deserialize_body (a : attribute) (v : value) (validate : bool) : M value :=
  match a_kind a with
  | KAttribute | KReference _ _ => ret v
  | KTimestamp => lift (Iso.Timestamp_deserialize v validate)
  | KEnum _ members => lift (EnumAttribute_deserialize members v validate)
  | KGeometry => lift (GeometryAttribute_deserialize v)
  | KBoolean => read (fun h => Ok (VBool (truthy h v)))
  | KMapping cls => MappingAttribute_deserialize cls (a_params a) v validate
  | KList item => ListAttribute_deserialize item (a_params a) v validate
  end.

(** *** The descriptors' [__set__] *)

(** [Attribute.__set__] (attributes.py:189) *)
Definition Attribute_set (a : attribute) (obj : objid) (v : value)
           (validate : bool) : M unit :=
  run (if validate then raise_if_immutable_or_readonly (a_params a) (a_name a) (Some obj)
       else ret tt);
  do v <- c_deserialize r a v validate;
  do changed <- changed_from obj (a_name a) v;
  run c_set_modified r obj (Some (a_name a)) changed validate;
  store obj (a_name a) v.

(** [value.state] and [value.id] of a catalog object *)
Definition state_of (x : obj) : outcome DocumentState :=
  match o_shape x with
  | Catalog _ st => Ok st
  | _ => Raise AttributeError
  end.

Definition id_of (x : obj) : outcome value :=
  match o_shape x with
  | Catalog i _ => Ok i
  | _ => Raise AttributeError
  end.

(** [isinstance (value, reference_class)] *)
Definition isinstance (h : gmap objid obj) (v : value) (cls : classid) : bool :=
  match v with
  | VObj o => match h !! o with
              | Some x => issubclass (o_cls x) cls
              | None => false
              end
  | _ => false
  end.

(** [CatalogObjectReference.__set__] (attributes.py:267) *)
Definition CatalogObjectReference_set (a : attribute) (reference_class : classid)
           (allow_unsaved : bool) (model_object : objid) (v : value)
           (validate : bool) : M unit :=
  run (if validate
       then raise_if_immutable_or_readonly (a_params a) (a_name a) (Some model_object)
       else ret tt);
  run match v with
      | VNone => ret tt
      | _ =>
          do inst <- read (fun h => Ok (isinstance h v reference_class));
          if negb inst then raise AttributeValidationError
          else
            if allow_unsaved then ret tt
            else
              do st <- read (fun h => match v with
                                      | VObj o => try x <- lookup_obj h o; state_of x
                                      | _ => Raise AttributeError
                                      end);
              if bool_decide (st = UNSAVED) then raise AttributeValidationError
              else ret tt
      end;
  do changed <- changed_from model_object (a_name a) v;
  run c_set_modified r model_object (Some (a_name a)) changed validate;
  run store model_object (a_name a) v;
  run c_set_modified r model_object (Some (id_field (a_name a))) changed false;
  do i <- read (fun h => match v with
                         | VNone => Ok VNone
                         | VObj o => try x <- lookup_obj h o; id_of x
                         | _ => Raise AttributeError
                         end);
  store model_object (id_field (a_name a)) i.

(** [MappingAttribute.__set__] (attributes.py:586) and
    [ListAttribute.__set__] (attributes.py:893), which have the same text. *)
Definition Container_set (a : attribute) (model_object : objid) (v : value)
           (validate : bool) : M unit :=
  run (if validate
       then raise_if_immutable_or_readonly (a_params a) (a_name a) (Some model_object)
       else ret tt);
  do v <- c_deserialize r a v validate;
  do x <- get_obj model_object;
  let previous_value := default VNone (dict_get (o_attributes x) (a_name a)) in
  do changed <- changed_from model_object (a_name a) v;
  run c_set_modified r model_object (Some (a_name a)) changed validate;
  run match previous_value with
      | VNone => ret tt
      | _ => remove_model_object previous_value model_object
      end;
  run match v with
      | VNone => ret tt
      | _ => add_model_object v model_object (Some (a_name a))
      end;
  store model_object (a_name a) v.

Definition set_body (a : attribute) (obj : objid) (v : value) (validate : bool)
  : M unit :=
  match a_kind a with
  | KReference reference_class allow_unsaved =>
      CatalogObjectReference_set a reference_class allow_unsaved obj v validate
  | KMapping _ | KList _ => Container_set a obj v validate
  | _ => Attribute_set a obj v validate
  end.

Definition step : calls :=
  mkCalls eq_body serialize_body set_modified_body deserialize_body set_body.
End Bodies.

Definition bottom : calls :=
  mkCalls (fun _ _ _ => Raise RecursionError)
          (fun _ _ _ => Raise RecursionError)
          (fun _ _ _ _ => raise RecursionError)
          (fun _ _ _ => raise RecursionError)
          (fun _ _ _ _ => raise RecursionError).

Fixpoint calls_at (depth : nat) : calls :=
  match depth with
  | O => bottom
  | S n => step (calls_at n)
  end.

(** ** The operations of the descriptors and of list values

    [r] stands for the methods reached through dynamic dispatch. *)
Section Operations.
Variable r : calls.

(** [Attribute.__get__] (attributes.py:159) on an instance;
    [MappingAttribute.__get__] (attributes.py:580) has the same effect. *)
Definition Attribute_get (a : attribute) (obj : objid) : M value :=
  do x <- get_obj obj;
  ret (default VNone (dict_get (o_attributes x) (a_name a))).

(** [Attribute.__delete__] (attributes.py:208) *)
Definition Attribute_delete (a : attribute) (obj : objid) (validate : bool) : M unit :=
  run (if validate
       then raise_if_immutable_or_readonly (a_params a) (a_name a) (Some obj)
       else ret tt);
  run unstore obj (a_name a);
  ret tt.

(** [MappingAttribute.__delete__] (attributes.py:614) and
    [ListAttribute.__delete__] (attributes.py:915) *)
Definition Container_delete (a : attribute) (model_object : objid) (validate : bool)
  : M unit :=
  run (if validate
       then raise_if_immutable_or_readonly (a_params a) (a_name a) (Some model_object)
       else ret tt);
  do previous_value <- unstore model_object (a_name a);
  match previous_value with
  | VNone => ret tt
  | _ => remove_model_object previous_value model_object
  end.

(** [getattr (model_object, self.id_field)]: the shadow field is a declared
    attribute of the owner's class, read with [Attribute.__get__]. *)
Definition get_id_field (model_object : objid) (name : string) : M value :=
  do x <- get_obj model_object;
  match attribute_types_get (o_cls x) (id_field name) with
  | None => raise AttributeError
  | Some _ => ret (default VNone (dict_get (o_attributes x) (id_field name)))
  end.

(** [CatalogObjectReference.__get__] (attributes.py:241) on an instance *)
Definition CatalogObjectReference_get (a : attribute) (reference_class : classid)
           (model_object : objid) : M value :=
  do x <- get_obj model_object;
  let cached_value := default VNone (dict_get (o_attributes x) (a_name a)) in
  do reference_id <- get_id_field model_object (a_name a);
  do hit <- read (fun h =>
              if truthy h cached_value then
                match cached_value with
                | VObj o =>
                    try c <- lookup_obj h o;
                    try i <- id_of c;
                    c_eq r h i reference_id
                | _ => Raise AttributeError
                end
              else Ok false);
  if hit : bool then ret cached_value
  else
    do new_value <-
      (do t <- read (fun h => Ok (truthy h reference_id));
       if t : bool then reference_get E reference_class reference_id model_object
       else ret VNone);
    run store model_object (a_name a) new_value;
    ret new_value.

(** *** List values *)

(** The policy check of a list mutator: no owner is passed. *)
Definition list_policy (self : objid) : M unit :=
  do x <- get_obj self;
  raise_if_immutable_or_readonly (o_params x) "" None.

Definition item_kind (x : obj) : kind :=
  match o_shape x with
  | ListOf item => item
  | _ => KAttribute
  end.

(** [self._instantiate_item (item, ...)] with the defaults of the source *)
Definition instantiate (self : objid) (v : value) (add_model : bool) : M value :=
  do x <- get_obj self;
  instantiate_item r self (item_kind x) v true add_model.

(** [self._set_modified (changed=...)], with [validate] at its default *)
Definition notify (self : objid) (changed : bool) : M unit :=
  set_modified_body r self None changed true.

Definition items_of (self : objid) : M (list value) :=
  do x <- get_obj self; ret (o_items x).

(** [isinstance (val, MappingAttribute)] then [val._remove_model_object (self)] *)
Definition release (self : objid) (val : value) : M unit :=
  do m <- read (fun h => Ok (is_mapping h val));
  if m : bool then remove_model_object val self else ret tt.

(** An index of a builtin list; a negative one counts from the end. *)
Definition norm_index (len : nat) (i : Z) : option nat :=
  let j := if i <? 0 then i + Z.of_nat len else i in
  if (0 <=? j) && (j <? Z.of_nat len) then Some (Z.to_nat j) else None.

(** The position [list.insert] uses: clamped into the list. *)
Definition clamp_index (len : nat) (i : Z) : nat :=
  let j := if i <? 0 then i + Z.of_nat len else i in
  Z.to_nat (Z.min (Z.max j 0) (Z.of_nat len)).

(** [append] (attributes.py:964) *)
Definition append (self : objid) (item : value) : M unit :=
  run list_policy self;
  do v <- instantiate self item true;
  run notify self true;
  do l <- items_of self;
  set_items self (l ++ [v]).

(** The lazy generator of [extend] and [__iadd__] consumed by the builtin
    [list.extend]: each element is instantiated and appended in turn. *)
Definition extend_lazily (self : objid) (others : list value) : M unit :=
  for_each (fun o =>
              do v <- instantiate self o true;
              do l <- items_of self;
              set_items self (l ++ [v]))
           others.

(** [extend] (attributes.py:994) *)
Definition extend (self : objid) (other : value) : M unit :=
  run list_policy self;
  do others <- read (fun h => iter_values h other);
  run notify self true;
  extend_lazily self others.

(** [__iadd__] (attributes.py:1167) *)
Definition iadd (self : objid) (other : value) : M unit :=
  run list_policy self;
  do others <- read (fun h => iter_values h other);
  do nonempty <- read (fun h => Ok (truthy h other));
  run notify self nonempty;
  extend_lazily self others.

(** [list.index]: the first position whose item equals the value. *)
Fixpoint find_index (h : gmap objid obj) (l : list value) (v : value) (i : nat)
  : outcome (option nat) :=
  match l with
  | [] => Ok None
  | x :: l' =>
      try b <- eq_bool r h x v;
      if b then Ok (Some i) else find_index h l' v (S i)
  end.

(** [index] (attributes.py:1004), without the optional bounds *)
Definition index (self : objid) (v : value) : M nat :=
  do new_value <- instantiate self v true;
  do l <- items_of self;
  do i <- read (fun h => find_index h l new_value 0);
  match i with
  | Some i => ret i
  | None => raise ValueError
  end.

(** [__contains__] (attributes.py:1163) *)
Definition contains (self : objid) (v : value) : M bool :=
  do new_value <- instantiate self v true;
  do l <- items_of self;
  do i <- read (fun h => find_index h l new_value 0);
  ret (match i with Some _ => true | None => false end).

Fixpoint count_eq (h : gmap objid obj) (l : list value) (v : value) : outcome nat :=
  match l with
  | [] => Ok O
  | x :: l' =>
      try b <- eq_bool r h x v;
      try n <- count_eq h l' v;
      Ok (if b then S n else n)
  end.

(** [count] (attributes.py:989) *)
Definition count (self : objid) (v : value) : M nat :=
  do new_value <- instantiate self v false;
  do l <- items_of self;
  read (fun h => count_eq h l new_value).

(** [insert] (attributes.py:1017) *)
Definition insert (self : objid) (i : Z) (v : value) : M unit :=
  run list_policy self;
  do new_value <- instantiate self v true;
  run notify self true;
  do l <- items_of self;
  let k := clamp_index (length l) i in
  set_items self (take k l ++ new_value :: drop k l).

(** [pop] (attributes.py:1027) *)
Definition pop (self : objid) (i : Z) : M value :=
  run list_policy self;
  run notify self true;
  do l <- items_of self;
  match norm_index (length l) i with
  | None => raise IndexError
  | Some k =>
      let popped := default VNone (l !! k) in
      run set_items self (take k l ++ drop (S k) l);
      run release self popped;
      ret popped
  end.

(** [remove] (attributes.py:1044) *)
Definition remove (self : objid) (v : value) : M unit :=
  run list_policy self;
  do i <- index self v;
  run pop self (Z.of_nat i);
  ret tt.

(** [self._items != new_items] for two builtin lists *)
Definition lists_differ (l1 l2 : list value) : M bool :=
  do same <- read (fun h => builtin_list_eq r h l1 l2);
  ret (negb same).

(** [reverse] (attributes.py:1053) *)
Definition reverse (self : objid) : M unit :=
  run list_policy self;
  do l <- items_of self;
  let new_items := rev l in
  do changed <- lists_differ l new_items;
  run notify self changed;
  set_items self new_items.

(** [__setitem__] (attributes.py:1094) with an integer index *)
Definition setitem (self : objid) (n : Z) (item : value) : M unit :=
  run list_policy self;
  do l <- items_of self;
  match norm_index (length l) n with
  | None => raise IndexError
  | Some k =>
      let previous_value := default VNone (l !! k) in
      do new_item <- instantiate self item true;
      do same <- read (fun h => c_eq r h previous_value new_item);
      run notify self (negb same);
      do l <- items_of self;
      run set_items self (<[k := new_item]> l);
      release self previous_value
  end.

(** [__delitem__] (attributes.py:1125) with an integer index *)
Definition delitem (self : objid) (n : Z) : M unit :=
  run list_policy self;
  do l <- items_of self;
  match norm_index (length l) n with
  | None => raise IndexError
  | Some k =>
      run release self (default VNone (l !! k));
      let new_items := take k l ++ drop (S k) l in
      do changed <- lists_differ l new_items;
      run notify self changed;
      set_items self new_items
  end.

(** [__delitem__] with the slice [[:]] *)
Definition delitem_all (self : objid) : M unit :=
  run list_policy self;
  do l <- items_of self;
  run for_each (release self) l;
  do changed <- lists_differ l [];
  run notify self changed;
  set_items self [].

(** [clear] (attributes.py:977) *)
Definition clear (self : objid) : M unit :=
  run list_policy self;
  do l <- items_of self;
  run notify self (match l with [] => false | _ => true end);
  delitem_all self.

(** [__imul__] (attributes.py:1179) *)
Definition imul (self : objid) (other : Z) : M unit :=
  run list_policy self;
  do l <- items_of self;
  run notify self (match l with [] => false | _ => negb (other =? 1) end);
  set_items self (concat (replicate (Z.to_nat other) l)).

(** [__len__] (attributes.py:1146) *)
Definition len (self : objid) : M nat :=
  do l <- items_of self; ret (length l).

(** [__getitem__] (attributes.py:1091) with an integer index *)
Definition getitem (self : objid) (n : Z) : M value :=
  do l <- items_of self;
  match norm_index (length l) n with
  | None => raise IndexError
  | Some k => ret (default VNone (l !! k))
  end.

(** [copy] (attributes.py:985): a builtin list of the same items *)
Definition copy (self : objid) : M value :=
  do l <- items_of self; ret (VList l).

(** [__add__] (attributes.py:1149): the result is a builtin list *)
Definition add (self : objid) (other : value) : M value :=
  do listlike <- read (fun h => Ok (match other with
                                    | VList _ => true
                                    | _ => is_list h other
                                    end));
  if negb listlike then raise TypeError
  else
    do others <- read (fun h => iter_values h other);
    do new_other <- map_M (fun o => instantiate self o false) others;
    do l <- items_of self;
    ret (VList (l ++ new_other)).

(** [__mul__] (attributes.py:1190) and [__rmul__] (attributes.py:1202) *)
Definition mul (self : objid) (other : Z) : M value :=
  do l <- items_of self; ret (VList (concat (replicate (Z.to_nat other) l))).
End Operations.
End Framework.

(** * Auxiliary definitions

    The predicates the theorems are stated with, and a small catalog to run
    the operations on. *)

Import Iso.
Local Open Scope string_scope.
Local Open Scope list_scope.

(** Every object of [st] is still there in [st'] with its class and shape,
    and, unless it is in [X], with its [_attributes] and [_items]. *)
Definition kept (X : gset objid) (st st' : state) : Prop :=
  forall o x, heap st !! o = Some x ->
    exists x', heap st' !! o = Some x' /\ o_cls x' = o_cls x /\ o_shape x' = o_shape x /\
      (o ∉ X -> o_attributes x' = o_attributes x /\ o_items x' = o_items x).

Definition keeps {A} (X : gset objid) (m : M A) : Prop :=
  forall st, kept X st (m st).2.

(** The callees leave every store alone, except that [__set__] writes the
    store of the object it is called on. *)
Definition sound (r : calls) : Prop :=
  (forall o nm c v, keeps ∅ (c_set_modified r o nm c v)) /\
  (forall a v vl, keeps ∅ (c_deserialize r a v vl)) /\
  (forall a obj v vl, keeps {[obj]} (c_set r a obj v vl)).

Definition instant : datetime := mkDatetime 2021 1 1 0 0 0 123456 (Some utc).

(** ** A small catalog to run the operations on

    The classes of the docstrings: [MyMapping] with one plain field, [File],
    and a catalog class that declares a mapping, a list of files, a
    reference with its shadow id, an immutable and a readonly field. *)
Module Example.

Definition plain (k : kind) (name : string) : attribute :=
  mkAttribute k name default_params.

Definition MyMapping : list attribute := [plain KAttribute "foo"].

Definition File : list attribute :=
  [plain KAttribute "href"; plain KAttribute "size_bytes"; plain KAttribute "hash";
   plain KAttribute "provider_id"; plain KAttribute "provider_href"].

Definition name_attr : attribute :=
  mkAttribute KAttribute "name" (mkParams false true false false).
Definition created_attr : attribute :=
  mkAttribute KTimestamp "created" (mkParams true true false true).
Definition map_attr : attribute := plain (KMapping "MyMapping") "map_attr".
Definition other_attr : attribute := plain (KMapping "MyMapping") "other_attr".
Definition files_attr : attribute := plain (KList (KMapping "File")) "files".
Definition product_attr : attribute :=
  mkAttribute (KReference "Product" false) "product" (mkParams true false false false).
Definition product_id_attr : attribute :=
  mkAttribute KAttribute "product_id" (mkParams false true false false).

Definition FakeCatalogObject : list attribute :=
  [name_attr; created_attr; map_attr; files_attr; product_attr; product_id_attr].

Definition OtherCatalogObject : list attribute := [other_attr].

Definition example_schema (cls : classid) : list attribute :=
  if String.eqb cls "MyMapping" then MyMapping
  else if String.eqb cls "SubMapping" then MyMapping
  else if String.eqb cls "File" then File
  else if String.eqb cls "FakeCatalogObject" then FakeCatalogObject
  else if String.eqb cls "OtherCatalogObject" then OtherCatalogObject
  else [].

Definition example_superclasses (cls : classid) : list classid :=
  if String.eqb cls "SubMapping" then ["MyMapping"] else [].

Definition product (i : string) : obj :=
  mkObj "Product" (Catalog (VStr i) SAVED) default_params [] [] [].

(** A catalog whose owners accept every change and whose lookup by id
    finds nothing. *)
Definition permissive : env :=
  mkEnv example_schema example_superclasses
        (fun _ _ _ _ => false)
        (fun _ _ _ => ret VNone)
        (fun _ _ => Raise AttributeError)
        (fun v => Ok v) (fun v => Ok v).

(** The same catalog with owners that refuse a notice about the shadow id
    of [product]. *)
Definition strict : env :=
  mkEnv example_schema example_superclasses
        (fun _ name _ _ => bool_decide (name = Some "product_id"))
        (fun _ _ _ => ret VNone)
        (fun _ _ => Raise AttributeError)
        (fun v => Ok v) (fun v => Ok v).

(** The same catalog where the first object refuses every notice, as a
    deleted object does. *)
Definition wary : env :=
mkEnv example_schema example_superclasses
(fun o _ _ _ => bool_decide (o = 1%positive))
(fun _ _ _ => ret VNone)
(fun _ _ => Raise AttributeError)
(fun v => Ok v) (fun v => Ok v).

(** A reference declared readonly. *)
Definition parent_attr : attribute :=
mkAttribute (KReference "Product" false) "parent" (mkParams true false false true).

Definition catalog_object (cls : classid) (attrs : list (string * value)) : obj :=
  mkObj cls (Catalog VNone SAVED) default_params attrs [] [].

Definition mapping (cls : classid) (attrs : list (string * value))
           (owners : list (objid * option string)) : obj :=
  mkObj cls Mapping default_params attrs [] owners.

Definition list_of (item : kind) (items : list value)
           (owners : list (objid * option string)) : obj :=
  mkObj "ListAttribute" (ListOf item) default_params [] items owners.

Definition heap_of (l : list (objid * obj)) : gmap objid obj := list_to_map l.

End Example.

Import Example.

Definition permits (p : params) (stored validate : bool) : bool :=
  negb validate || (negb (p_readonly p) && (p_mutable p || negb stored)).

Definition verdict (ok : bool) : outcome unit :=
  if ok then Ok tt else Raise AttributeValidationError.

Definition silent {A} (m : M A) : Prop := forall st, log (m st).2 = log st.

(** The state in which the object [o], which was [x], has the store [d]. *)
Definition with_store (st : state) (o : objid) (x : obj) (d : list (string * value))
  : state :=
  mkState (<[o := with_attributes x d]> (heap st)) (log st).

Definition is_record (x : obj) : bool :=
  match o_shape x with
  | ListOf _ => false
  | _ => true
  end.

(** The serializable attribute [t] serializes to equal values on both
    stores. *)
Definition serializes_alike (r : calls) (h : gmap objid obj)
           (mine theirs : list (string * value)) (t : attribute) : Prop :=
  a_serializable t = true ->
  exists s1 s2,
    c_serialize r h t (default VNone (dict_get mine (a_name t))) = Ok s1 /\
    c_serialize r h t (default VNone (dict_get theirs (a_name t))) = Ok s2 /\
    c_eq r h s1 s2 = Ok true.

Definition twins : gmap objid obj :=
  heap_of [(1%positive, mapping "MyMapping" [("foo", VStr "bar")] []);
           (2%positive, mapping "MyMapping" [("foo", VStr "bar")] [(7%positive, Some "map_attr")])].

Definition relatives : gmap objid obj :=
  heap_of [(1%positive, mapping "MyMapping" [("foo", VStr "bar")] []);
           (2%positive, mapping "SubMapping" [("foo", VStr "bar")] [])].

Definition is_catalog (h : gmap objid obj) (o : objid) : bool :=
  match h !! o with
  | Some x => match o_shape x with Catalog _ _ => true | _ => false end
  | None => false
  end.

Definition is_reference (a : attribute) : bool :=
  match a_kind a with KReference _ _ => true | _ => false end.

Definition is_container (a : attribute) : bool :=
  match a_kind a with KMapping _ | KList _ => true | _ => false end.

(** The owner is a catalog object whose callback accepts the notice. *)
Definition accepts (E : env) (h : gmap objid obj) (changed validate : bool)
           (owner : objid * option string) : Prop :=
  is_catalog h owner.1 = true /\ veto E owner.1 owner.2 changed validate = false.

Definition notice_for (changed validate : bool) (owner : objid * option string) : notice :=
  mkNotice owner.1 owner.2 changed validate.

Definition foo_attr : attribute := plain KAttribute "foo".

(** One [MyMapping] value held by two catalog objects under different
    names. *)
Definition shared_mapping : obj :=
  mapping "MyMapping" [("foo", VStr "bar")]
          [(1%positive, Some "map_attr"); (2%positive, Some "other_attr")].

Definition shared : state :=
  mkState (heap_of
    [(1%positive, catalog_object "FakeCatalogObject" [("map_attr", VObj 3%positive)]);
     (2%positive, catalog_object "OtherCatalogObject" [("other_attr", VObj 3%positive)]);
     (3%positive, shared_mapping)]) [].

(** The value is an object in state [UNSAVED]. *)
Definition unsaved (h : gmap objid obj) (v : value) : bool :=
  match v with
  | VObj t => match h !! t with
              | Some y => match o_shape y with
                          | Catalog _ UNSAVED => true
                          | _ => false
                          end
              | None => false
              end
  | _ => false
  end.

(** What [CatalogObjectReference.__set__] refuses: a value that is not null
    and is not an instance of the reference class, or is unsaved where that
    is not allowed. *)
Definition refused (E : env) (h : gmap objid obj) (cls : classid) (allow_unsaved : bool)
           (v : value) : bool :=
  match v with
  | VNone => false
  | _ => negb (isinstance E h v cls) || (negb allow_unsaved && unsaved h v)
  end.

(** Null, or a catalog object that is not refused. *)
Definition acceptable (E : env) (h : gmap objid obj) (cls : classid)
           (allow_unsaved : bool) (v : value) : bool :=
  match v with
  | VNone => true
  | VObj t => is_catalog h t && negb (refused E h cls allow_unsaved v)
  | _ => false
  end.

(** [None if value is None else value.id] *)
Definition id_or_none (h : gmap objid obj) (v : value) : value :=
  match v with
  | VObj t => match h !! t with
              | Some y => match o_shape y with Catalog i _ => i | _ => VNone end
              | None => VNone
              end
  | _ => VNone
  end.

Definition referring : state :=
  mkState (heap_of
    [(1%positive, catalog_object "FakeCatalogObject" []);
     (2%positive, product "p1")]) [].

(** If [m] raises, every object still has the store and the items it had. *)
Definition fails_clean {A} (m : M A) : Prop :=
  forall st e st', m st = (Raise e, st') -> kept ∅ st st'.

Definition never_raises {A} (m : M A) : Prop :=
  forall st, exists a st', m st = (Ok a, st').

(** A catalog object with an empty list of files. *)
Definition listed : state :=
  mkState (heap_of
    [(1%positive, catalog_object "FakeCatalogObject" [("files", VObj 2%positive)]);
     (2%positive, list_of (KMapping "File") [] [(1%positive, Some "files")])]) [].

(** What [CatalogObjectReference.__get__] does when the cache is not used:
    the lookup by the shadow id if that is truthy and null otherwise, stored
    under the name of the reference and returned. *)
Definition refetch (E : env) (cls : classid) (o : objid) (name : string) (x : obj)
           (shadow : value) (st : state) : outcome value * state :=
  if truthy (heap st) shadow
  then (do new_value <- reference_get E cls shadow o;
        run store o name new_value;
        ret new_value) st
  else (Ok VNone, with_store st o x (dict_set (o_attributes x) name VNone)).

(** A catalog whose lookup by id makes a saved object with that id. *)
Definition resolving : env :=
  mkEnv example_schema example_superclasses
        (fun _ _ _ _ => false)
        (fun cls i _ =>
           do t <- alloc (mkObj cls (Catalog i SAVED) default_params [] [] []);
           ret (VObj t))
        (fun _ _ => Raise AttributeError)
        (fun v => Ok v) (fun v => Ok v).

(** The owner caches the product ["p1"] and its shadow id says [shadow]. *)
Definition caching (shadow : value) : state :=
  mkState (heap_of
    [(1%positive, catalog_object "FakeCatalogObject"
                    [("product", VObj 2%positive); ("product_id", shadow)]);
     (2%positive, product "p1")]) [].

(** [attribute_type.deserialize (attribute_type.serialize (v), validate)] *)
Definition round_trip (E : env) (depth : nat) (a : attribute) (v : value)
           (validate : bool) (st : state) : outcome value * state :=
  match c_serialize (calls_at E (S depth)) (heap st) a v with
  | Ok s => c_deserialize (calls_at E (S depth)) a s validate st
  | Raise e => (Raise e, st)
  end.

Definition scalar (v : value) : bool :=
  match v with
  | VNone | VBool _ | VInt _ | VStr _ | VEnum _ _ => true
  | _ => false
  end.

Definition nowhere : state := mkState ∅ [].

Definition reserved : list string :=
  ["mutable"; "serializable"; "sticky"; "readonly"; "doc"; "validate"].

(** Whether the field named [k] of class [cls] goes on the wire. *)
Definition on_wire (E : env) (cls : classid) (k : string) : bool :=
  match attribute_types_get E cls k with
  | Some t => a_serializable t
  | None => false
  end.

(** A mapping value whose class has only plain attributes, whose fields are
    declared, hold scalars and do not bear the name of a constructor
    parameter. *)
Record plain_mapping (E : env) (cls : classid) (validate : bool)
       (d : list (string * value)) : Prop := {
  pm_names : NoDup (a_name <$> schema E cls);
  pm_plain : Forall (fun t => a_kind t = KAttribute) (schema E cls);
  pm_writable : validate = true -> Forall (fun t => a_readonly t = false) (schema E cls);
  pm_keys : NoDup d.*1;
  pm_declared : Forall (fun kv => is_Some (attribute_types_get E cls kv.1)) d;
  pm_scalar : Forall (fun kv => scalar kv.2 = true) d;
  pm_free : Forall (fun kv => kv.1 ∉ reserved) d
}.

Definition file_attr : attribute := plain (KMapping "File") "file".

(** One [File] with two of its fields set. *)
Definition filed : state :=
  mkState (heap_of
    [(1%positive, mapping "File" [("href", VStr "gs://a"); ("size_bytes", VInt 10)] [])]) [].

(** ** Timestamps

    A [datetime] the constructor of the class accepts. *)
Definition valid_datetime (d : datetime) : bool :=
  (1 <=? year d)%Z && (year d <=? 9999)%Z
  && (1 <=? month d)%Z && (month d <=? 12)%Z
  && (1 <=? day d)%Z && (day d <=? days_in_month (year d) (month d))%Z
  && (0 <=? hour d)%Z && (hour d <=? 23)%Z
  && (0 <=? minute d)%Z && (minute d <=? 59)%Z
  && (0 <=? second d)%Z && (second d <=? 59)%Z
  && (0 <=? microsecond d)%Z && (microsecond d <=? 999999)%Z.

(** The characters of a number written with [n] digits. *)
Definition digits (n : nat) (z : Z) : list ascii := list_ascii_of_string (pad n z).

(** The fields the directives of [strptime] can produce. *)
Definition ranged (a : fields) : Prop :=
  (0 <= fY a <= 9999)%Z /\ (1 <= fm a <= 12)%Z /\ (1 <= fd a <= 31)%Z /\
  (0 <= fH a <= 23)%Z /\ (0 <= fM a <= 59)%Z /\ (0 <= fS a <= 61)%Z /\
  (0 <= ff a <= 999999)%Z.

(** The last character of a string, if it has one. *)
Definition ends_with (c : ascii) (s : string) : Prop :=
  exists s0, s = (s0 ++ String c EmptyString)%string.

(** ** Lists in place

    What the theorems about the list operations are stated with. *)

(** The flags let a list value be changed in place. *)
Definition writable (x : obj) : bool :=
  negb (p_readonly (o_params x)) && p_mutable (o_params x).

(** A list value whose item type is not a MappingAttribute. *)
Definition plain_list (x : obj) : bool :=
  match o_shape x with
  | ListOf (KMapping _) => false
  | ListOf _ => true
  | _ => false
  end.

(** A list value whose item type is a MappingAttribute. *)
Definition mapping_list (x : obj) : bool :=
  match o_shape x with
  | ListOf (KMapping _) => true
  | _ => false
  end.

(** The notices one [_set_modified (changed=...)] of the value [x] leaves
    with its owners. *)
Definition told (changed : bool) (x : obj) : list notice :=
  map (notice_for changed true) (o_model_objects x).

(** Every owner of [x] is a catalog object that accepts the notice. *)
Definition heard (E : env) (h : gmap objid obj) (changed : bool) (x : obj) : Prop :=
  Forall (accepts E h changed true) (o_model_objects x).

(** The state in which the list [self], which was [x], holds [l]. *)
Definition with_list (st : state) (self : objid) (x : obj) (l : list value)
           (notices : list notice) : state :=
  mkState (<[self := with_items x l]> (heap st)) (log st ++ notices).

(** The heap after [val._remove_model_object (self)] where [val] is a
    MappingAttribute instance, and after that for every item of [l]. *)
Definition release_in (self : objid) (h : gmap objid obj) (val : value) : gmap objid obj :=
  match val with
  | VObj o =>
      match h !! o with
      | Some y =>
          match o_shape y with
          | Mapping => <[o := with_model_objects y (dict_pop (o_model_objects y) self)]> h
          | _ => h
          end
      | None => h
      end
  | _ => h
  end.

Definition released (self : objid) (l : list value) (h : gmap objid obj) : gmap objid obj :=
  foldl (release_in self) h l.

(** What releasing the items [l] does to the object [o]: nothing, unless it
    is a mapping among the items, which loses [self] from its registry. *)
Definition let_go (self : objid) (l : list value) (o : objid) (y : obj) : obj :=
  if existsb (same_object (VObj o)) l
     && match o_shape y with Mapping => true | _ => false end
  then with_model_objects y (dict_pop (o_model_objects y) self)
  else y.

(** The object is an instance of what the container attribute holds: some
    MappingAttribute for a mapping attribute, some ListAttribute for a list
    attribute. *)
Definition fits (a : attribute) (y : obj) : bool :=
  match a_kind a, o_shape y with
  | KMapping _, Mapping => true
  | KList _, ListOf _ => true
  | _, _ => false
  end.

(** Whether a container attribute takes the value: null, the builtin
    container it builds an instance from, or an instance. *)
Definition suits (h : gmap objid obj) (a : attribute) (v : value) : bool :=
  match v with
  | VNone => true
  | VDict _ => match a_kind a with KMapping _ => true | _ => false end
  | VList _ => match a_kind a with KList _ => true | _ => false end
  | VObj m => match h !! m with Some y => fits a y | None => false end
  | _ => false
  end.

(** The fields [MappingAttribute.serialize] reads: those of a dict, or the
    store of an instance. *)
Definition fields_of (h : gmap objid obj) (attrs : value) : option (list (string * value)) :=
  match attrs with
  | VDict d => Some d
  | VObj o =>
      match h !! o with
      | Some x => match o_shape x with Mapping => Some (o_attributes x) | _ => None end
      | None => None
      end
  | _ => None
  end.

(** The operation raises [AttributeValidationError] and changes nothing. *)
Definition refuses {A} (m : M A) (st : state) : Prop :=
  m st = (Raise AttributeValidationError, st).

(** [_model_objects] of the object behind a value. *)
Definition registry (h : gmap objid obj) (o : objid) : list (objid * option string) :=
  match h !! o with
  | Some x => o_model_objects x
  | None => []
  end.

(** ** Resolution strings

    [Resolution.deserialize] (attributes.py:744) reads a string such as
    ["60m"] or ["1.2 deg."] into a number and a unit before it hands them on
    to [MappingAttribute.deserialize].  A character stands for its code
    point; the strings here hold code points below 256, so that the degree
    sign is the one character 176. *)
Module Resolution.

Inductive ResolutionUnit := METERS | DEGREES.

Definition code (c : ascii) : nat := nat_of_ascii c.

Definition is_point (c : ascii) : bool := (code c =? 46)%nat.

(** The class [[-0-9.]] *)
Definition in_number (c : ascii) : bool :=
  (code c =? 45)%nat || ((48 <=? code c) && (code c <=? 57))%nat || is_point c.

(** A letter, or the degree sign *)
Definition is_letter (c : ascii) : bool :=
  ((97 <=? code c) && (code c <=? 122))%nat || ((65 <=? code c) && (code c <=? 90))%nat
  || (code c =? 176)%nat.

(** The class [[a-zA-Z.°]] *)
Definition in_unit (c : ascii) : bool := is_letter c || is_point c.

(** [\s] on text: the white space of Unicode, below 256 *)
Definition is_whitespace (c : ascii) : bool :=
  ((9 <=? code c) && (code c <=? 13))%nat || ((28 <=? code c) && (code c <=? 32))%nat
  || (code c =? 133)%nat || (code c =? 160)%nat.

(** [p+], greedy: the non-empty runs of [p] at the head of the text, each
    with what follows it, the longest first. *)
Fixpoint plus (p : ascii -> bool) (s : list ascii) : list (list ascii * list ascii) :=
  match s with
  | c :: r =>
      if p c then map (fun '(m, r') => (c :: m, r')) (plus p r) ++ [([c], r)] else []
  | [] => []
  end.

(** [p*], greedy *)
Definition star (p : ascii -> bool) (s : list ascii) : list (list ascii * list ascii) :=
  plus p s ++ [([], s)].

(** The matches of [([-0-9.]+)\s*([a-zA-Z.°]+)] at the start of the text, in
    the order backtracking finds them: groups 1 and 2 of each. *)
Definition matches (s : list ascii) : list (list ascii * list ascii) :=
  flat_map (fun '(group1, after1) =>
              flat_map (fun '(_, after_space) =>
                          map (fun '(group2, _) => (group1, group2))
                              (plus in_unit after_space))
                       (star is_whitespace after1))
           (plus in_number s).

(** [_pattern.match (value)] *)
Definition pattern_match (s : list ascii) : option (list ascii * list ascii) :=
  head (matches s).

Fixpoint lstrip_points (s : list ascii) : list ascii :=
  match s with
  | c :: r => if is_point c then lstrip_points r else s
  | [] => []
  end.

(** [str.rstrip (".")] *)
Definition rstrip_points (s : list ascii) : list ascii := rev (lstrip_points (rev s)).

Definition degree_sign : string := String (ascii_of_nat 176) EmptyString.

(** [_unit_mapping] *)
Definition unit_mapping : list (string * ResolutionUnit) :=
  [("m"%string, METERS); ("meter"%string, METERS); ("metre"%string, METERS);
   ("meters"%string, METERS); ("metres"%string, METERS);
   (degree_sign, DEGREES); ("deg"%string, DEGREES); ("degree"%string, DEGREES);
   ("degrees"%string, DEGREES)].

(** The number a decimal numeral writes: [mantissa / 10 ^ decimals], with
    its sign.  [float] gives the double nearest to it. *)
Record numeral := mkNumeral {
  negative : bool;
  mantissa : Z;
  decimals : nat
}.

Fixpoint leading_digits (s : list ascii) : list ascii * list ascii :=
  match s with
  | c :: r =>
      if Iso.is_digit c then (c :: (leading_digits r).1, (leading_digits r).2) else ([], s)
  | [] => ([], [])
  end.

(** [float (text)] for text of the class [[-0-9.]]: an optional minus sign,
    then digits with at most one point among them and at least one digit. *)
Definition float (s : list ascii) : option numeral :=
  let '(neg, body) :=
    match s with
    | c :: r => if (code c =? 45)%nat then (true, r) else (false, s)
    | [] => (false, [])
    end in
  let '(whole, rest) := leading_digits body in
  match rest with
  | [] =>
      match whole with
      | [] => None
      | _ => Some (mkNumeral neg (Iso.int_of whole) 0)
      end
  | c :: fraction =>
      if is_point c && forallb Iso.is_digit fraction
         && negb (match whole, fraction with [], [] => true | _, _ => false end)
      then Some (mkNumeral neg (Iso.int_of (whole ++ fraction)) (length fraction))
      else None
  end.

(** The branch of [Resolution.deserialize] for a string
    (attributes.py:745-754): the value and the unit of the dictionary it
    makes, or the exception it raises. *)
Definition deserialize_string (value : string) : outcome (numeral * ResolutionUnit) :=
  match pattern_match (list_ascii_of_string value) with
  | None => Raise AttributeValidationError
  | Some (group1, group2) =>
      let unit := rstrip_points (map Iso.lower group2) in
      match unit with
      | [] => Raise AttributeValidationError
      | _ =>
          match dict_get unit_mapping (string_of_list_ascii unit) with
          | None => Raise AttributeValidationError
          | Some u =>
              match float group1 with
              | Some f => Ok (f, u)
              | None => Raise ValueError
              end
          end
      end
  end.

(** The text is over, or goes on with a character outside the class [p]. *)
Definition ends (p : ascii -> bool) (s : list ascii) : bool :=
  match s with
  | c :: _ => negb (p c)
  | [] => true
  end.

End Resolution.

(** ** The metaclass

    [AttributeMeta.__new__] (attributes.py:412) builds the registries of a
    class from its body and its bases.  Descriptors are objects: a class body
    may bind one descriptor to several names, and a subclass shares the
    descriptors of its bases, so they are kept in a store by identity. *)
Module Meta.

(** A descriptor object: the attribute it is, and its truth value. *)
Record descriptor := mkDescriptor {
  d_attribute : attribute;
  d_truth : bool
}.

(** What a class body binds a name to: an [Attribute] instance, or anything
    else, of which only the truth value matters here. *)
Inductive member :=
| MAttribute (d : objid)
| MOther (truth : bool).

(** A base class: [_attribute_types] and [_reference_attribute_types], when
    the base has them. *)
Record base := mkBase {
  b_attribute_types : option (list (string * objid));
  b_reference_attribute_types : option (list (string * objid))
}.

(** [isinstance (attr_type, CatalogObjectReference)] *)
Definition is_reference_type (ds : gmap objid descriptor) (d : objid) : bool :=
  match ds !! d with
  | Some x => is_reference (d_attribute x)
  | None => false
  end.

(** [attr_type._attribute_name = attr_name] *)
Definition set_attribute_name (ds : gmap objid descriptor) (d : objid) (attr_name : string)
  : gmap objid descriptor :=
  alter (fun x => mkDescriptor (mkAttribute (a_kind (d_attribute x)) attr_name
                                            (a_params (d_attribute x)))
                               (d_truth x)) d ds.

(** The first loop: every declared attribute is registered under its name. *)
Fixpoint register (items : list (string * member))
         (types references : list (string * objid)) (ds : gmap objid descriptor)
  : list (string * objid) * list (string * objid) * gmap objid descriptor :=
  match items with
  | [] => (types, references, ds)
  | (attr_name, MAttribute attr_type) :: items' =>
      register items' (dict_set types attr_name attr_type)
               (if is_reference_type ds attr_type
                then dict_set references attr_name attr_type
                else references)
               (set_attribute_name ds attr_type attr_name)
  | (_, MOther _) :: items' => register items' types references ds
  end.

Definition truth (ds : gmap objid descriptor) (m : member) : bool :=
  match m with
  | MAttribute d => match ds !! d with Some x => d_truth x | None => true end
  | MOther t => t
  end.

(** ["_no_inherit" not in attrs or not attrs["_no_inherit"]] *)
Definition inherits_docs (ds : gmap objid descriptor) (attrs : list (string * member))
  : bool :=
  match dict_get attrs "_no_inherit" with
  | None => true
  | Some m => negb (truth ds m)
  end.

(** The loop over [b._attribute_types] of one base. *)
Fixpoint inherit_types (ds : gmap objid descriptor) (b_types : list (string * objid))
         (types : list (string * objid)) (attrs : list (string * member))
  : list (string * objid) * list (string * member) :=
  match b_types with
  | [] => (types, attrs)
  | (attr_name, attr_type) :: rest =>
      if dict_has types attr_name then inherit_types ds rest types attrs
      else
        inherit_types ds rest (dict_set types attr_name attr_type)
                      (if inherits_docs ds attrs
                       then dict_set attrs attr_name (MAttribute attr_type)
                       else attrs)
  end.

(** The loop over [b._reference_attribute_types] of one base. *)
Fixpoint inherit_references (b_references references : list (string * objid))
  : list (string * objid) :=
  match b_references with
  | [] => references
  | (attr_name, attr_type) :: rest =>
      inherit_references rest
        (if dict_has references attr_name then references
         else dict_set references attr_name attr_type)
  end.

(** The loop over the bases. *)
Fixpoint inherit (ds : gmap objid descriptor) (bases : list base)
         (types references : list (string * objid)) (attrs : list (string * member))
  : list (string * objid) * list (string * objid) * list (string * member) :=
  match bases with
  | [] => (types, references, attrs)
  | b :: rest =>
      let '(types, attrs) :=
        match b_attribute_types b with
        | Some b_types => inherit_types ds b_types types attrs
        | None => (types, attrs)
        end in
      let references :=
        match b_reference_attribute_types b with
        | Some b_references => inherit_references b_references references
        | None => references
        end in
      inherit ds rest types references attrs
  end.

(** The class that comes out: the three entries [__new__] adds to the
    namespace, the namespace itself and the descriptors. *)
Record class := mkClass {
  ATTRIBUTES : list string;
  attribute_types : list (string * objid);
  reference_attribute_types : list (string * objid);
  namespace : list (string * member);
  descriptors : gmap objid descriptor
}.

Definition nonempty {A} (l : list A) : bool :=
  match l with [] => false | _ => true end.

(** [AttributeMeta.__new__] (attributes.py:412) *)
Definition new (bases : list base) (attrs : list (string * member))
           (ds : gmap objid descriptor) : class :=
  let '(types, references, ds) := register attrs [] [] ds in
  let '(types, references, attrs) := inherit ds bases types references attrs in
  let attrs := dict_set attrs "ATTRIBUTES" (MOther (nonempty types)) in
  let attrs := dict_set attrs "_attribute_types" (MOther (nonempty types)) in
  let attrs := dict_set attrs "_reference_attribute_types" (MOther (nonempty references)) in
  mkClass types.*1 types references attrs ds.

(** The attribute a class body declares under a name. *)
Definition declared (attrs : list (string * member)) (name : string) : option objid :=
  match dict_get attrs name with
  | Some (MAttribute d) => Some d
  | _ => None
  end.

(** The reference a class body declares under a name. *)
Definition declared_reference (ds : gmap objid descriptor) (attrs : list (string * member))
           (name : string) : option objid :=
  match declared attrs name with
  | Some d => if is_reference_type ds d then Some d else None
  | None => None
  end.

(** The first of the bases, in the order they are listed, that has the name
    in the registry [reg]. *)
Fixpoint first_base (reg : base -> option (list (string * objid))) (bases : list base)
         (name : string) : option objid :=
  match bases with
  | [] => None
  | b :: rest =>
      match reg b with
      | Some r =>
          match dict_get r name with
          | Some d => Some d
          | None => first_base reg rest name
          end
      | None => first_base reg rest name
      end
  end.

(** The names a class body binds to attributes, in the order of the body. *)
Fixpoint declared_names (attrs : list (string * member)) : list string :=
  match attrs with
  | [] => []
  | (name, MAttribute _) :: rest => name :: declared_names rest
  | (_, MOther _) :: rest => declared_names rest
  end.

(** The last name a class body binds the descriptor [d] to. *)
Fixpoint last_name (attrs : list (string * member)) (d : objid) : option string :=
  match attrs with
  | [] => None
  | (name, m) :: rest =>
      match last_name rest d with
      | Some n => Some n
      | None => match m with
                | MAttribute d' => if decide (d' = d) then Some name else None
                | MOther _ => None
                end
      end
  end.

End Meta.

(** * Lemmas and theorems *)

(** ** Reasoning about monadic code *)

Lemma bind_ok {A B} (m : M A) (f : A -> M B) st a st' :
  m st = (Ok a, st') -> bind m f st = f a st'.
Proof. intros H. unfold bind. by rewrite H. Qed.

Lemma bind_raise {A B} (m : M A) (f : A -> M B) st e st' :
  m st = (Raise e, st') -> bind m f st = (Raise e, st').
Proof. intros H. unfold bind. by rewrite H. Qed.

Lemma bind_inv_ok {A B} (m : M A) (f : A -> M B) st b st2 :
  bind m f st = (Ok b, st2) ->
  exists a st1, m st = (Ok a, st1) /\ f a st1 = (Ok b, st2).
Proof.
  unfold bind. destruct (m st) as [[a|e] st1]; simpl; intros H; [eauto | discriminate].
Qed.

Lemma bind_inv_raise {A B} (m : M A) (f : A -> M B) st e st2 :
  bind m f st = (Raise e, st2) ->
  m st = (Raise e, st2) \/
  exists a st1, m st = (Ok a, st1) /\ f a st1 = (Raise e, st2).
Proof.
  unfold bind. destruct (m st) as [[a|e'] st1]; simpl; intros H; [right; eauto | left; congruence].
Qed.

(** ** Dictionaries *)

Section DictFacts.
Context {K V : Type} `{EqDecision K}.
Implicit Types (d : list (K * V)) (k : K) (v : V).

Lemma dict_get_set_eq d k v : dict_get (dict_set d k v) k = Some v.
Proof.
  induction d as [|[k' v'] d IH]; simpl.
  - by rewrite decide_True.
  - destruct (decide (k' = k)); simpl.
    + by rewrite decide_True.
    + by rewrite decide_False.
Qed.

Lemma dict_get_set_ne d k k' v : k <> k' -> dict_get (dict_set d k v) k' = dict_get d k'.
Proof.
  intros Hne. induction d as [|[k0 v0] d IH]; simpl.
  - by rewrite decide_False.
  - destruct (decide (k0 = k)) as [->|]; simpl.
    + by rewrite !decide_False.
    + destruct (decide (k0 = k')); done.
Qed.

Lemma dict_pop_absent d k : dict_get d k = None -> dict_pop d k = d.
Proof.
  induction d as [|[k0 v0] d IH]; simpl; [done|].
  destruct (decide (k0 = k)); [done|]. intros H. by rewrite IH.
Qed.

Lemma dict_get_pop_eq d k : dict_get (dict_pop d k) k = None.
Proof.
  induction d as [|[k0 v0] d IH]; simpl; [done|].
  destruct (decide (k0 = k)); [done|]. simpl. by rewrite decide_False.
Qed.

Lemma dict_get_pop_ne d k k' : k <> k' -> dict_get (dict_pop d k) k' = dict_get d k'.
Proof.
  intros Hne. induction d as [|[k0 v0] d IH]; simpl; [done|].
  destruct (decide (k0 = k)) as [->|]; simpl.
  - by rewrite decide_False.
  - by rewrite IH.
Qed.
End DictFacts.

(** ** What an operation leaves alone *)

Lemma kept_refl X st : kept X st st.
Proof. intros o x H. eauto 10. Qed.

Lemma kept_trans X st1 st2 st3 : kept X st1 st2 -> kept X st2 st3 -> kept X st1 st3.
Proof.
  intros H12 H23 o x H.
  destruct (H12 o x H) as (x2 & H2 & Hc & Hs & Hx).
  destruct (H23 o x2 H2) as (x3 & H3 & Hc' & Hs' & Hx').
  exists x3. split_and!; try congruence.
  intros Hn. destruct (Hx Hn), (Hx' Hn). split; congruence.
Qed.

Lemma kept_mono X Y st st' : X ⊆ Y -> kept X st st' -> kept Y st st'.
Proof.
  intros HXY H o x Ho. destruct (H o x Ho) as (x' & ? & ? & ? & Hx).
  exists x'. split_and!; try done. intros Hn. apply Hx. intros Hin. by apply Hn, HXY.
Qed.

Lemma keeps_mono {A} X Y (m : M A) : X ⊆ Y -> keeps X m -> keeps Y m.
Proof. intros HXY H st. eapply kept_mono; eauto. Qed.

Lemma keeps_ret {A} X (a : A) : keeps X (ret a).
Proof. intros st. apply kept_refl. Qed.

Lemma keeps_raise {A} X e : keeps X (@raise A e).
Proof. intros st. apply kept_refl. Qed.

Lemma keeps_lift {A} X (r : outcome A) : keeps X (lift r).
Proof. intros st. apply kept_refl. Qed.

Lemma keeps_read {A} X (f : gmap objid obj -> outcome A) : keeps X (read f).
Proof. intros st. apply kept_refl. Qed.

Lemma keeps_get_obj X o : keeps X (get_obj o).
Proof. apply keeps_read. Qed.

Lemma keeps_emit X n : keeps X (emit n).
Proof. intros st o x H. simpl. eauto 10. Qed.

Lemma keeps_bind {A B} X (m : M A) (f : A -> M B) :
  keeps X m -> (forall a, keeps X (f a)) -> keeps X (bind m f).
Proof.
  intros Hm Hf st. unfold bind. specialize (Hm st).
  destruct (m st) as [[a|e] st1]; simpl in *; [|done].
  eapply kept_trans; [done|]. apply Hf.
Qed.

Lemma keeps_alloc_bind {A} X x (k : objid -> M A) :
  (forall self, keeps (X ∪ {[self]}) (k self)) -> keeps X (bind (alloc x) k).
Proof.
  intros Hk st. unfold bind, alloc.
  set (self := fresh (dom (heap st))).
  set (st1 := mkState _ _).
  intros o y Ho.
  assert (o <> self) as Hne.
  { intros ->. apply (is_fresh (dom (heap st))). apply elem_of_dom. eauto. }
  destruct (Hk self st1 o y) as (x' & ? & ? & ? & Hx).
  { simpl. by rewrite lookup_insert_ne. }
  exists x'. split_and!; try done. intros Hn. apply Hx.
  rewrite elem_of_union, elem_of_singleton. tauto.
Qed.

Lemma keeps_for_each {A} X (f : A -> M unit) l :
  (forall a, keeps X (f a)) -> keeps X (for_each f l).
Proof.
  intros Hf. induction l as [|a l IH]; simpl.
  - apply keeps_ret.
  - apply keeps_bind; auto.
Qed.

Lemma keeps_map_M {A B} X (f : A -> M B) l :
  (forall a, keeps X (f a)) -> keeps X (map_M f l).
Proof.
  intros Hf. induction l as [|a l IH]; simpl.
  - apply keeps_ret.
  - apply keeps_bind; [auto|]. intros y. apply keeps_bind; [auto|].
    intros ys. apply keeps_ret.
Qed.

(** Writing an object back with the same class, shape, store and items. *)
Lemma keeps_set_registry X o (reg : obj -> list (objid * option string)) :
  keeps X (do x <- get_obj o; set_obj o (with_model_objects x (reg x))).
Proof.
  intros st. unfold bind, get_obj, read, lookup_obj.
  destruct (heap st !! o) as [y|] eqn:Hy; simpl; [|apply kept_refl].
  intros o' x' Ho'. simpl. destruct (decide (o' = o)) as [->|Hne].
  - rewrite lookup_insert_eq. rewrite Hy in Ho'. injection Ho' as <-. eauto 10.
  - rewrite lookup_insert_ne by done. eauto 10.
Qed.

Lemma keeps_store obj name v : keeps {[obj]} (store obj name v).
Proof.
  intros st. unfold store, bind, get_obj, read, lookup_obj.
  destruct (heap st !! obj) as [y|] eqn:Hy; simpl; [|apply kept_refl].
  intros o' x' Ho'. simpl. destruct (decide (o' = obj)) as [->|Hne].
  - rewrite lookup_insert_eq. rewrite Hy in Ho'. injection Ho' as <-.
    eexists; split_and!; try done. intros Hn. by destruct Hn; apply elem_of_singleton.
  - rewrite lookup_insert_ne by done. eauto 10.
Qed.

Lemma keeps_set_items self l : keeps {[self]} (set_items self l).
Proof.
  intros st. unfold set_items, bind, get_obj, read, lookup_obj.
  destruct (heap st !! self) as [y|] eqn:Hy; simpl; [|apply kept_refl].
  intros o' x' Ho'. simpl. destruct (decide (o' = self)) as [->|Hne].
  - rewrite lookup_insert_eq. rewrite Hy in Ho'. injection Ho' as <-.
    eexists; split_and!; try done. intros Hn. by destruct Hn; apply elem_of_singleton.
  - rewrite lookup_insert_ne by done. eauto 10.
Qed.

Create HintDb keeps discriminated.
#[export] Hint Resolve keeps_ret keeps_raise keeps_lift keeps_read keeps_get_obj
  keeps_emit : keeps.

Lemma keeps_weaken {A} X (m : M A) : keeps ∅ m -> keeps X m.
Proof. apply keeps_mono. apply empty_subseteq. Qed.

Lemma keeps_weaken_r {A} X o (m : M A) : keeps {[o]} m -> keeps (X ∪ {[o]}) m.
Proof. apply keeps_mono. apply union_subseteq_r. Qed.

Lemma keeps_weaken_l {A} X Y (m : M A) : keeps X m -> keeps (X ∪ Y) m.
Proof. apply keeps_mono. apply union_subseteq_l. Qed.

(** Walks through a monadic body: one rule per construct, a case split on
    every test. *)
Ltac keeps_walk :=
  repeat match goal with
    | |- forall _, _ => intro
    | |- keeps _ (ret _) => apply keeps_ret
    | |- keeps _ (raise _) => apply keeps_raise
    | |- keeps _ (lift _) => apply keeps_lift
    | |- keeps _ (read _) => apply keeps_read
    | |- keeps _ (get_obj _) => apply keeps_get_obj
    | |- keeps _ (emit _) => apply keeps_emit
    | |- keeps _ (bind (alloc _) _) => apply keeps_alloc_bind
    | |- keeps _ (bind _ _) => apply keeps_bind
    | |- keeps _ (for_each _ _) => apply keeps_for_each
    | |- keeps _ (map_M _ _) => apply keeps_map_M
    | |- keeps _ (if ?b then _ else _) => destruct b
    | |- keeps _ (match ?x with _ => _ end) => destruct x
    | |- keeps _ _ => solve [eauto with keeps]
    end.

Section Sound.
Context (E : env).

Lemma keeps_add_model_object X v mo nm : keeps X (add_model_object v mo nm).
Proof.
  unfold add_model_object. destruct v; auto with keeps.
  intros st. unfold bind, get_obj, read, lookup_obj.
  destruct (heap st !! o) as [y|] eqn:Hy; simpl; [|apply kept_refl].
  destruct (o_shape y); simpl; try apply kept_refl.
  all: intros o' x' Ho'; simpl; destruct (decide (o' = o)) as [->|Hne];
    [ rewrite lookup_insert_eq; rewrite Hy in Ho'; injection Ho' as <-; eauto 10
    | rewrite lookup_insert_ne by done; eauto 10 ].
Qed.

Lemma keeps_remove_model_object X v mo : keeps X (remove_model_object v mo).
Proof.
  unfold remove_model_object. destruct v; auto with keeps.
  intros st. unfold bind, get_obj, read, lookup_obj.
  destruct (heap st !! o) as [y|] eqn:Hy; simpl; [|apply kept_refl].
  destruct (o_shape y); simpl; try apply kept_refl.
  all: intros o' x' Ho'; simpl; destruct (decide (o' = o)) as [->|Hne];
    [ rewrite lookup_insert_eq; rewrite Hy in Ho'; injection Ho' as <-; eauto 10
    | rewrite lookup_insert_ne by done; eauto 10 ].
Qed.

Lemma keeps_policy X p name obj : keeps X (raise_if_immutable_or_readonly p name obj).
Proof. unfold raise_if_immutable_or_readonly. keeps_walk. Qed.

Hint Resolve keeps_add_model_object keeps_remove_model_object keeps_policy : keeps.

Section Step.
Variable r : calls.
Hypothesis Hr : sound r.

Let Hmod := proj1 Hr.
Let Hdes := proj1 (proj2 Hr).
Let Hset := proj2 (proj2 Hr).

Lemma keeps_c_set_modified X o nm c v : keeps X (c_set_modified r o nm c v).
Proof. apply keeps_weaken, Hmod. Qed.

Lemma keeps_c_deserialize X a v vl : keeps X (c_deserialize r a v vl).
Proof. apply keeps_weaken, Hdes. Qed.

Hint Resolve keeps_c_set_modified keeps_c_deserialize : keeps.

Lemma keeps_set_modified_body X o nm c v : keeps X (set_modified_body E r o nm c v).
Proof. unfold set_modified_body. keeps_walk. Qed.

Lemma keeps_changed_from X obj name v : keeps X (changed_from r obj name v).
Proof. unfold changed_from. keeps_walk. Qed.

Hint Resolve keeps_set_modified_body keeps_changed_from : keeps.

Lemma keeps_MappingAttribute_init X cls validate kwargs :
  keeps X (MappingAttribute_init E r cls validate kwargs).
Proof.
  unfold MappingAttribute_init. keeps_walk.
  all: apply keeps_weaken_r, Hset.
Qed.

Hint Resolve keeps_MappingAttribute_init : keeps.

Lemma keeps_instantiate_item X self item v validate add_model :
  keeps X (instantiate_item E r self item v validate add_model).
Proof. unfold instantiate_item. keeps_walk. Qed.

Hint Resolve keeps_instantiate_item : keeps.

Lemma keeps_ListAttribute_init X item p validate items :
  keeps X (ListAttribute_init E r item p validate items).
Proof.
  unfold ListAttribute_init. keeps_walk.
  apply keeps_weaken_r, keeps_set_items.
Qed.

Hint Resolve keeps_ListAttribute_init : keeps.

Lemma keeps_deserialize_body X a v vl : keeps X (deserialize_body E r a v vl).
Proof.
  unfold deserialize_body, MappingAttribute_deserialize, ListAttribute_deserialize.
  keeps_walk.
Qed.

Lemma keeps_set_body a obj v vl : keeps {[obj]} (set_body E r a obj v vl).
Proof.
  unfold set_body, Attribute_set, CatalogObjectReference_set, Container_set.
  keeps_walk.
  all: apply keeps_store.
Qed.

Lemma sound_step : sound (step E r).
Proof.
  split_and!; simpl; intros.
  - apply keeps_set_modified_body.
  - apply keeps_deserialize_body.
  - apply keeps_set_body.
Qed.
End Step.

Lemma sound_bottom : sound bottom.
Proof. split_and!; simpl; intros; apply keeps_raise. Qed.

Lemma sound_calls_at depth : sound (calls_at E depth).
Proof. induction depth; simpl; [apply sound_bottom | by apply sound_step]. Qed.
End Sound.

Lemma length_append (s t : string) :
  String.length (s ++ t) = (String.length s + String.length t)%nat.
Proof. induction s; simpl; [done | by rewrite IHs]. Qed.

Lemma length_substring (n m : nat) (s : string) :
  (n + m <= String.length s)%nat -> String.length (substring n m s) = m.
Proof.
  revert n m. induction s as [|c s IH]; intros n m H; simpl in *.
  - destruct n, m; simpl; lia.
  - destruct n; [destruct m|]; simpl; [done| |].
    + rewrite IH; [done | simpl; lia].
    + apply IH. lia.
Qed.

Lemma parse_iso_datetime_truncates (s : string) :
  parse_iso_datetime s
  = parse_iso_datetime
      (if (27 <? String.length s)%nat
       then (substring 0 26 s ++ last_char s)%string else s).
Proof.
  destruct (27 <? String.length s)%nat eqn:Hlen; [|done].
  apply Nat.ltb_lt in Hlen.
  unfold parse_iso_datetime at 2.
  assert (String.length (substring 0 26 s ++ last_char s) = 27%nat) as ->.
  { rewrite length_append. unfold last_char.
    rewrite !length_substring; lia. }
  change (27 <? 27)%nat with false. cbv iota.
  unfold parse_iso_datetime. apply Nat.ltb_lt in Hlen. by rewrite Hlen.
Qed.

Lemma parse_iso_datetime_aware (s : string) :
  match parse_iso_datetime s with
  | Ok d => tzinfo d = Some utc
  | Raise _ => True
  end.
Proof.
  unfold parse_iso_datetime.
  set (s' := if (27 <? String.length s)%nat then _ else _).
  destruct (strptime s' "%Y-%m-%dT%H:%M:%S.%fZ") as [d|[]]; simpl; try done.
  destruct (strptime s' "%Y-%m-%dT%H:%M:%SZ"); done.
Qed.



(** ** The policy check *)

Lemma policy_permits p name obj x st :
  heap st !! obj = Some x ->
  raise_if_immutable_or_readonly p name (Some obj) st
  = (verdict (permits p (dict_has (o_attributes x) name) true), st).
Proof.
  intros Hx. unfold raise_if_immutable_or_readonly, permits.
  destruct (p_readonly p), (p_mutable p); simpl; try done.
  unfold bind, get_obj, read, lookup_obj. rewrite Hx. simpl.
  by destruct (dict_has _ _).
Qed.

Lemma guarded_policy p name obj x (validate : bool) st :
  heap st !! obj = Some x ->
  (if validate then raise_if_immutable_or_readonly p name (Some obj) else ret tt) st
  = (verdict (permits p (dict_has (o_attributes x) name) validate), st).
Proof.
  intros Hx. destruct validate; [by apply policy_permits|].
  unfold permits. done.
Qed.

(** Whatever the class of the descriptor, [__set__] starts with the policy
    check: once a value is stored under an immutable attribute, a validating
    set raises before the new value is looked at. *)
Lemma immutable_set_raises E depth a obj v x st :
  heap st !! obj = Some x ->
  a_readonly a = true \/
  (a_mutable a = false /\ dict_has (o_attributes x) (a_name a) = true) ->
  c_set (calls_at E (S depth)) a obj v true st = (Raise AttributeValidationError, st).
Proof.
  intros Hx Hp.
  assert (raise_if_immutable_or_readonly (a_params a) (a_name a) (Some obj) st
          = (Raise AttributeValidationError, st)) as Hraise.
  { rewrite (policy_permits _ _ _ x) by done. unfold permits.
    unfold a_readonly, a_mutable in Hp.
    destruct Hp as [->|[-> ->]]; simpl; [done|]. by destruct (p_readonly _). }
  simpl. unfold set_body.
  destruct (a_kind a); unfold Attribute_set, CatalogObjectReference_set, Container_set;
    by rewrite (bind_raise _ _ _ _ _ Hraise).
Qed.

Lemma immutable_set_raises_witness :
  let st := mkState (heap_of [(1%positive, catalog_object "FakeCatalogObject" [])]) [] in
  c_set (calls_at permissive 1) created_attr 1%positive (VStr "2019-01-01T00:00:00Z") true st
  = (Raise AttributeValidationError, st).
Proof.
  intros st.
  apply (immutable_set_raises permissive 0 created_attr 1%positive _
           (catalog_object "FakeCatalogObject" [])).
  - by vm_compute.
  - left. reflexivity.
Defined.

(** C4 (code defect).  [name] is declared with [mutable=False]; the owner
    already holds ["x"] under it.  Setting ["x"] again raises, as setting
    ["y"] does, and the store is as it was. *)
Theorem C4_immutable_set_same_value_raises :
  let owner := 1%positive in
  let st := mkState (heap_of [(owner, catalog_object "FakeCatalogObject"
                                        [("name", VStr "x")])]) [] in
  a_mutable name_attr = false /\ a_readonly name_attr = false /\
  c_set (calls_at permissive 3) name_attr owner (VStr "x") true st
    = (Raise AttributeValidationError, st) /\
  c_set (calls_at permissive 3) name_attr owner (VStr "y") true st
    = (Raise AttributeValidationError, st).
Proof. by vm_compute. Qed.

(** C5 (code defect).  [files] is an empty list of [File]s held by a catalog
    object; [f] is a [File] that is in no list.  Asking whether [f] is in the
    list answers no and registers the list as an owner of [f]; so does
    [index], which then raises [ValueError].  [count] leaves the registry
    alone. *)
Theorem C5_membership_test_registers_owner :
  let owner := 1%positive in
  let files := 2%positive in
  let f := 3%positive in
  let st := mkState (heap_of
              [(owner, catalog_object "FakeCatalogObject" [("files", VObj files)]);
               (files, list_of (KMapping "File") [] [(owner, Some "files")]);
               (f, mapping "File" [("href", VStr "gs://a")] [])]) [] in
  let r := calls_at permissive 3 in
  let registry (s : state) := o_model_objects <$> heap s !! f in
  let items (s : state) := o_items <$> heap s !! files in
  registry st = Some [] /\
  (contains permissive r files (VObj f) st).1 = Ok false /\
  items (contains permissive r files (VObj f) st).2 = Some [] /\
  registry (contains permissive r files (VObj f) st).2 = Some [(files, None)] /\
  (index permissive r files (VObj f) st).1 = Raise ValueError /\
  registry (index permissive r files (VObj f) st).2 = Some [(files, None)] /\
  (count permissive r files (VObj f) st).1 = Ok 0%nat /\
  registry (count permissive r files (VObj f) st).2 = Some [].
Proof. by vm_compute. Qed.

(** ** Operations that tell no owner *)

Lemma silent_ret {A} (a : A) : silent (ret a).
Proof. done. Qed.
Lemma silent_raise {A} e : silent (@raise A e).
Proof. done. Qed.
Lemma silent_read {A} (f : gmap objid obj -> outcome A) : silent (read f).
Proof. done. Qed.
Lemma silent_set_obj o x : silent (set_obj o x).
Proof. done. Qed.
Lemma silent_bind {A B} (m : M A) (f : A -> M B) :
  silent m -> (forall a, silent (f a)) -> silent (bind m f).
Proof.
  intros Hm Hf st. unfold bind. specialize (Hm st).
  destruct (m st) as [[a|e] st1]; simpl in *; [|done].
  by rewrite Hf.
Qed.

Ltac silent_walk :=
  repeat match goal with
    | |- forall _, _ => intro
    | |- silent (ret _) => apply silent_ret
    | |- silent (raise _) => apply silent_raise
    | |- silent (read _) => apply silent_read
    | |- silent (get_obj _) => apply silent_read
    | |- silent (set_obj _ _) => apply silent_set_obj
    | |- silent (bind _ _) => apply silent_bind
    | |- silent (if ?b then _ else _) => destruct b
    | |- silent (match ?x with _ => _ end) => destruct x
    end.

Lemma silent_policy p name obj : silent (raise_if_immutable_or_readonly p name obj).
Proof. unfold raise_if_immutable_or_readonly. silent_walk. Qed.

Lemma silent_unstore obj name : silent (unstore obj name).
Proof. unfold unstore. silent_walk. Qed.

Lemma silent_remove_model_object v mo : silent (remove_model_object v mo).
Proof. unfold remove_model_object. silent_walk. Qed.

Lemma silent_Attribute_delete a obj validate : silent (Attribute_delete a obj validate).
Proof.
  unfold Attribute_delete. silent_walk;
    auto using silent_policy, silent_unstore.
Qed.

Lemma silent_Container_delete a obj validate : silent (Container_delete a obj validate).
Proof.
  unfold Container_delete. silent_walk;
    auto using silent_policy, silent_unstore, silent_remove_model_object.
Qed.

Lemma with_store_same st (o : objid) x :
  heap st !! o = Some x -> with_store st o x (o_attributes x) = st.
Proof.
  intros Hx. unfold with_store. destruct st as [h l]; simpl in *. f_equal.
  destruct x. by apply insert_id.
Qed.

Lemma unstore_run (o : objid) name x st :
  heap st !! o = Some x ->
  unstore o name st
  = (Ok (default VNone (dict_get (o_attributes x) name)),
     with_store st o x (dict_pop (o_attributes x) name)).
Proof.
  intros Hx. unfold unstore, bind, get_obj, read, lookup_obj. by rewrite Hx.
Qed.

Lemma dict_has_false {V} (d : list (string * V)) k :
  dict_has d k = false -> dict_get d k = None.
Proof. unfold dict_has. by destruct (dict_get d k). Qed.

(** C10 (as amended).  Neither [__delete__] calls the owner's callback; the
    log is the same in every case.  When the policy check lets the delete
    through (no validation, or an attribute that is not readonly and is
    mutable or not yet set), [Attribute.__delete__] returns and the owner's
    store is the old one without the name, and so is the store that
    [MappingAttribute.__delete__] leaves; with nothing stored both return and
    the state is the one before.  When the check refuses, as it does for a
    readonly attribute even with nothing stored, both raise
    [AttributeValidationError] and change nothing. *)
Theorem C10_delete (a : attribute) (o : objid) (validate : bool) (st : state) (x : obj) :
  heap st !! o = Some x ->
  let d := o_attributes x in
  log (Attribute_delete a o validate st).2 = log st /\
  log (Container_delete a o validate st).2 = log st /\
  if permits (a_params a) (dict_has d (a_name a)) validate then
    Attribute_delete a o validate st
      = (Ok tt, with_store st o x (dict_pop d (a_name a))) /\
    (exists x', heap (Container_delete a o validate st).2 !! o = Some x' /\
                o_attributes x' = dict_pop d (a_name a)) /\
    (dict_has d (a_name a) = false ->
       Attribute_delete a o validate st = (Ok tt, st) /\
       Container_delete a o validate st = (Ok tt, st))
  else
    Attribute_delete a o validate st = (Raise AttributeValidationError, st) /\
    Container_delete a o validate st = (Raise AttributeValidationError, st).
Proof.
  intros Hx d.
  split; [apply silent_Attribute_delete|].
  split; [apply silent_Container_delete|].
  pose proof (guarded_policy (a_params a) (a_name a) o x validate st Hx) as Hp.
  fold d in Hp.
  destruct (permits _ _ _); simpl in Hp.
  - assert (Attribute_delete a o validate st
            = (Ok tt, with_store st o x (dict_pop d (a_name a)))) as Hdel.
    { unfold Attribute_delete. rewrite (bind_ok _ _ _ _ _ Hp).
      by rewrite (bind_ok _ _ _ _ _ (unstore_run _ _ _ _ Hx)). }
    set (previous := default VNone (dict_get d (a_name a))).
    assert (Container_delete a o validate st
            = (match previous with
               | VNone => ret tt
               | _ => remove_model_object previous o
               end) (with_store st o x (dict_pop d (a_name a)))) as Hcon.
    { unfold Container_delete. rewrite (bind_ok _ _ _ _ _ Hp).
      rewrite (bind_ok _ _ _ _ _ (unstore_run _ _ _ _ Hx)). reflexivity. }
    split_and!; [done| |].
    + rewrite Hcon.
      set (st1 := with_store _ _ _ _).
      assert (kept ∅ st1
                ((match previous with
                  | VNone => ret tt
                  | _ => remove_model_object previous o
                  end) st1).2) as Hk.
      { destruct previous; try apply kept_refl; apply keeps_remove_model_object. }
      destruct (Hk o (with_attributes x (dict_pop d (a_name a)))) as (x' & ? & _ & _ & Hs).
      { unfold st1, with_store. simpl. by rewrite lookup_insert_eq. }
      exists x'. split; [done|]. by destruct (Hs (not_elem_of_empty _)).
    + intros Hno. apply dict_has_false in Hno.
      rewrite Hdel, Hcon. unfold previous. rewrite Hno, (dict_pop_absent _ _ Hno). simpl.
      by rewrite with_store_same.
  - unfold Attribute_delete, Container_delete.
    by rewrite !(bind_raise _ _ _ _ _ Hp).
Qed.

(** C10 at a mutable attribute that holds nothing: both deletes return and
    nothing changes. *)
Lemma C10_delete_witness :
  let owner := 1%positive in
  let x := catalog_object "FakeCatalogObject" [] in
  let st := mkState (heap_of [(owner, x)]) [] in
  Attribute_delete map_attr owner true st = (Ok tt, st) /\
  Container_delete map_attr owner true st = (Ok tt, st).
Proof.
  intros owner x st.
  pose proof (C10_delete map_attr owner true st x eq_refl) as (_ & _ & H).
  simpl in H. destruct H as (_ & _ & H). by apply H.
Defined.

(** C10, as stated, fails: [created] is readonly and holds nothing, and
    deleting it raises. *)
Lemma C10_counterexample :
  let owner := 1%positive in
  let st := mkState (heap_of [(owner, catalog_object "FakeCatalogObject" [])]) [] in
  a_readonly created_attr = true /\
  Attribute_delete created_attr owner true st = (Raise AttributeValidationError, st).
Proof. by vm_compute. Qed.

(** ** Equality of objects that carry a schema *)

Lemma fields_eq_true r h types mine theirs :
  fields_eq r h types mine theirs = Ok true <->
  Forall (serializes_alike r h mine theirs) types.
Proof.
  induction types as [|t types IH]; simpl.
  - split; [constructor | done].
  - destruct (a_serializable t) eqn:Hser; simpl.
    + destruct (c_serialize r h t (default VNone (dict_get mine (a_name t))))
        as [s1|e1] eqn:H1; simpl.
      2: { split; [done|]. intros H. inversion H as [|? ? Ht _]; subst.
           destruct (Ht Hser) as (? & ? & ? & _). congruence. }
      destruct (c_serialize r h t (default VNone (dict_get theirs (a_name t))))
        as [s2|e2] eqn:H2; simpl.
      2: { split; [done|]. intros H. inversion H as [|? ? Ht _]; subst.
           destruct (Ht Hser) as (? & ? & ? & ? & _). congruence. }
      destruct (c_eq r h s1 s2) as [[]|e3] eqn:H3; simpl.
      * rewrite IH. split.
        -- intros H. constructor; [|done]. intros _. eauto.
        -- intros H. by inversion H.
      * split; [done|]. intros H. inversion H as [|? ? Ht _]; subst.
        destruct (Ht Hser) as (? & ? & ? & ? & ?). congruence.
      * split; [done|]. intros H. inversion H as [|? ? Ht _]; subst.
        destruct (Ht Hser) as (? & ? & ? & ? & ?). congruence.
    + rewrite IH. split.
      * intros H. constructor; [|done]. intros ?. congruence.
      * intros H. by inversion H.
Qed.

Lemma issubclass_refl E c : issubclass E c c = true.
Proof. unfold issubclass. by rewrite bool_decide_eq_true_2. Qed.

Lemma method_eq_record E r h a x w :
  h !! a = Some x -> is_record x = true ->
  method_eq E r h a w = AttributeEqualityMixin_eq E r h x w.
Proof.
  intros Ha Hx. unfold method_eq, lookup_obj. rewrite Ha. simpl.
  unfold is_record in Hx. by destruct (o_shape x).
Qed.

(** C9.  Two objects that carry a schema (mappings or catalog objects), of
    classes that are not each other's subclass unless they are the same
    class, compare equal with [==] exactly when they have the same class and
    every serializable attribute of that class serializes to equal values on
    both; the objects' identities and their other attributes play no part.
    Objects of different classes compare unequal. *)
Theorem C9_equality (E : env) (depth : nat) (h : gmap objid obj) (a b : objid)
        (x y : obj) :
  h !! a = Some x -> h !! b = Some y ->
  is_record x = true -> is_record y = true ->
  (o_cls x <> o_cls y ->
   issubclass E (o_cls x) (o_cls y) && issubclass E (o_cls y) (o_cls x) = false) ->
  let r := calls_at E depth in
  (c_eq (calls_at E (S depth)) h (VObj a) (VObj b) = Ok true <->
   o_cls x = o_cls y /\
   Forall (serializes_alike r h (o_attributes x) (o_attributes y))
          (schema E (o_cls x))) /\
  (o_cls x <> o_cls y ->
   c_eq (calls_at E (S depth)) h (VObj a) (VObj b) = Ok false).
Proof.
  intros Ha Hb Hx Hy Hacyclic r.
  assert (c_eq (calls_at E (S depth)) h (VObj a) (VObj b)
          = if bool_decide (o_cls x = o_cls y)
            then fields_eq r h (schema E (o_cls x)) (o_attributes x) (o_attributes y)
            else Ok false) as ->.
  { simpl. unfold lookup_obj. rewrite Ha, Hb. simpl. fold r.
    case_bool_decide as Hcls; simpl.
    - rewrite (method_eq_record _ _ _ _ x) by done. simpl.
      unfold lookup_obj. rewrite Hb. simpl.
      by rewrite <- Hcls, issubclass_refl.
    - specialize (Hacyclic Hcls).
      destruct (issubclass E (o_cls y) (o_cls x)) eqn:Hyx.
      + rewrite (method_eq_record _ _ _ _ y) by done. simpl.
        unfold lookup_obj. rewrite Ha. simpl.
        rewrite andb_true_r in Hacyclic. by rewrite Hacyclic.
      + rewrite (method_eq_record _ _ _ _ x) by done. simpl.
        unfold lookup_obj. rewrite Hb. simpl. by rewrite Hyx. }
  split.
  - case_bool_decide as Hcls.
    + rewrite fields_eq_true. split; [by intros H | by intros [_ H]].
    + split; [done | by intros [Hc _]].
  - intros Hcls. by rewrite bool_decide_eq_false_2.
Qed.

(** C9 at two distinct [MyMapping] objects that both hold ["bar"]: equal. *)
Lemma C9_equality_witness :
  c_eq (calls_at permissive 3) twins (VObj 1%positive) (VObj 2%positive) = Ok true.
Proof.
  pose proof (C9_equality permissive 2 twins 1%positive 2%positive
                (mapping "MyMapping" [("foo", VStr "bar")] [])
                (mapping "MyMapping" [("foo", VStr "bar")] [(7%positive, Some "map_attr")])
                eq_refl eq_refl eq_refl eq_refl) as H.
  destruct H as [[_ H] _].
  - intros Hne. by destruct Hne.
  - apply H. split; [done|].
    repeat constructor. intros _. exists (VStr "bar"), (VStr "bar"). by vm_compute.
Defined.

(** The method alone accepts an instance of a subclass; the operator asks
    the subclass instance first, which refuses. *)
Lemma subclass_instance_is_not_equal :
  AttributeEqualityMixin_eq permissive (calls_at permissive 2) relatives
    (mapping "MyMapping" [("foo", VStr "bar")] []) (VObj 2%positive) = Ok true /\
  c_eq (calls_at permissive 3) relatives (VObj 1%positive) (VObj 2%positive) = Ok false /\
  c_eq (calls_at permissive 3) relatives (VObj 2%positive) (VObj 1%positive) = Ok false.
Proof. by vm_compute. Qed.

(** ** Notices to the owners *)

Lemma catalog_set_modified E depth o nm changed validate st :
  is_catalog (heap st) o = true ->
  veto E o nm changed validate = false ->
  c_set_modified (calls_at E (S depth)) o nm changed validate st
  = (Ok tt, mkState (heap st) (log st ++ [mkNotice o nm changed validate])).
Proof.
  intros Hc Hv. simpl. unfold set_modified_body, bind, get_obj, read, lookup_obj.
  unfold is_catalog in Hc. destruct (heap st !! o) as [x|]; [|done]. simpl.
  destruct (o_shape x); try done. by rewrite Hv.
Qed.

Lemma fan_out E depth owners changed validate st :
  Forall (accepts E (heap st) changed validate) owners ->
  for_each (fun owner => c_set_modified (calls_at E (S depth)) owner.1 owner.2
                                        changed validate) owners st
  = (Ok tt, mkState (heap st) (log st ++ map (notice_for changed validate) owners)).
Proof.
  revert st. induction owners as [|owner owners IH]; intros st Hall.
  - simpl. rewrite app_nil_r. by destruct st.
  - inversion Hall as [|? ? [Hc Hv] Hrest]; subst.
    cbn [for_each]. rewrite (bind_ok _ _ _ _ _ (catalog_set_modified _ _ _ _ _ _ _ Hc Hv)).
    rewrite IH by done. simpl. by rewrite <- app_assoc.
Qed.

Lemma container_set_modified E depth m x nm changed validate st :
  heap st !! m = Some x ->
  is_catalog (heap st) m = false ->
  Forall (accepts E (heap st) changed validate) (o_model_objects x) ->
  c_set_modified (calls_at E (S (S depth))) m nm changed validate st
  = (Ok tt, mkState (heap st)
                    (log st ++ map (notice_for changed validate) (o_model_objects x))).
Proof.
  intros Hm Hshape Hall.
  change (c_set_modified (calls_at E (S (S depth))))
    with (set_modified_body E (calls_at E (S depth))).
  unfold set_modified_body. unfold bind at 1, get_obj, read, lookup_obj.
  unfold is_catalog in Hshape. rewrite Hm in *. simpl.
  destruct (o_shape x); try done; by apply fan_out.
Qed.

Lemma silent_store o name v : silent (store o name v).
Proof. unfold store. silent_walk. Qed.

Lemma silent_add_model_object v mo nm : silent (add_model_object v mo nm).
Proof. unfold add_model_object. silent_walk. Qed.

Lemma get_obj_run o x st : heap st !! o = Some x -> get_obj o st = (Ok x, st).
Proof. intros H. unfold get_obj, read, lookup_obj. by rewrite H. Qed.



(** Setting [foo] to the value it has tells both owners that nothing
    changed. *)
Lemma equal_value_notifies_unchanged :
  log (c_set (calls_at permissive 3) foo_attr 3%positive (VStr "bar") true shared).2
  = [mkNotice 1%positive (Some "map_attr") false true;
     mkNotice 2%positive (Some "other_attr") false true].
Proof. by vm_compute. Qed.


(** ** References *)

Lemma store_run (o : objid) name v x st :
  heap st !! o = Some x ->
  store o name v st = (Ok tt, with_store st o x (dict_set (o_attributes x) name v)).
Proof. intros Hx. unfold store, bind, get_obj, read, lookup_obj. by rewrite Hx. Qed.

Lemma reference_set_refused E r a cls allow (o : objid) x v (validate : bool) st :
  heap st !! o = Some x ->
  refused E (heap st) cls allow v = true ->
  CatalogObjectReference_set E r a cls allow o v validate st
  = (Raise AttributeValidationError, st).
Proof.
  intros Hx Href. unfold CatalogObjectReference_set.
  pose proof (guarded_policy (a_params a) (a_name a) o x validate st Hx) as Hp.
  destruct (permits _ _ _); simpl in Hp;
    [rewrite (bind_ok _ _ _ _ _ Hp) | by rewrite (bind_raise _ _ _ _ _ Hp)].
  apply bind_raise.
  unfold refused in Href.
  destruct v; try done; unfold bind, read; simpl in *;
    try (destruct (heap st !! o0) as [y|] eqn:Hy; simpl in *; [|done]);
    try done.
  destruct (issubclass E (o_cls y) cls); simpl in *; [|done].
  destruct allow; simpl in *; [done|].
  unfold state_of, lookup_obj. rewrite Hy. simpl.
  destruct (o_shape y) as [i []| |]; done.
Qed.

Lemma reference_set_accepted E depth a cls allow (o : objid) x v (validate changed : bool) st :
  let r := calls_at E (S depth) in
  let name := a_name a in
  heap st !! o = Some x ->
  is_catalog (heap st) o = true ->
  acceptable E (heap st) cls allow v = true ->
  permits (a_params a) (dict_has (o_attributes x) name) validate = true ->
  changed_from r o name v st = (Ok changed, st) ->
  veto E o (Some name) changed validate = false ->
  veto E o (Some (id_field name)) changed false = false ->
  CatalogObjectReference_set E r a cls allow o v validate st
  = (Ok tt,
     mkState (<[o := with_attributes x
                       (dict_set (dict_set (o_attributes x) name v)
                                 (id_field name) (id_or_none (heap st) v))]> (heap st))
             (log st ++ [mkNotice o (Some name) changed validate;
                         mkNotice o (Some (id_field name)) changed false])).
Proof.
  intros r name Hx Hcat Hacc Hadm Hch Hv1 Hv2. unfold CatalogObjectReference_set.
  pose proof (guarded_policy (a_params a) name o x validate st Hx) as Hp.
  rewrite Hadm in Hp. simpl in Hp. fold name. rewrite (bind_ok _ _ _ _ _ Hp).
  (* the instance and state checks pass *)
  match goal with |- bind ?chk _ _ = _ => assert (chk st = (Ok tt, st)) as Hchk end.
  { unfold acceptable, refused, is_catalog in Hacc.
    destruct v; try done. unfold bind, read. simpl in *.
    destruct (heap st !! o0) as [y|] eqn:Hy; [|done]. simpl in *.
    destruct (issubclass E (o_cls y) cls); simpl in *; [|by rewrite andb_false_r in Hacc].
    destruct allow; simpl in *; [done|].
    unfold state_of, lookup_obj. rewrite Hy. simpl.
    destruct (o_shape y) as [i []| |]; done. }
  rewrite (bind_ok _ _ _ _ _ Hchk), (bind_ok _ _ _ _ _ Hch).
  rewrite (bind_ok _ _ _ _ _ (catalog_set_modified E depth o _ _ _ st Hcat Hv1)).
  set (st_a := mkState (heap st) _).
  rewrite (bind_ok _ _ _ _ _ (store_run o name v x st_a Hx)).
  pose (x1 := with_attributes x (dict_set (o_attributes x) name v)).
  set (st_b := with_store st_a o x _).
  assert (heap st_b !! o = Some x1) as Hx1 by (simpl; apply lookup_insert_eq).
  assert (is_catalog (heap st_b) o = true) as Hcat1.
  { unfold is_catalog in *. rewrite Hx1. rewrite Hx in Hcat. done. }
  rewrite (bind_ok _ _ _ _ _ (catalog_set_modified E depth o _ _ _ st_b Hcat1 Hv2)).
  set (st_c := mkState (heap st_b) _).
  assert (heap st_c !! o = Some x1) as Hx1c by done.
  match goal with |- bind (read ?f) _ _ = _ =>
    assert (f (heap st_c) = Ok (id_or_none (heap st) v)) as Hid end.
  { unfold acceptable, is_catalog in Hacc. destruct v; try done. simpl in *.
    unfold lookup_obj. destruct (decide (o0 = o)) as [->|Hne].
    - rewrite lookup_insert_eq. rewrite Hx in *. simpl. unfold id_of. simpl.
      by destruct (o_shape x).
    - rewrite lookup_insert_ne by done.
      destruct (heap st !! o0) as [y|]; [|done]. simpl. unfold id_of.
      by destruct (o_shape y). }
  unfold bind at 1, read. rewrite Hid.
  rewrite (store_run o _ _ x1 st_c Hx1c).
  unfold with_store, st_c, st_b, st_a, with_store, x1. simpl.
  rewrite insert_insert_eq, <- app_assoc. done.
Qed.

(** C7 (as amended).  [CatalogObjectReference.__set__] on an owner that
    exists.  A value that is not null and is not an instance of the reference
    class, or is in state [UNSAVED] while unsaved references are not allowed,
    is refused with [AttributeValidationError] and nothing changes, with or
    without validation.  Null or an accepted catalog object is committed,
    provided the reference attribute's own policy check lets the set through
    and the owner's callback accepts both notices: the value is stored under
    the name and, in the same call, the value's id (null for null) under
    [<name>_id].  The shadow field's own flags are not looked at, and its
    notice is sent with [validate] false. *)
Theorem C7_reference_set
        (E : env) (depth : nat) (a : attribute) (cls : classid) (allow : bool)
        (o : objid) (x : obj) (v : value) (validate changed : bool) (st : state) :
  let r := calls_at E (S depth) in
  let name := a_name a in
  a_kind a = KReference cls allow ->
  heap st !! o = Some x ->
  (refused E (heap st) cls allow v = true ->
   c_set (calls_at E (S (S depth))) a o v validate st
   = (Raise AttributeValidationError, st)) /\
  (acceptable E (heap st) cls allow v = true ->
   is_catalog (heap st) o = true ->
   permits (a_params a) (dict_has (o_attributes x) name) validate = true ->
   changed_from r o name v st = (Ok changed, st) ->
   veto E o (Some name) changed validate = false ->
   veto E o (Some (id_field name)) changed false = false ->
   c_set (calls_at E (S (S depth))) a o v validate st
   = (Ok tt,
      mkState (<[o := with_attributes x
                        (dict_set (dict_set (o_attributes x) name v)
                                  (id_field name) (id_or_none (heap st) v))]> (heap st))
              (log st ++ [mkNotice o (Some name) changed validate;
                          mkNotice o (Some (id_field name)) changed false]))).
Proof.
  intros r name Hk Hx.
  change (c_set (calls_at E (S (S depth)))) with (set_body E r).
  unfold set_body. rewrite Hk. split.
  - by apply (reference_set_refused E r a cls allow o x).
  - intros. by apply reference_set_accepted.
Qed.

(** C7 at a saved [Product]: the reference and its id are stored together,
    although [product_id] is declared immutable. *)
Lemma C7_reference_set_witness :
  c_set (calls_at permissive 2) product_attr 1%positive (VObj 2%positive) true referring
  = (Ok tt,
     mkState (heap_of
       [(1%positive, catalog_object "FakeCatalogObject"
                       [("product", VObj 2%positive); ("product_id", VStr "p1")]);
        (2%positive, product "p1")])
       [mkNotice 1%positive (Some "product") true true;
        mkNotice 1%positive (Some "product_id") true false]).
Proof.
  refine (proj2 (C7_reference_set permissive 0 product_attr "Product" false
                   1%positive (catalog_object "FakeCatalogObject" []) (VObj 2%positive)
                   true true referring eq_refl eq_refl) _ _ _ _ _ _);
    by vm_compute.
Defined.

(** C7, as stated, fails for a reference that is declared readonly: a saved
    instance of the reference class is refused by the attribute's own policy
    check and nothing is stored. *)
Lemma C7_counterexample :
  a_readonly parent_attr = true /\
  refused permissive (heap referring) "Product" false (VObj 2%positive) = false /\
  c_set (calls_at permissive 2) parent_attr 1%positive (VObj 2%positive) true referring
  = (Raise AttributeValidationError, referring).
Proof. by vm_compute. Qed.

(** ** What a failed operation leaves behind *)

Lemma fails_clean_keeps {A} (m : M A) : keeps ∅ m -> fails_clean m.
Proof. intros H st e st' Hm. specialize (H st). by rewrite Hm in H. Qed.

Lemma fails_clean_bind {A B} (m : M A) (f : A -> M B) :
  keeps ∅ m -> (forall a, fails_clean (f a)) -> fails_clean (bind m f).
Proof.
  intros Hm Hf st e st' H.
  apply bind_inv_raise in H as [H|(a & st1 & H1 & H2)].
  - by apply (fails_clean_keeps m Hm st e).
  - eapply kept_trans; [|by eapply Hf]. specialize (Hm st). by rewrite H1 in Hm.
Qed.

Lemma fails_clean_then {A B} (m : M A) (f : A -> M B) :
  fails_clean m -> (forall a, never_raises (f a)) -> fails_clean (bind m f).
Proof.
  intros Hm Hf st e st' H.
  apply bind_inv_raise in H as [H|(a & st1 & H1 & H2)].
  - by eapply Hm.
  - destruct (Hf a st1) as (b & st2 & Hb). congruence.
Qed.

Lemma never_raises_ret {A} (a : A) : never_raises (ret a).
Proof. intros st. by exists a, st. Qed.

Lemma never_raises_bind {A B} (m : M A) (f : A -> M B) :
  never_raises m -> (forall a, never_raises (f a)) -> never_raises (bind m f).
Proof.
  intros Hm Hf st. destruct (Hm st) as (a & st1 & H1).
  destruct (Hf a st1) as (b & st2 & H2). exists b, st2.
  by rewrite (bind_ok _ _ _ _ _ H1).
Qed.

Lemma fails_clean_store (o : objid) name v : fails_clean (store o name v).
Proof.
  intros st e st'. unfold store, bind, get_obj, read, lookup_obj.
  destruct (heap st !! o); simpl; [done|]. intros [= _ <-]. apply kept_refl.
Qed.

Lemma fails_clean_set_items (o : objid) l : fails_clean (set_items o l).
Proof.
  intros st e st'. unfold set_items, bind, get_obj, read, lookup_obj.
  destruct (heap st !! o); simpl; [done|]. intros [= _ <-]. apply kept_refl.
Qed.

Lemma never_raises_release self val : never_raises (release self val).
Proof.
  intros st. unfold release, bind, read. simpl.
  destruct (is_mapping (heap st) val) eqn:Hm; [|by eexists _, _].
  unfold is_mapping in Hm. destruct val; try done.
  unfold remove_model_object, bind, get_obj, read, lookup_obj.
  destruct (heap st !! o) as [y|]; [|done]. simpl.
  destruct (o_shape y); try done. by eexists _, _.
Qed.

Section Failures.
Context (E : env) (depth : nat).
Let r := calls_at E depth.
Let Hr : sound r := sound_calls_at E depth.

Local Hint Resolve keeps_policy keeps_add_model_object keeps_remove_model_object : keeps.
Local Hint Extern 1 (keeps _ (c_set_modified r _ _ _ _)) =>
  apply (keeps_c_set_modified r Hr) : keeps.
Local Hint Extern 1 (keeps _ (c_deserialize r _ _ _)) =>
  apply (keeps_c_deserialize r Hr) : keeps.
Local Hint Extern 1 (keeps _ (set_modified_body E r _ _ _ _)) =>
  apply (keeps_set_modified_body E r Hr) : keeps.
Local Hint Extern 1 (keeps _ (changed_from r _ _ _)) =>
  apply (keeps_changed_from r) : keeps.
Local Hint Extern 1 (keeps _ (instantiate_item E r _ _ _ _ _)) =>
  apply (keeps_instantiate_item E r Hr) : keeps.

Lemma keeps_list_policy X self : keeps X (list_policy self).
Proof. unfold list_policy. keeps_walk. Qed.

Lemma keeps_instantiate X self v add : keeps X (instantiate E r self v add).
Proof. unfold instantiate. keeps_walk. Qed.

Lemma keeps_notify X self changed : keeps X (notify E r self changed).
Proof. unfold notify. keeps_walk. Qed.

Lemma keeps_items_of X self : keeps X (items_of self).
Proof. unfold items_of. keeps_walk. Qed.

Lemma keeps_release X self val : keeps X (release self val).
Proof. unfold release. keeps_walk. Qed.

Lemma keeps_lists_differ X l1 l2 : keeps X (lists_differ r l1 l2).
Proof. unfold lists_differ. keeps_walk. Qed.

Local Hint Resolve keeps_list_policy keeps_instantiate keeps_notify keeps_items_of
  keeps_release keeps_lists_differ : keeps.

Lemma keeps_index X self v : keeps X (index E r self v).
Proof. unfold index. keeps_walk. Qed.

Local Hint Resolve keeps_index : keeps.

(** Walks to the write that ends an operation: everything before it keeps
    the stores, and the write itself only fails without writing. *)
Ltac fails_walk :=
  repeat match goal with
    | |- forall _, _ => intro
    | |- fails_clean (let _ := _ in _) => cbv zeta
    | |- fails_clean (set_items _ _) => apply fails_clean_set_items
    | |- fails_clean (store _ _ _) => apply fails_clean_store
    | |- fails_clean (bind (set_items _ _) _) =>
        apply fails_clean_then;
        [apply fails_clean_set_items
        |intros;
         repeat match goal with
           | |- never_raises (release _ _) => apply never_raises_release
           | |- never_raises (ret _) => apply never_raises_ret
           | |- never_raises (bind _ _) => apply never_raises_bind; [|intros]
           end]
    | |- fails_clean (bind _ _) => apply fails_clean_bind; [solve [keeps_walk]|]
    | |- fails_clean (if ?b then _ else _) => destruct b
    | |- fails_clean (match ?x with _ => _ end) => destruct x
    | |- fails_clean _ => apply fails_clean_keeps; solve [keeps_walk]
    end.

Lemma fails_clean_append self item : fails_clean (append E r self item).
Proof. unfold append. fails_walk. Qed.

Lemma fails_clean_insert self i v : fails_clean (insert E r self i v).
Proof. unfold insert. fails_walk. Qed.

Lemma fails_clean_pop self i : fails_clean (pop E r self i).
Proof. unfold pop. fails_walk. Qed.

Lemma fails_clean_remove self v : fails_clean (remove E r self v).
Proof.
  unfold remove. fails_walk.
  apply fails_clean_then; [apply fails_clean_pop | intros; apply never_raises_ret].
Qed.

Lemma fails_clean_reverse self : fails_clean (reverse E r self).
Proof. unfold reverse. fails_walk. Qed.

Lemma fails_clean_setitem self n item : fails_clean (setitem E r self n item).
Proof. unfold setitem. fails_walk. Qed.

Lemma fails_clean_delitem self n : fails_clean (delitem E r self n).
Proof. unfold delitem. fails_walk. Qed.

Lemma fails_clean_clear self : fails_clean (clear E r self).
Proof. unfold clear, delitem_all. fails_walk. Qed.

Lemma fails_clean_imul self n : fails_clean (imul E r self n).
Proof. unfold imul. fails_walk. Qed.

Lemma fails_clean_set a (o : objid) v validate :
  is_reference a = false -> fails_clean (set_body E r a o v validate).
Proof.
  unfold is_reference, set_body. intros Href.
  destruct (a_kind a); try done; unfold Attribute_set, Container_set; fails_walk.
Qed.
End Failures.

#[export] Hint Resolve keeps_policy keeps_add_model_object keeps_remove_model_object
  keeps_changed_from : keeps.

Lemma Attribute_delete_fails a (o : objid) (validate : bool) st e st' :
  Attribute_delete a o validate st = (Raise e, st') -> st' = st.
Proof.
  unfold Attribute_delete. intros H.
  apply bind_inv_raise in H as [H|(? & st1 & H1 & H)].
  - destruct validate; [|done]. unfold raise_if_immutable_or_readonly in H.
    destruct (p_readonly _); [by injection H|].
    destruct (negb _); [|done].
    unfold bind, get_obj, read, lookup_obj in H.
    destruct (heap st !! o); simpl in H; [|by injection H].
    destruct (dict_has _ _); by injection H.
  - apply bind_inv_raise in H as [H|(? & st2 & H2 & H)]; [|done].
    unfold unstore, bind, get_obj, read, lookup_obj in H.
    assert (st1 = st) as ->.
    { destruct validate; [|by injection H1]. unfold raise_if_immutable_or_readonly in H1.
      destruct (p_readonly _); [done|]. destruct (negb _); [|by injection H1].
      unfold bind, get_obj, read, lookup_obj in H1.
      destruct (heap st !! o); simpl in H1; [|done].
      destruct (dict_has _ _); [done|by injection H1]. }
    destruct (heap st !! o); simpl in H; [done|by injection H].
Qed.

Lemma reference_set_fails E depth a cls allow (o : objid) x v (validate : bool) st e st' :
  heap st !! o = Some x ->
  CatalogObjectReference_set E (calls_at E depth) a cls allow o v validate st
  = (Raise e, st') ->
  kept ∅ st st' \/
  exists x', heap st' !! o = Some x' /\
             o_attributes x' = dict_set (o_attributes x) (a_name a) v.
Proof.
  intros Hx H. pose proof (sound_calls_at E depth) as Hr.
  set (r := calls_at E depth) in *.
  unfold CatalogObjectReference_set in H.
  (* the steps before the value is stored *)
  apply bind_inv_raise in H as [H|(? & s1 & H1 & H)].
  { left. revert H. apply fails_clean_keeps. destruct validate; auto with keeps. }
  assert (kept ∅ st s1) as K1.
  { assert (keeps ∅ (if validate
                       then raise_if_immutable_or_readonly (a_params a) (a_name a) (Some o)
                       else ret tt)) as Hk by (destruct validate; auto with keeps).
    specialize (Hk st). by rewrite H1 in Hk. }
  apply bind_inv_raise in H as [H|(? & s2 & H2 & H)].
  { left. eapply kept_trans; [done|]. revert H. apply fails_clean_keeps. keeps_walk. }
  assert (kept ∅ s1 s2) as K2.
  { match type of H2 with ?m _ = _ => assert (keeps ∅ m) as Hk by keeps_walk end.
    specialize (Hk s1). by rewrite H2 in Hk. }
  apply bind_inv_raise in H as [H|(changed & s3 & H3 & H)].
  { left. eapply kept_trans; [done|]. eapply kept_trans; [done|].
    revert H. apply fails_clean_keeps. apply keeps_changed_from. }
  assert (kept ∅ s2 s3) as K3.
  { pose proof (keeps_changed_from r ∅ o (a_name a) v s2) as Hk. by rewrite H3 in Hk. }
  apply bind_inv_raise in H as [H|(? & s4 & H4 & H)].
  { left. do 3 (eapply kept_trans; [done|]).
    revert H. apply fails_clean_keeps. by apply keeps_c_set_modified. }
  assert (kept ∅ s3 s4) as K4.
  { pose proof (keeps_c_set_modified r Hr ∅ o (Some (a_name a)) changed validate s3) as Hk.
    by rewrite H4 in Hk. }
  assert (kept ∅ st s4) as K by (do 3 (eapply kept_trans; [done|]); done).
  destruct (K o x Hx) as (x4 & Hx4 & _ & _ & Hsame).
  destruct (Hsame (not_elem_of_empty _)) as [Hattrs _].
  (* the value is stored; whatever raises now finds it there *)
  rewrite (bind_ok _ _ _ _ _ (store_run o _ v x4 s4 Hx4)) in H.
  right.
  assert (fails_clean
            (run c_set_modified r o (Some (id_field (a_name a))) changed false;
             do i <- read (fun h => match v with
                                    | VNone => Ok VNone
                                    | VObj t => try y <- lookup_obj h t; id_of y
                                    | _ => Raise AttributeError
                                    end);
             store o (id_field (a_name a)) i)) as Hsuffix.
  { apply fails_clean_bind; [by apply keeps_c_set_modified|]. intros.
    apply fails_clean_bind; [apply keeps_read|]. intros. apply fails_clean_store. }
  specialize (Hsuffix _ _ _ H).
  destruct (Hsuffix o (with_attributes x4 (dict_set (o_attributes x4) (a_name a) v)))
    as (x' & Hx' & _ & _ & Hsame').
  { simpl. apply lookup_insert_eq. }
  exists x'. split; [done|].
  destruct (Hsame' (not_elem_of_empty _)) as [-> _]. simpl. by rewrite Hattrs.
Qed.




(** [extend] is not among the operations above: its items are instantiated
    while the builtin list is being extended, after the owners were told.
    Here the second item names a field [File] does not have; the call raises
    [AttributeError] and the first item stays in the list. *)
Lemma extend_keeps_the_items_before_the_failure :
  let st' := (extend permissive (calls_at permissive 3) 2%positive
                (VList [VDict [("href", VStr "gs://a")]; VDict [("colour", VStr "red")]])
                listed) in
  st'.1 = Raise AttributeError /\
  o_items <$> heap listed !! 2%positive = Some [] /\
  o_items <$> heap st'.2 !! 2%positive = Some [VObj 3%positive] /\
  log st'.2 = [mkNotice 1%positive (Some "files") true true].
Proof. by vm_compute. Qed.

(** ** Reading a reference *)

(** C8 (as amended).  The owner's class declares the shadow field
    [<name>_id]; [shadow] is what the owner stores under it, null when it
    stores nothing.  With a catalog object cached under the name: if its id
    equals [shadow], the cached object is returned, nothing is looked up and
    nothing changes; if not, the cached object is not used: when [shadow] is
    truthy the result is whatever [reference_class.get (shadow, client)]
    returns, and when it is null or otherwise falsy (an empty string) the
    result is null with no lookup; either way the result is stored under the
    name.  With nothing cached the same refetch happens. *)
Theorem C8_reference_get
        (E : env) (depth : nat) (a : attribute) (cls : classid) (o : objid)
        (x : obj) (st : state) :
  let r := calls_at E depth in
  let name := a_name a in
  let shadow := default VNone (dict_get (o_attributes x) (id_field name)) in
  heap st !! o = Some x ->
  is_Some (attribute_types_get E (o_cls x) (id_field name)) ->
  (forall c y i s (same : bool),
     dict_get (o_attributes x) name = Some (VObj c) ->
     heap st !! c = Some y ->
     o_shape y = Catalog i s ->
     c_eq r (heap st) i shadow = Ok same ->
     CatalogObjectReference_get E r a cls o st
     = if same then (Ok (VObj c), st) else refetch E cls o name x shadow st) /\
  (default VNone (dict_get (o_attributes x) name) = VNone ->
   CatalogObjectReference_get E r a cls o st = refetch E cls o name x shadow st).
Proof.
  intros r name shadow Hx [t Ht].
  assert (get_id_field E o name st = (Ok shadow, st)) as Hid.
  { unfold get_id_field. rewrite (bind_ok _ _ _ _ _ (get_obj_run _ _ _ Hx)).
    by rewrite Ht. }
  assert (forall (k : value -> M value),
            (do new_value <- (do t <- read (fun h => Ok (truthy h shadow));
                              if t : bool then reference_get E cls shadow o else ret VNone);
             k new_value) st
            = if truthy (heap st) shadow
              then (do new_value <- reference_get E cls shadow o; k new_value) st
              else k VNone st) as Hmiss.
  { intros k. unfold bind at 1 2, read. simpl. by destruct (truthy _ _). }
  split.
  - intros c y i s same Hc Hy Hshape Heq.
    unfold CatalogObjectReference_get.
    rewrite (bind_ok _ _ _ _ _ (get_obj_run _ _ _ Hx)). fold name.
    rewrite (bind_ok _ _ _ _ _ Hid). rewrite Hc. simpl.
    unfold bind at 1, read. unfold lookup_obj. rewrite Hy. simpl.
    rewrite Hshape. simpl. unfold id_of. rewrite Hshape. simpl.
    fold r. rewrite Heq. destruct same; [done|].
    rewrite Hmiss. unfold refetch. destruct (truthy _ _); [done|].
    by rewrite (bind_ok _ _ _ _ _ (store_run _ _ _ _ _ Hx)).
  - intros Hnone.
    unfold CatalogObjectReference_get.
    rewrite (bind_ok _ _ _ _ _ (get_obj_run _ _ _ Hx)). fold name.
    rewrite (bind_ok _ _ _ _ _ Hid). rewrite Hnone.
    unfold bind at 1, read. simpl.
    rewrite Hmiss. unfold refetch. destruct (truthy _ _); [done|].
    by rewrite (bind_ok _ _ _ _ _ (store_run _ _ _ _ _ Hx)).
Qed.

(** C8 after the shadow id was changed to ["p2"]: the cached product is
    dropped and the lookup makes the one called ["p2"]. *)
Lemma C8_reference_get_witness :
  CatalogObjectReference_get resolving (calls_at resolving 2) product_attr "Product"
    1%positive (caching (VStr "p2"))
  = (Ok (VObj 3%positive),
     mkState (heap_of
       [(1%positive, catalog_object "FakeCatalogObject"
                       [("product", VObj 3%positive); ("product_id", VStr "p2")]);
        (2%positive, product "p1");
        (3%positive, product "p2")]) []).
Proof.
  destruct (C8_reference_get resolving 2 product_attr "Product" 1%positive
              (catalog_object "FakeCatalogObject"
                 [("product", VObj 2%positive); ("product_id", VStr "p2")])
              (caching (VStr "p2")) eq_refl) as [H _].
  - by eexists.
  - rewrite (H 2%positive (product "p1") (VStr "p1") SAVED false) by (by vm_compute).
    by vm_compute.
Defined.

(** C8, as stated, fails: the shadow id is present and empty, it differs
    from the id of the cached product, and no lookup is made: the result
    is null. *)
Lemma C8_counterexample :
  CatalogObjectReference_get resolving (calls_at resolving 2) product_attr "Product"
    1%positive (caching (VStr ""))
  = (Ok VNone,
     mkState (heap_of
       [(1%positive, catalog_object "FakeCatalogObject"
                       [("product", VNone); ("product_id", VStr "")]);
        (2%positive, product "p1")]) []).
Proof. by vm_compute. Qed.

(** ** Serialize, then deserialize *)

Lemma scalar_eq_refl E depth h v :
  scalar v = true -> c_eq (calls_at E (S depth)) h v v = Ok true.
Proof.
  destruct v; try done; simpl; intros _.
  - by rewrite Z.eqb_refl.
  - by rewrite Z.eqb_refl.
  - by rewrite String.eqb_refl.
  - by rewrite String.eqb_refl.
Qed.

Lemma round_trip_plain E depth a v (validate : bool) st :
  a_kind a = KAttribute -> round_trip E depth a v validate st = (Ok v, st).
Proof. intros Hk. unfold round_trip. simpl. unfold serialize_body, deserialize_body. by rewrite Hk. Qed.

Lemma round_trip_enum E depth a cls members s c (validate : bool) st :
  a_kind a = KEnum cls members -> s ∈ members ->
  round_trip E depth a (VStr s) validate st
  = (Ok (VStr s), st) /\
  round_trip E depth a (VEnum cls s) validate st = (Ok (VStr s), st) /\
  c_eq (calls_at E (S depth)) (heap st) (VStr s) (VEnum c s) = Ok true.
Proof.
  intros Hk Hs. unfold round_trip. simpl. unfold serialize_body, deserialize_body.
  rewrite Hk, String.eqb_refl. unfold lift, EnumAttribute_deserialize.
  destruct validate; simpl; rewrite ?bool_decide_eq_true_2 by done;
    rewrite ?String.eqb_refl; done.
Qed.

Lemma round_trip_boolean E depth a b (validate : bool) st :
  a_kind a = KBoolean -> round_trip E depth a (VBool b) validate st = (Ok (VBool b), st).
Proof. intros Hk. unfold round_trip. simpl. unfold serialize_body, deserialize_body. by rewrite Hk. Qed.

Lemma round_trip_geometry E depth a v j (validate : bool) st :
  a_kind a = KGeometry ->
  shapely_to_geojson E v = Ok j -> j <> VNone -> geometry_like_to_shapely E j = Ok v ->
  round_trip E depth a v validate st = (Ok v, st).
Proof.
  intros Hk Hj Hn Hv. unfold round_trip. simpl. unfold serialize_body, deserialize_body.
  rewrite Hk, Hj. unfold lift, GeometryAttribute_deserialize. rewrite Hv.
  by destruct j.
Qed.

Lemma round_trip_timestamp E depth a d (validate : bool) st :
  a_kind a = KTimestamp ->
  round_trip E depth a (VDate d) validate st
  = (if validate then Ok (VStr (isoformat d))
     else match parse_iso_datetime (isoformat d) with
          | Ok d' => Ok (VDate d')
          | Raise ValueError => Raise AttributeValidationError
          | Raise e => Raise e
          end, st).
Proof.
  intros Hk. unfold round_trip. simpl. unfold serialize_body, deserialize_body.
  rewrite Hk. simpl. by destruct validate.
Qed.


Local Arguments calls_at : simpl never.

Lemma serialize_plain_items E r h p l :
  omap_M (serialize_body E r h (item_type KAttribute p)) l = Ok l.
Proof.
  induction l as [|v l IH]; [done|]. cbn [omap_M].
  change (serialize_body E r h (item_type KAttribute p) v) with (Ok v).
  cbn [obind]. by rewrite IH.
Qed.

Lemma instantiate_plain_items E r self (validate : bool) l st :
  map_M (fun v => instantiate_item E r self KAttribute v validate true) l st = (Ok l, st).
Proof.
  induction l as [|v l IH]; [done|]. cbn [map_M].
  rewrite (bind_ok _ _ st v st) by done. by rewrite (bind_ok _ _ _ _ _ IH).
Qed.

Lemma zip_eq_scalars r h l :
  (forall v, scalar v = true -> c_eq r h v v = Ok true) ->
  Forall (fun v => scalar v = true) l ->
  zip_eq r h l l = Ok true.
Proof.
  intros Hrefl. induction 1 as [|v l Hv _ IH]; [done|]. cbn [zip_eq].
  rewrite (Hrefl v Hv). simpl. exact IH.
Qed.

(** A list of scalars, serialized by a [ListAttribute] of plain items and
    deserialized again, is a new list object equal to the old one. *)
Lemma round_trip_list E depth a p (L : objid) x (validate : bool) st :
  a_kind a = KList KAttribute ->
  a_params a = p ->
  heap st !! L = Some x ->
  o_cls x = "ListAttribute" ->
  (exists item, o_shape x = ListOf item) ->
  Forall (fun v => scalar v = true) (o_items x) ->
  let L' := fresh (dom (heap st)) in
  let st' := mkState (<[L' := mkObj "ListAttribute" (ListOf KAttribute) p []
                                    (o_items x) []]> (heap st)) (log st) in
  round_trip E (S depth) a (VObj L) validate st = (Ok (VObj L'), st') /\
  c_eq (calls_at E (S (S depth))) (heap st') (VObj L') (VObj L) = Ok true.
Proof.
  intros Hk Hp HL Hcls [item Hshape] Hsc L' st'.
  assert (L' <> L) as Hne.
  { intros Heq. apply (is_fresh (dom (heap st))). fold L'. rewrite Heq.
    apply elem_of_dom. eauto. }
  split.
  - unfold round_trip.
    change (c_serialize (calls_at E (S (S depth))))
      with (serialize_body E (calls_at E (S depth))).
    change (c_deserialize (calls_at E (S (S depth))))
      with (deserialize_body E (calls_at E (S depth))).
    unfold serialize_body, deserialize_body. rewrite Hk, Hp.
    unfold ListAttribute_serialize. simpl. rewrite HL. simpl. rewrite Hshape. simpl.
    rewrite serialize_plain_items. simpl.
    assert (ListAttribute_init E (calls_at E (S depth)) KAttribute p validate (o_items x) st
            = (Ok L', st')) as Hinit.
    { unfold ListAttribute_init.
      rewrite (bind_ok _ _ st L' (mkState (<[L' := mkObj "ListAttribute" (ListOf KAttribute)
                                                     p [] [] []]> (heap st)) (log st)))
        by done.
      rewrite (bind_ok _ _ _ _ _ (instantiate_plain_items _ _ _ _ _ _)).
      unfold set_items.
      erewrite (bind_ok (bind (get_obj L') _)); [done|].
      erewrite (bind_ok (get_obj L')); [|apply get_obj_run, lookup_insert_eq].
      unfold set_obj, st', with_items. simpl. by rewrite insert_insert_eq. }
    unfold ListAttribute_deserialize.
    rewrite (bind_ok _ _ st false st) by done.
    by rewrite (bind_ok _ _ _ _ _ Hinit).
  - change (c_eq (calls_at E (S (S depth)))) with (eq_body E (calls_at E (S depth))).
    unfold eq_body, lookup_obj. simpl.
    rewrite lookup_insert_eq, lookup_insert_ne, HL by done. simpl.
    rewrite Hcls, bool_decide_eq_true_2 by done. simpl.
    unfold method_eq, lookup_obj. rewrite lookup_insert_eq. simpl.
    unfold ListAttribute_eq. simpl. rewrite bool_decide_eq_false_2 by done.
    unfold lookup_obj. rewrite lookup_insert_ne, HL by done. simpl.
    rewrite Hcls, issubclass_refl, Hshape. simpl.
    rewrite Nat.eqb_refl. simpl. apply zip_eq_scalars; [|done].
    intros v Hv. apply (scalar_eq_refl E depth _ v Hv).
Qed.

(** *** Mappings of plain fields *)

Section DictMore.
Context {K V : Type} `{EqDecision K}.
Implicit Types (d : list (K * V)) (k : K) (v : V).

Lemma dict_get_None d k : dict_get d k = None <-> k ∉ d.*1.
Proof.
  induction d as [|[k' v'] d IH]; simpl.
  - split; [intros _; apply not_elem_of_nil | done].
  - rewrite not_elem_of_cons. destruct (decide (k' = k)) as [->|Hne].
    + split; [done | by intros [? _]].
    + rewrite IH. split; [by intros; split | by intros [_ ?]].
Qed.

Lemma dict_set_fresh d k v : k ∉ d.*1 -> dict_set d k v = d ++ [(k, v)].
Proof.
  induction d as [|[k' v'] d IH]; simpl; [done|].
  rewrite not_elem_of_cons. intros [Hne Hd].
  rewrite decide_False by done. by rewrite IH.
Qed.

Lemma dict_pop_fresh d k : k ∉ d.*1 -> dict_pop d k = d.
Proof. intros H. apply dict_pop_absent. by apply dict_get_None. Qed.

Lemma dict_update_fresh d e :
  NoDup e.*1 -> (forall k, k ∈ e.*1 -> k ∉ d.*1) -> dict_update d e = d ++ e.
Proof.
  unfold dict_update. revert d. induction e as [|[k v] e IH]; intros d Hnd Hfresh; simpl.
  - by rewrite app_nil_r.
  - inversion Hnd as [|? ? Hk Hnd']; subst.
    rewrite dict_set_fresh by (apply Hfresh; left).
    rewrite IH; [rewrite <- app_assoc; reflexivity | done |].
    intros k' Hk'. rewrite fmap_app, elem_of_app. simpl.
    intros [Hin|Hin%list_elem_of_singleton].
    + by apply (Hfresh k'); [right|].
    + by subst.
Qed.

Lemma dict_get_app_l d e k : k ∉ e.*1 -> dict_get (d ++ e) k = dict_get d k.
Proof.
  intros He. induction d as [|[k' v'] d IH]; simpl.
  - by apply dict_get_None.
  - by destruct (decide (k' = k)).
Qed.

Lemma dict_get_app_r d e k : k ∉ d.*1 -> dict_get (d ++ e) k = dict_get e k.
Proof.
  induction d as [|[k' v'] d IH]; simpl; [done|].
  rewrite not_elem_of_cons. intros [Hne Hd]. rewrite decide_False by done. by apply IH.
Qed.

Lemma dict_get_filter (P : K -> bool) d k :
  P k = true -> dict_get (List.filter (fun kv => P kv.1) d) k = dict_get d k.
Proof.
  intros HP. induction d as [|[k' v'] d IH]; simpl; [done|].
  destruct (decide (k' = k)) as [->|Hne].
  - rewrite HP. simpl. by rewrite decide_True.
  - destruct (P k'); simpl; [by rewrite decide_False|done].
Qed.

Lemma filter_keys_subseteq (P : K -> bool) d k :
  k ∈ (List.filter (fun kv => P kv.1) d).*1 -> k ∈ d.*1.
Proof.
  induction d as [|[k' v'] d IH]; simpl; [done|].
  destruct (P k'); simpl; rewrite ?elem_of_cons; intuition.
Qed.

Lemma filter_keys_NoDup (P : K -> bool) d :
  NoDup d.*1 -> NoDup (List.filter (fun kv => P kv.1) d).*1.
Proof.
  induction d as [|[k' v'] d IH]; simpl; [done|].
  intros Hnd. inversion Hnd as [|? ? Hk Hnd']; subst.
  destruct (P k'); simpl; [|by apply IH].
  constructor; [|by apply IH]. intros Hin. by apply Hk, (filter_keys_subseteq P).
Qed.
End DictMore.

Lemma attribute_types_get_Some E cls k t :
  attribute_types_get E cls k = Some t -> t ∈ schema E cls /\ a_name t = k.
Proof.
  unfold attribute_types_get. intros H. apply find_some in H as [Hin Heq].
  split; [by apply list_elem_of_In | by apply String.eqb_eq].
Qed.

Lemma attribute_types_get_unique E cls t :
  NoDup (a_name <$> schema E cls) -> t ∈ schema E cls ->
  attribute_types_get E cls (a_name t) = Some t.
Proof.
  unfold attribute_types_get. induction (schema E cls) as [|t' l IH]; simpl.
  - intros _ H. by apply elem_of_nil in H.
  - intros Hnd Hin. inversion Hnd as [|? ? Hk Hnd']; subst.
    destruct (String.eqb (a_name t') (a_name t)) eqn:Heq.
    + apply String.eqb_eq in Heq. apply elem_of_cons in Hin as [->|Hin]; [done|].
      destruct Hk. rewrite Heq. apply list_elem_of_fmap. by exists t.
    + apply elem_of_cons in Hin as [->|Hin]; [by rewrite String.eqb_refl in Heq|].
      by apply IH.
Qed.

Lemma serialize_plain_fields E r h cls d acc :
  Forall (fun t => a_kind t = KAttribute) (schema E cls) ->
  Forall (fun kv => is_Some (attribute_types_get E cls kv.1)) d ->
  NoDup d.*1 -> (forall k, k ∈ d.*1 -> k ∉ acc.*1) ->
  serialize_items E (step E r) h cls d acc
  = Ok (acc ++ List.filter (fun kv => on_wire E cls kv.1) d).
Proof.
  intros Hplain. revert acc.
  induction d as [|[k v] d IH]; intros acc Hdecl Hnd Hfresh; simpl.
  - by rewrite app_nil_r.
  - inversion Hdecl as [|? ? [t Ht] Hdecl']; subst.
    inversion Hnd as [|? ? Hk Hnd']; subst. simpl in *.
    unfold get_attribute_type, on_wire. rewrite Ht. simpl.
    destruct (a_serializable t) eqn:Hser.
    + assert (a_kind t = KAttribute) as Hkind.
      { apply attribute_types_get_Some in Ht as [Hin _].
        by apply (proj1 (Forall_forall _ _) Hplain). }
      unfold serialize_body. rewrite Hkind. simpl.
      rewrite dict_set_fresh by (apply Hfresh; left).
      rewrite IH; [rewrite <- app_assoc; reflexivity | done | done |].
      intros k' Hk'. rewrite fmap_app, elem_of_app. simpl.
      intros [Hin|Hin%list_elem_of_singleton]; [|by subst].
      by apply (Hfresh k'); [right|].
    + apply IH; [done|done|]. intros k' Hk'. apply Hfresh. by right.
Qed.

Lemma plain_set E depth cls p acc (self : objid) t v (validate : bool) st :
  heap st !! self = Some (mkObj cls Mapping p acc [] []) ->
  a_kind t = KAttribute ->
  (validate = true -> a_readonly t = false) ->
  a_name t ∉ acc.*1 ->
  c_set (calls_at E (S (S depth))) t self v validate st
  = (Ok tt, mkState (<[self := mkObj cls Mapping p (acc ++ [(a_name t, v)]) [] []]> (heap st))
                    (log st)).
Proof.
  intros Hself Hkind Hro Hfresh.
  change (c_set (calls_at E (S (S depth)))) with (set_body E (calls_at E (S depth))).
  unfold set_body. rewrite Hkind. unfold Attribute_set.
  pose proof (guarded_policy (a_params t) (a_name t) self _ validate st Hself) as Hp.
  assert (dict_get acc (a_name t) = None) as Hnone by (by apply dict_get_None).
  assert (permits (a_params t) (dict_has acc (a_name t)) validate = true) as Hadm.
  { unfold permits, dict_has. rewrite Hnone. destruct validate; [|done].
    unfold a_readonly in Hro. rewrite Hro by done. simpl. apply orb_true_r. }
  simpl in Hp. rewrite Hadm in Hp. rewrite (bind_ok _ _ _ _ _ Hp).
  change (c_deserialize (calls_at E (S depth)))
    with (deserialize_body E (calls_at E depth)).
  unfold deserialize_body. rewrite Hkind.
  rewrite (bind_ok _ _ st v st) by done.
  assert (changed_from (calls_at E (S depth)) self (a_name t) v st = (Ok true, st)) as Hch.
  { unfold changed_from. rewrite (bind_ok _ _ _ _ _ (get_obj_run _ _ _ Hself)).
    simpl. by rewrite Hnone. }
  rewrite (bind_ok _ _ _ _ _ Hch).
  assert (c_set_modified (calls_at E (S depth)) self (Some (a_name t)) true validate st
          = (Ok tt, st)) as Hmod.
  { change (c_set_modified (calls_at E (S depth)))
      with (set_modified_body E (calls_at E depth)).
    unfold set_modified_body. by rewrite (bind_ok _ _ _ _ _ (get_obj_run _ _ _ Hself)). }
  rewrite (bind_ok _ _ _ _ _ Hmod).
  rewrite (store_run _ _ _ _ _ Hself). unfold with_store, with_attributes. simpl.
  by rewrite dict_set_fresh.
Qed.

Lemma plain_init_loop E depth cls p (self : objid) (validate : bool) ds :
  Forall (fun t => a_kind t = KAttribute) (schema E cls) ->
  (validate = true -> Forall (fun t => a_readonly t = false) (schema E cls)) ->
  Forall (fun kv => is_Some (attribute_types_get E cls kv.1)) ds ->
  NoDup ds.*1 ->
  forall acc st,
    heap st !! self = Some (mkObj cls Mapping p acc [] []) ->
    (forall k, k ∈ ds.*1 -> k ∉ acc.*1) ->
    for_each
      (fun kv =>
         if validate then
           do attr <- lift (get_attribute_type E cls kv.1);
           c_set (calls_at E (S (S depth))) attr self kv.2 validate
         else
           match attribute_types_get E cls kv.1 with
           | Some attr => c_set (calls_at E (S (S depth))) attr self kv.2 validate
           | None => ret tt
           end) ds st
    = (Ok tt, mkState (<[self := mkObj cls Mapping p (acc ++ ds) [] []]> (heap st))
                      (log st)).
Proof.
  intros Hplain Hwr Hdecl Hnd.
  induction ds as [|[k v] ds IH]; intros acc st Hself Hfresh.
  - simpl. rewrite app_nil_r, insert_id by done. by destruct st.
  - inversion Hdecl as [|? ? [t Ht] Hdecl']; subst.
    inversion Hnd as [|? ? Hk Hnd']; subst. simpl in Ht, Hk.
    pose proof (attribute_types_get_Some _ _ _ _ Ht) as [Hin Hname].
    assert (c_set (calls_at E (S (S depth))) t self v validate st
            = (Ok tt, mkState (<[self := mkObj cls Mapping p (acc ++ [(k, v)]) [] []]>
                                 (heap st)) (log st))) as Hstep.
    { rewrite <- Hname. apply plain_set; [done| | |].
      - by apply (proj1 (Forall_forall _ _) Hplain).
      - intros Hv. by apply (proj1 (Forall_forall _ _) (Hwr Hv)).
      - rewrite Hname. apply Hfresh. left. }
    cbn [for_each].
    erewrite bind_ok; cycle 1.
    { cbn [fst snd]. unfold get_attribute_type. rewrite Ht.
      destruct validate; [|exact Hstep].
      rewrite (bind_ok _ _ st t st) by done. exact Hstep. }
    rewrite (IH Hdecl' Hnd' (acc ++ [(k, v)])); cycle 1.
    { simpl. apply lookup_insert_eq. }
    { intros k' Hk'. rewrite fmap_app, elem_of_app. simpl.
      intros [Hin'|Hin'%list_elem_of_singleton]; [|by subst].
      by apply (Hfresh k'); [right|]. }
    simpl. rewrite insert_insert_eq, <- app_assoc. done.
Qed.

Lemma dict_pop_app {K V} `{EqDecision K} (d e : list (K * V)) k :
  dict_pop (d ++ e) k = dict_pop d k ++ dict_pop e k.
Proof.
  induction d as [|[k' v'] d IH]; simpl; [done|].
  destruct (decide (k' = k)); [done|]. simpl. by rewrite IH.
Qed.

Lemma free_keys (ds : list (string * value)) k :
  Forall (fun kv => kv.1 ∉ reserved) ds -> k ∈ reserved -> k ∉ ds.*1.
Proof.
  intros Hfree Hk Hin. apply list_elem_of_fmap in Hin as ([k' v] & -> & Hin).
  by apply (proj1 (Forall_forall _ _) Hfree _ Hin).
Qed.

(** Membership of a given string in a given list, by evaluation. *)
Ltac decide_mem := simpl; apply (bool_decide_unpack _); vm_compute; exact I.

Lemma flag_names_reserved k :
  k ∈ ["mutable"; "serializable"; "sticky"; "readonly"] -> k ∈ reserved.
Proof.
  intros Hk.
  repeat (apply elem_of_cons in Hk as [->|Hk]; [decide_mem|]).
  by apply elem_of_nil in Hk.
Qed.

Lemma plain_init E depth cls p (validate : bool) ds st :
  Forall (fun t => a_kind t = KAttribute) (schema E cls) ->
  (validate = true -> Forall (fun t => a_readonly t = false) (schema E cls)) ->
  Forall (fun kv => is_Some (attribute_types_get E cls kv.1)) ds ->
  NoDup ds.*1 ->
  Forall (fun kv => kv.1 ∉ reserved) ds ->
  let self := fresh (dom (heap st)) in
  MappingAttribute_init E (calls_at E (S (S depth))) cls validate (get_attr_params p ds) st
  = (Ok self, mkState (<[self := mkObj cls Mapping p ds [] []]> (heap st)) (log st)).
Proof.
  intros Hplain Hwr Hdecl Hnd Hfree self.
  assert (forall k, k ∈ reserved -> k ∉ ds.*1) as Hres by (intros; by apply free_keys).
  assert (get_attr_params p ds = params_dict p ++ ds) as ->.
  { apply dict_update_fresh; [done|]. intros k Hk Hin.
    apply (Hres k); [|done]. by apply flag_names_reserved. }
  unfold MappingAttribute_init.
  assert (dict_has (params_dict p ++ ds) "validate" = false) as ->.
  { unfold dict_has. rewrite dict_get_app_r.
    - assert (dict_get ds "validate" = None) as ->; [|done].
      apply dict_get_None, Hres. decide_mem.
    - simpl. decide_mem. }
  assert (forall h key dflt, key ∈ ["mutable"; "serializable"; "sticky"; "readonly"] ->
            flag h (params_dict p ++ ds) key dflt = flag h (params_dict p) key dflt) as Hflag.
  { intros h key dflt Hkey. unfold flag. rewrite dict_get_app_l; [done|].
    by apply Hres, flag_names_reserved. }
  rewrite (bind_ok _ _ st p st); cycle 1.
  { unfold read. rewrite !Hflag by decide_mem. destruct p. reflexivity. }
  rewrite (bind_ok _ _ st self (mkState (<[self := mkObj cls Mapping p [] [] []]> (heap st))
                                        (log st))) by done.
  rewrite !dict_pop_app.
  rewrite !(dict_pop_fresh ds) by (apply Hres; decide_mem).
  change (dict_pop (dict_pop (dict_pop (dict_pop (dict_pop (params_dict p)
            "mutable") "serializable") "sticky") "readonly") "doc") with (@nil (string * value)).
  rewrite app_nil_l.
  erewrite bind_ok; cycle 1.
  { apply (plain_init_loop E depth cls p self validate ds Hplain Hwr Hdecl Hnd []).
    - simpl. apply lookup_insert_eq.
    - intros k _. apply not_elem_of_nil. }
  simpl. by rewrite insert_insert_eq.
Qed.

Lemma dict_get_elem_of {K V} `{EqDecision K} (d : list (K * V)) k v :
  dict_get d k = Some v -> (k, v) ∈ d.
Proof.
  induction d as [|[k' v'] d IH]; simpl; [done|].
  destruct (decide (k' = k)) as [->|Hne].
  - intros [= ->]. left.
  - intros H. right. by apply IH.
Qed.

Lemma Forall_filter_keys {V} (P : string -> bool) (Q : string * V -> Prop) d :
  Forall Q d -> Forall Q (List.filter (fun kv => P kv.1) d).
Proof.
  induction 1 as [|kv d HQ _ IH]; simpl; [done|].
  destruct (P kv.1); [by constructor | done].
Qed.

(** A mapping of plain fields, serialized by the [MappingAttribute] of its
    class and deserialized again, is a new object that holds the fields that
    went on the wire and is equal to the old one. *)
Lemma round_trip_mapping E depth a cls p (m : objid) x (validate : bool) st :
  a_kind a = KMapping cls ->
  a_params a = p ->
  heap st !! m = Some x ->
  o_cls x = cls ->
  o_shape x = Mapping ->
  plain_mapping E cls validate (o_attributes x) ->
  let wire := List.filter (fun kv => on_wire E cls kv.1) (o_attributes x) in
  let m' := fresh (dom (heap st)) in
  let st' := mkState (<[m' := mkObj cls Mapping p wire [] []]> (heap st)) (log st) in
  round_trip E (S (S depth)) a (VObj m) validate st = (Ok (VObj m'), st') /\
  c_eq (calls_at E (S (S (S depth)))) (heap st') (VObj m') (VObj m) = Ok true.
Proof.
  intros Hk Hp Hm Hcls Hshape [Hnames Hplain Hwr Hkeys Hdecl Hsc Hfree] wire m' st'.
  assert (m' <> m) as Hne.
  { intros Heq. apply (is_fresh (dom (heap st))). fold m'. rewrite Heq.
    apply elem_of_dom. eauto. }
  split.
  - unfold round_trip.
    change (c_serialize (calls_at E (S (S (S depth)))))
      with (serialize_body E (step E (calls_at E (S depth)))).
    change (c_deserialize (calls_at E (S (S (S depth)))))
      with (deserialize_body E (calls_at E (S (S depth)))).
    unfold serialize_body, deserialize_body. rewrite Hk, Hp.
    unfold MappingAttribute_serialize, lookup_obj. rewrite Hm. cbn [obind].
    rewrite Hshape.
    rewrite serialize_plain_fields; [|done|done|done|intros; apply not_elem_of_nil].
    cbn [obind app]. fold wire.
    unfold MappingAttribute_deserialize.
    rewrite (bind_ok _ _ st false st) by done.
    erewrite bind_ok; cycle 1.
    { apply plain_init; [done|done| | |].
      - by apply Forall_filter_keys.
      - by apply filter_keys_NoDup.
      - by apply Forall_filter_keys. }
    done.
  - change (c_eq (calls_at E (S (S (S depth)))))
      with (eq_body E (calls_at E (S (S depth)))).
    unfold eq_body, lookup_obj. cbn [heap st'].
    rewrite lookup_insert_eq, lookup_insert_ne, Hm by done. cbn [obind o_cls].
    rewrite Hcls, bool_decide_eq_true_2 by done. cbn [negb andb].
    unfold method_eq, lookup_obj. rewrite lookup_insert_eq. cbn [obind o_shape].
    unfold AttributeEqualityMixin_eq, lookup_obj.
    rewrite lookup_insert_ne, Hm by done. cbn [obind o_cls o_attributes].
    rewrite Hcls, issubclass_refl. cbn [negb].
    apply fields_eq_true, Forall_forall. intros t Ht Hser.
    assert (a_kind t = KAttribute) as Hkind
      by (by apply (proj1 (Forall_forall _ _) Hplain)).
    pose proof (attribute_types_get_unique E cls t Hnames Ht) as Hget.
    assert (dict_get wire (a_name t) = dict_get (o_attributes x) (a_name t)) as Hsame.
    { apply (dict_get_filter (on_wire E cls)). unfold on_wire. by rewrite Hget. }
    set (v := default VNone (dict_get (o_attributes x) (a_name t))).
    exists v, v.
    change (c_serialize (calls_at E (S (S depth))))
      with (serialize_body E (calls_at E (S depth))).
    unfold serialize_body. rewrite Hkind, Hsame. split_and!; [done|done|].
    apply scalar_eq_refl. unfold v.
    destruct (dict_get (o_attributes x) (a_name t)) as [w|] eqn:Hw; [|done].
    apply dict_get_elem_of in Hw.
    by apply (proj1 (Forall_forall _ _) Hsc _ Hw).
Qed.



(** * The rest of the attribute layer *)

(** ** List values: the steps every operation is made of *)

Lemma list_policy_run self x st :
  heap st !! self = Some x -> list_policy self st = (verdict (writable x), st).
Proof.
  intros H. unfold list_policy. rewrite (bind_ok _ _ _ _ _ (get_obj_run _ _ _ H)).
  unfold raise_if_immutable_or_readonly, writable.
  by destruct (p_readonly _), (p_mutable _).
Qed.

Lemma list_policy_ok self x st :
  heap st !! self = Some x -> writable x = true -> list_policy self st = (Ok tt, st).
Proof. intros H Hw. rewrite (list_policy_run _ _ _ H). by rewrite Hw. Qed.

Lemma instantiate_plain E r self x v add_model st :
  heap st !! self = Some x -> plain_list x = true ->
  instantiate E r self v add_model st = (Ok v, st).
Proof.
  intros H Hp. unfold instantiate. rewrite (bind_ok _ _ _ _ _ (get_obj_run _ _ _ H)).
  unfold plain_list in Hp. unfold item_kind. by destruct (o_shape x) as [| |[]].
Qed.

Lemma notify_run E depth self x changed st :
  heap st !! self = Some x -> is_catalog (heap st) self = false ->
  heard E (heap st) changed x ->
  notify E (calls_at E (S depth)) self changed st
  = (Ok tt, mkState (heap st) (log st ++ told changed x)).
Proof.
  intros H Hc Hh. unfold notify, set_modified_body.
  rewrite (bind_ok _ _ _ _ _ (get_obj_run _ _ _ H)).
  unfold is_catalog in Hc. rewrite H in Hc.
  destruct (o_shape x); [done| |]; by apply fan_out.
Qed.

Lemma items_of_run self x st :
  heap st !! self = Some x -> items_of self st = (Ok (o_items x), st).
Proof. intros H. unfold items_of. by rewrite (bind_ok _ _ _ _ _ (get_obj_run _ _ _ H)). Qed.

Lemma set_items_run self x l st :
  heap st !! self = Some x ->
  set_items self l st = (Ok tt, mkState (<[self := with_items x l]> (heap st)) (log st)).
Proof. intros H. unfold set_items. by rewrite (bind_ok _ _ _ _ _ (get_obj_run _ _ _ H)). Qed.

Lemma plain_list_not_catalog h self x :
  h !! self = Some x -> plain_list x = true -> is_catalog h self = false.
Proof. intros H Hp. unfold is_catalog. rewrite H. unfold plain_list in Hp. by destruct (o_shape x). Qed.

Lemma list_not_catalog h self x item :
  h !! self = Some x -> o_shape x = ListOf item -> is_catalog h self = false.
Proof. intros H Hs. unfold is_catalog. by rewrite H, Hs. Qed.

(** Writing the items of a list leaves every catalog object a catalog
    object, so whoever accepted a notice before still accepts it. *)
Lemma is_catalog_with_items h self x l o :
  h !! self = Some x -> is_catalog (<[self := with_items x l]> h) o = is_catalog h o.
Proof.
  intros H. unfold is_catalog. destruct (decide (o = self)) as [->|Hne].
  - by rewrite lookup_insert_eq, H.
  - by rewrite lookup_insert_ne.
Qed.

Lemma heard_with_items E h self x l changed y :
  h !! self = Some x -> heard E h changed y ->
  heard E (<[self := with_items x l]> h) changed y.
Proof.
  intros H Hh. unfold heard. eapply Forall_impl; [exact Hh|].
  intros owner [Hc Hv]. split; [|done].
  by rewrite (is_catalog_with_items _ _ _ _ _ H).
Qed.

Lemma with_items_same x : with_items x (o_items x) = x.
Proof. by destruct x. Qed.

Lemma with_list_same st self x :
  heap st !! self = Some x -> with_list st self x (o_items x) [] = st.
Proof.
  intros H. unfold with_list. rewrite with_items_same, insert_id by done.
  rewrite app_nil_r. by destruct st.
Qed.

Lemma is_mapping_with_items h self x l v :
  h !! self = Some x -> is_mapping (<[self := with_items x l]> h) v = is_mapping h v.
Proof.
  intros H. destruct v; try done. simpl. destruct (decide (o = self)) as [->|Hne].
  - by rewrite lookup_insert_eq, H.
  - by rewrite lookup_insert_ne.
Qed.

Lemma release_plain self v st :
  is_mapping (heap st) v = false -> release self v st = (Ok tt, st).
Proof. intros H. unfold release, bind, read. by rewrite H. Qed.

Lemma norm_index_Some len i k :
  norm_index len i = Some k ->
  (k < len)%nat /\ Z.of_nat k = (if (i <? 0)%Z then i + Z.of_nat len else i)%Z.
Proof.
  unfold norm_index. set (j := if (i <? 0)%Z then _ else _).
  destruct (0 <=? j)%Z eqn:H0; [|done]. destruct (j <? Z.of_nat len)%Z eqn:H1; [|done].
  simpl. intros [= <-]. lia.
Qed.

Lemma norm_index_last n : norm_index (S n) (-1) = Some n.
Proof.
  unfold norm_index. change (-1 <? 0)%Z with true. cbv iota.
  replace (-1 + Z.of_nat (S n))%Z with (Z.of_nat n) by lia.
  rewrite (proj2 (Z.leb_le _ _)) by lia. rewrite (proj2 (Z.ltb_lt _ _)) by lia.
  simpl. by rewrite Nat2Z.id.
Qed.

Lemma append_run E depth self x v st :
  heap st !! self = Some x -> plain_list x = true -> writable x = true ->
  heard E (heap st) true x ->
  append E (calls_at E (S depth)) self v st
  = (Ok tt, with_list st self x (o_items x ++ [v]) (told true x)).
Proof.
  intros H Hp Hw Hh. unfold append.
  rewrite (bind_ok _ _ _ _ _ (list_policy_ok _ _ _ H Hw)).
  rewrite (bind_ok _ _ _ _ _ (instantiate_plain _ _ _ _ _ _ _ H Hp)).
  rewrite (bind_ok _ _ _ _ _ (notify_run _ _ _ _ _ _ H (plain_list_not_catalog _ _ _ H Hp) Hh)).
  rewrite (bind_ok _ _ (mkState _ _) (o_items x) (mkState (heap st) (log st ++ told true x)))
    by (by apply items_of_run).
  by rewrite (set_items_run _ x) by done.
Qed.

Lemma pop_run E depth self x i k st :
  heap st !! self = Some x -> (exists item, o_shape x = ListOf item) -> writable x = true ->
  heard E (heap st) true x ->
  norm_index (length (o_items x)) i = Some k ->
  let popped := default VNone (o_items x !! k) in
  is_mapping (heap st) popped = false ->
  pop E (calls_at E (S depth)) self i st
  = (Ok popped, with_list st self x (take k (o_items x) ++ drop (S k) (o_items x)) (told true x)).
Proof.
  intros H [item Hs] Hw Hh Hk popped Hm. unfold pop.
  rewrite (bind_ok _ _ _ _ _ (list_policy_ok _ _ _ H Hw)).
  rewrite (bind_ok _ _ _ _ _ (notify_run _ _ _ _ _ _ H (list_not_catalog _ _ _ _ H Hs) Hh)).
  rewrite (bind_ok _ _ (mkState _ _) (o_items x) (mkState (heap st) (log st ++ told true x)))
    by (by apply items_of_run).
  rewrite Hk.
  erewrite bind_ok by (by apply (set_items_run _ x)).
  erewrite bind_ok; [done|]. apply release_plain. simpl.
  by rewrite (is_mapping_with_items _ _ _ _ _ H).
Qed.

(** [append] and then [pop ()] hand the item back and leave the list as it
    was; the owners hear of a change twice. *)
Theorem append_then_pop (E : env) (depth : nat) (self : objid) (x : obj) (v : value)
        (st : state) :
  let r := calls_at E (S depth) in
  heap st !! self = Some x -> plain_list x = true -> writable x = true ->
  is_mapping (heap st) v = false ->
  heard E (heap st) true x ->
  (run append E r self v; pop E r self (-1)) st
  = (Ok v, mkState (heap st) (log st ++ told true x ++ told true x)).
Proof.
  intros r H Hp Hw Hm Hh.
  rewrite (bind_ok _ _ _ _ _ (append_run E depth _ _ v _ H Hp Hw Hh)).
  set (x1 := with_items x (o_items x ++ [v])).
  assert (heap (with_list st self x (o_items x ++ [v]) (told true x)) !! self = Some x1) as H1
    by (simpl; by rewrite lookup_insert_eq).
  assert (exists item, o_shape x1 = ListOf item) as Hs1.
  { unfold plain_list in Hp. simpl. destruct (o_shape x) as [| |item]; [done..|]. by exists item. }
  unfold r. rewrite (pop_run E depth self x1 (-1) (length (o_items x)) _ H1 Hs1 Hw).
  - simpl. rewrite list_lookup_middle by done. simpl.
    unfold with_list. simpl. rewrite insert_insert_eq.
    rewrite take_app_length, drop_ge, app_nil_r by (rewrite length_app; simpl; lia).
    change (with_items x1 (o_items x)) with (with_items x (o_items x)).
    rewrite with_items_same, insert_id by done. by rewrite <- app_assoc.
  - simpl. by apply heard_with_items.
  - simpl. rewrite length_app. simpl. rewrite Nat.add_1_r. apply norm_index_last.
  - simpl. rewrite list_lookup_middle by done. simpl.
    by rewrite (is_mapping_with_items _ _ _ _ _ H).
Qed.

(** A list value that is readonly, or was made with [mutable=False], refuses
    every operation that changes it in place: the policy check is made
    without an owner, so there is no first write as there is for an
    attribute.  Reading it still works. *)
Theorem frozen_list_refuses_every_change (E : env) (r : calls) (self : objid) (x : obj)
        (st : state) :
  heap st !! self = Some x -> writable x = false ->
  (forall v, refuses (append E r self v) st) /\
  (forall v, refuses (extend E r self v) st) /\
  (forall v, refuses (iadd E r self v) st) /\
  (forall i v, refuses (insert E r self i v) st) /\
  (forall i, refuses (pop E r self i) st) /\
  (forall v, refuses (remove E r self v) st) /\
  refuses (reverse E r self) st /\
  (forall i v, refuses (setitem E r self i v) st) /\
  (forall i, refuses (delitem E r self i) st) /\
  refuses (clear E r self) st /\
  (forall n, refuses (imul E r self n) st) /\
  len self st = (Ok (length (o_items x)), st) /\
  copy self st = (Ok (VList (o_items x)), st).
Proof.
  intros H Hw.
  assert (list_policy self st = (Raise AttributeValidationError, st)) as Hpol.
  { rewrite (list_policy_run _ _ _ H). by rewrite Hw. }
  unfold refuses, append, extend, iadd, insert, pop, remove, reverse, setitem, delitem,
    clear, imul.
  split_and!; intros; try by rewrite (bind_raise _ _ _ _ _ Hpol).
  - unfold len. by rewrite (bind_ok _ _ _ _ _ (items_of_run _ _ _ H)).
  - unfold copy. by rewrite (bind_ok _ _ _ _ _ (items_of_run _ _ _ H)).
Qed.

Lemma frozen_list_refuses_every_change_witness :
  let frozen := mkObj "ListAttribute" (ListOf KAttribute) (mkParams false true false false)
                      [] [VInt 1] [] in
  let st := mkState (heap_of [(1%positive, frozen)]) [] in
  refuses (append permissive (calls_at permissive 2) 1%positive (VInt 2)) st /\
  len 1%positive st = (Ok 1%nat, st).
Proof.
  intros frozen st.
  pose proof (frozen_list_refuses_every_change permissive (calls_at permissive 2)
                1%positive frozen st) as H.
  destruct H as (Happend & _ & _ & _ & _ & _ & _ & _ & _ & _ & _ & Hlen & _).
  - by vm_compute.
  - reflexivity.
  - split; [apply Happend | apply Hlen].
Defined.



Lemma clamp_index_le len i : (clamp_index len i <= len)%nat.
Proof. unfold clamp_index. destruct (i <? 0)%Z; lia. Qed.

Lemma norm_index_nat len k : (k < len)%nat -> norm_index len (Z.of_nat k) = Some k.
Proof.
  intros Hk. unfold norm_index.
  rewrite (proj2 (Z.ltb_ge _ _)) by lia. rewrite (proj2 (Z.leb_le _ _)) by lia.
  rewrite (proj2 (Z.ltb_lt _ _)) by lia. simpl. by rewrite Nat2Z.id.
Qed.

Lemma insert_run E depth self x i v st :
  heap st !! self = Some x -> plain_list x = true -> writable x = true ->
  heard E (heap st) true x ->
  let k := clamp_index (length (o_items x)) i in
  insert E (calls_at E (S depth)) self i v st
  = (Ok tt, with_list st self x (take k (o_items x) ++ v :: drop k (o_items x)) (told true x)).
Proof.
  intros H Hp Hw Hh k. unfold insert.
  rewrite (bind_ok _ _ _ _ _ (list_policy_ok _ _ _ H Hw)).
  rewrite (bind_ok _ _ _ _ _ (instantiate_plain _ _ _ _ _ _ _ H Hp)).
  rewrite (bind_ok _ _ _ _ _ (notify_run _ _ _ _ _ _ H (plain_list_not_catalog _ _ _ H Hp) Hh)).
  rewrite (bind_ok _ _ (mkState _ _) (o_items x) (mkState (heap st) (log st ++ told true x)))
    by (by apply items_of_run).
  by rewrite (set_items_run _ x) by done.
Qed.



(** [L[i] = v] on a list of plain items, and then [L[i]]: the value comes
    back, the other items stay, and the owners are told once, with
    [changed] saying whether the old item and the new one differ. *)
Theorem setitem_then_getitem (E : env) (depth : nat) (self : objid) (x : obj) (i : Z)
        (k : nat) (v : value) (same : bool) (st : state) :
  let r := calls_at E (S depth) in
  let previous_value := default VNone (o_items x !! k) in
  heap st !! self = Some x -> plain_list x = true -> writable x = true ->
  norm_index (length (o_items x)) i = Some k ->
  c_eq r (heap st) previous_value v = Ok same ->
  is_mapping (heap st) previous_value = false ->
  heard E (heap st) (negb same) x ->
  (run setitem E r self i v; getitem self i) st
  = (Ok v, with_list st self x (<[k := v]> (o_items x)) (told (negb same) x)).
Proof.
  intros r previous_value H Hp Hw Hk Heq Hm Hh.
  assert (setitem E r self i v st
          = (Ok tt, with_list st self x (<[k := v]> (o_items x)) (told (negb same) x))) as Hset.
  { unfold setitem. rewrite (bind_ok _ _ _ _ _ (list_policy_ok _ _ _ H Hw)).
    rewrite (bind_ok _ _ _ _ _ (items_of_run _ _ _ H)). rewrite Hk.
    rewrite (bind_ok _ _ _ _ _ (instantiate_plain _ _ _ _ _ _ _ H Hp)).
    fold previous_value.
    rewrite (bind_ok _ _ st same st) by (unfold read; by rewrite Heq).
    unfold r.
    rewrite (bind_ok _ _ _ _ _
               (notify_run _ _ _ _ _ _ H (plain_list_not_catalog _ _ _ H Hp) Hh)).
    rewrite (bind_ok _ _ (mkState _ _) (o_items x)
               (mkState (heap st) (log st ++ told (negb same) x)))
      by (by apply items_of_run).
    erewrite bind_ok by (by apply (set_items_run _ x)).
    apply release_plain. simpl. by rewrite (is_mapping_with_items _ _ _ _ _ H). }
  rewrite (bind_ok _ _ _ _ _ Hset). unfold getitem.
  erewrite bind_ok; cycle 1.
  { apply items_of_run. simpl. by rewrite lookup_insert_eq. }
  simpl. rewrite length_insert, Hk. simpl.
  apply norm_index_Some in Hk as [Hlt _].
  by rewrite list_lookup_insert_eq.
Qed.

Lemma setitem_then_getitem_witness :
  let files := list_of KAttribute [VInt 1; VInt 2] [] in
  let st := mkState (heap_of [(1%positive, files)]) [] in
  (run setitem permissive (calls_at permissive 1) 1%positive (-1) (VInt 2);
   getitem 1%positive (-1)) st
  = (Ok (VInt 2), st).
Proof.
  intros files st.
  apply (setitem_then_getitem permissive 0 1%positive files (-1) 1 (VInt 2) true st).
  - reflexivity.
  - reflexivity.
  - reflexivity.
  - reflexivity.
  - reflexivity.
  - reflexivity.
  - constructor.
Defined.

(** *** Comparing scalars *)

Lemma scalar_eq_total E depth h v w :
  scalar v = true -> scalar w = true ->
  exists b, c_eq (calls_at E (S depth)) h v w = Ok b.
Proof.
  change (c_eq (calls_at E (S depth))) with (eq_body E (calls_at E depth)).
  destruct v, w; try done; simpl; eauto.
Qed.

Lemma eq_bool_scalars E depth h v w :
  scalar v = true -> scalar w = true ->
  exists b, eq_bool (calls_at E (S depth)) h v w = Ok b.
Proof.
  intros Hv Hw. unfold eq_bool. destruct (same_object v w); [eauto|].
  by apply scalar_eq_total.
Qed.

Lemma eq_bool_scalar_refl E depth h v :
  scalar v = true -> eq_bool (calls_at E (S depth)) h v v = Ok true.
Proof.
  intros Hv. unfold eq_bool. destruct (same_object v v); [done|].
  by apply scalar_eq_refl.
Qed.

Lemma all_eq_bool_scalars E depth h l1 l2 :
  Forall (fun v => scalar v = true) l1 -> Forall (fun v => scalar v = true) l2 ->
  exists b, all_eq_bool (calls_at E (S depth)) h l1 l2 = Ok b.
Proof.
  intros H1. revert l2. induction H1 as [|v l1 Hv H1 IH]; intros l2 H2; simpl; [eauto|].
  destruct H2 as [|w l2 Hw H2]; [eauto|].
  destruct (eq_bool_scalars E depth h v w Hv Hw) as [b ->]. simpl.
  destruct b; [by apply IH | eauto].
Qed.

Lemma all_eq_bool_refl E depth h l :
  Forall (fun v => scalar v = true) l ->
  all_eq_bool (calls_at E (S depth)) h l l = Ok true.
Proof.
  induction 1 as [|v l Hv H IH]; simpl; [done|].
  by rewrite eq_bool_scalar_refl.
Qed.

Lemma lists_differ_scalars E depth l1 l2 st :
  Forall (fun v => scalar v = true) l1 -> Forall (fun v => scalar v = true) l2 ->
  exists c, lists_differ (calls_at E (S depth)) l1 l2 st = (Ok c, st) /\
            (l1 = l2 -> c = false).
Proof.
  intros H1 H2. unfold lists_differ, bind, read, builtin_list_eq.
  destruct (length l1 =? length l2)%nat eqn:Hlen.
  - destruct (all_eq_bool_scalars E depth (heap st) l1 l2 H1 H2) as [b Hb].
    rewrite Hb. exists (negb b). split; [done|]. intros <-.
    rewrite all_eq_bool_refl in Hb by done. by injection Hb as <-.
  - exists true. split; [done|]. intros <-. by rewrite Nat.eqb_refl in Hlen.
Qed.

Lemma reverse_run E depth self x st :
  heap st !! self = Some x -> (exists item, o_shape x = ListOf item) -> writable x = true ->
  Forall (fun v => scalar v = true) (o_items x) ->
  (forall c, heard E (heap st) c x) ->
  exists c,
    reverse E (calls_at E (S depth)) self st
    = (Ok tt, with_list st self x (rev (o_items x)) (told c x)) /\
    (rev (o_items x) = o_items x -> c = false).
Proof.
  intros H [item Hs] Hw Hsc Hh.
  destruct (lists_differ_scalars E depth (o_items x) (rev (o_items x)) st Hsc) as (c & Hc & Hsame).
  { by apply Forall_rev. }
  exists c. split; [|by intros Hrev; apply Hsame].
  unfold reverse. rewrite (bind_ok _ _ _ _ _ (list_policy_ok _ _ _ H Hw)).
  rewrite (bind_ok _ _ _ _ _ (items_of_run _ _ _ H)).
  rewrite (bind_ok _ _ _ _ _ Hc).
  rewrite (bind_ok _ _ _ _ _
             (notify_run _ _ _ _ _ _ H (list_not_catalog _ _ _ _ H Hs) (Hh c))).
  by rewrite (set_items_run _ x) by done.
Qed.

(** [reverse] reverses the items and tells the owners once; [changed] is
    false when the list reads the same both ways.  Reversing twice gives
    the list back. *)
Theorem reverse_twice (E : env) (depth : nat) (self : objid) (x : obj) (st : state) :
  let r := calls_at E (S depth) in
  heap st !! self = Some x -> (exists item, o_shape x = ListOf item) -> writable x = true ->
  Forall (fun v => scalar v = true) (o_items x) ->
  (forall c, heard E (heap st) c x) ->
  exists c c',
    reverse E r self st = (Ok tt, with_list st self x (rev (o_items x)) (told c x)) /\
    (rev (o_items x) = o_items x -> c = false) /\
    (run reverse E r self; reverse E r self) st
    = (Ok tt, mkState (heap st) (log st ++ told c x ++ told c' x)).
Proof.
  intros r H Hs Hw Hsc Hh.
  destruct (reverse_run E depth self x st H Hs Hw Hsc Hh) as (c & Hrev & Hc).
  set (x1 := with_items x (rev (o_items x))).
  set (st1 := with_list st self x (rev (o_items x)) (told c x)) in *.
  assert (heap st1 !! self = Some x1) as H1 by (simpl; by rewrite lookup_insert_eq).
  destruct (reverse_run E depth self x1 st1 H1) as (c' & Hrev' & _).
  - destruct Hs as [item Hs]. by exists item.
  - done.
  - simpl. by apply Forall_rev.
  - intros b. simpl. apply heard_with_items; [done|]. apply (Hh b).
  - exists c, c'. split_and!; [done..|].
    rewrite (bind_ok _ _ _ _ _ Hrev). unfold r. rewrite Hrev'.
    unfold with_list. simpl. rewrite insert_insert_eq, rev_involutive.
    change (with_items x1 (o_items x)) with (with_items x (o_items x)).
    rewrite with_items_same, insert_id by done. by rewrite <- app_assoc.
Qed.

Lemma reverse_twice_witness :
  let files := list_of KAttribute [VInt 1; VInt 2] [(2%positive, Some "files")] in
  let st := mkState (heap_of [(1%positive, files);
                              (2%positive, catalog_object "FakeCatalogObject" [])]) [] in
  exists c c',
    reverse permissive (calls_at permissive 1) 1%positive st
    = (Ok tt, with_list st 1%positive files [VInt 2; VInt 1] (told c files)) /\
    (rev (o_items files) = o_items files -> c = false) /\
    (run reverse permissive (calls_at permissive 1) 1%positive;
     reverse permissive (calls_at permissive 1) 1%positive) st
    = (Ok tt, mkState (heap st) (log st ++ told c files ++ told c' files)).
Proof.
  intros files st.
  apply (reverse_twice permissive 0 1%positive files st).
  - reflexivity.
  - by eexists.
  - reflexivity.
  - repeat constructor.
  - intros c. repeat constructor.
Defined.

(** *** Releasing items *)

Lemma release_run self val st :
  release self val st = (Ok tt, mkState (release_in self (heap st) val) (log st)).
Proof.
  unfold release, bind, read, is_mapping, release_in.
  destruct val; try (by destruct st).
  destruct (heap st !! o) as [y|] eqn:Hy; [|by destruct st].
  destruct (o_shape y) eqn:Hs; try (by destruct st).
  unfold remove_model_object, bind, get_obj, read, lookup_obj. rewrite Hy, Hs. done.
Qed.

Lemma for_each_release_run self l st :
  for_each (release self) l st = (Ok tt, mkState (released self l (heap st)) (log st)).
Proof.
  revert st. induction l as [|v l IH]; intros st; simpl.
  - by destruct st.
  - rewrite (bind_ok _ _ _ _ _ (release_run self v st)). by rewrite IH.
Qed.

Lemma dict_pop_idem {K V} `{EqDecision K} (d : list (K * V)) k :
  dict_pop (dict_pop d k) k = dict_pop d k.
Proof. apply dict_pop_absent, dict_get_pop_eq. Qed.

Lemma released_lookup self l h o :
  released self l h !! o = let_go self l o <$> h !! o.
Proof.
  revert h. induction l as [|v l IH]; intros h.
  - simpl. unfold let_go. simpl. by destruct (h !! o).
  - change (released self (v :: l) h) with (released self l (release_in self h v)).
    rewrite IH. unfold let_go. simpl existsb.
    destruct v as [| | | | | | | |o']; simpl release_in; simpl same_object; try done.
    destruct (h !! o') as [y'|] eqn:Hy'; cycle 1.
    { case_bool_decide as Ho; [|done]. subst o'. by rewrite Hy'. }
    destruct (o_shape y') eqn:Hs'.
    + case_bool_decide as Ho; [|done]. subst o'. rewrite Hy'. simpl. rewrite Hs'.
      by rewrite andb_false_r.
    + case_bool_decide as Ho.
      * subst o'. rewrite lookup_insert_eq, Hy'. simpl. rewrite Hs'.
        rewrite dict_pop_idem. by destruct (existsb _ l).
      * by rewrite lookup_insert_ne.
    + case_bool_decide as Ho; [|done]. subst o'. rewrite Hy'. simpl. rewrite Hs'.
      by rewrite andb_false_r.
Qed.

Lemma released_list self l h o x item :
  h !! o = Some x -> o_shape x = ListOf item -> released self l h !! o = Some x.
Proof.
  intros H Hs. rewrite released_lookup, H. simpl. unfold let_go. rewrite Hs.
  by rewrite andb_false_r.
Qed.

Lemma is_catalog_released self l h o :
  is_catalog (released self l h) o = is_catalog h o.
Proof.
  unfold is_catalog. rewrite released_lookup. destruct (h !! o) as [y|]; [|done].
  simpl. unfold let_go.
  destruct (existsb _ l); simpl; [|done]. destruct (o_shape y) eqn:Hs; simpl; by rewrite ?Hs.
Qed.

Lemma heard_released E self l h changed y :
  heard E h changed y -> heard E (released self l h) changed y.
Proof.
  intros Hh. unfold heard. eapply Forall_impl; [exact Hh|].
  intros owner [Hc Hv]. split; [|done]. by rewrite is_catalog_released.
Qed.

Lemma delitem_all_run E depth self x st :
  heap st !! self = Some x -> (exists item, o_shape x = ListOf item) -> writable x = true ->
  let changed := match o_items x with [] => false | _ => true end in
  heard E (heap st) changed x ->
  delitem_all E (calls_at E (S depth)) self st
  = (Ok tt, mkState (<[self := with_items x []]> (released self (o_items x) (heap st)))
                    (log st ++ told changed x)).
Proof.
  intros H [item Hs] Hw changed Hh. unfold delitem_all.
  rewrite (bind_ok _ _ _ _ _ (list_policy_ok _ _ _ H Hw)).
  rewrite (bind_ok _ _ _ _ _ (items_of_run _ _ _ H)).
  rewrite (bind_ok _ _ _ _ _ (for_each_release_run _ _ _)).
  set (st1 := mkState (released self (o_items x) (heap st)) (log st)).
  assert (heap st1 !! self = Some x) as H1 by (by apply (released_list _ _ _ _ _ item)).
  assert (lists_differ (calls_at E (S depth)) (o_items x) [] st1 = (Ok changed, st1)) as Hd.
  { unfold lists_differ, bind, read, builtin_list_eq, changed. by destruct (o_items x). }
  rewrite (bind_ok _ _ _ _ _ Hd).
  rewrite (bind_ok _ _ _ _ _
             (notify_run E depth self x changed st1 H1 (list_not_catalog _ _ _ _ H1 Hs)
                         (heard_released _ _ _ _ _ _ Hh))).
  by rewrite (set_items_run _ x) by done.
Qed.

(** [clear] empties the list, takes the list out of the registry of every
    MappingAttribute item, and tells the owners twice: once itself and once
    more through [del self[:]].  Both notices say [changed=False] when the
    list was empty already. *)
Theorem clear_releases_and_tells_twice (E : env) (depth : nat) (self : objid) (x : obj)
        (st : state) :
  let r := calls_at E (S depth) in
  let changed := match o_items x with [] => false | _ => true end in
  let st' := (clear E r self st).2 in
  heap st !! self = Some x -> (exists item, o_shape x = ListOf item) -> writable x = true ->
  heard E (heap st) changed x ->
  clear E r self st
  = (Ok tt, mkState (<[self := with_items x []]> (released self (o_items x) (heap st)))
                    (log st ++ told changed x ++ told changed x)) /\
  (forall m, VObj m ∈ o_items x -> is_mapping (heap st) (VObj m) = true ->
     dict_get (registry (heap st') m) self = None) /\
  (forall o y, o <> self -> VObj o ∉ o_items x -> heap st !! o = Some y ->
     heap st' !! o = Some y).
Proof.
  intros r changed st' H Hs Hw Hh.
  assert (clear E r self st
          = (Ok tt, mkState (<[self := with_items x []]> (released self (o_items x) (heap st)))
                            (log st ++ told changed x ++ told changed x))) as Hrun.
  { unfold clear. rewrite (bind_ok _ _ _ _ _ (list_policy_ok _ _ _ H Hw)).
    rewrite (bind_ok _ _ _ _ _ (items_of_run _ _ _ H)).
    destruct Hs as [item Hs]. unfold r.
    rewrite (bind_ok _ _ _ _ _
               (notify_run E depth self x changed st H (list_not_catalog _ _ _ _ H Hs) Hh)).
    rewrite (delitem_all_run E depth self x (mkState (heap st) (log st ++ told changed x)))
      by eauto.
    simpl. by rewrite <- app_assoc. }
  split_and!; [done| |].
  - intros m Hm Hmap. unfold st'. rewrite Hrun. simpl. unfold registry.
    unfold is_mapping in Hmap. destruct (heap st !! m) as [y|] eqn:Hy; [|done].
    destruct (o_shape y) eqn:Hsy; try done.
    assert (m <> self) as Hne.
    { intros ->. destruct Hs as [item Hs]. rewrite H in Hy. injection Hy as <-.
      by rewrite Hs in Hsy. }
    rewrite lookup_insert_ne by done. rewrite released_lookup, Hy. simpl.
    unfold let_go. rewrite Hsy.
    assert (existsb (same_object (VObj m)) (o_items x) = true) as ->.
    { apply existsb_exists. exists (VObj m). split; [by apply list_elem_of_In|].
      simpl. by rewrite bool_decide_eq_true_2. }
    simpl. apply dict_get_pop_eq.
  - intros o y Hne Hnot Hy. unfold st'. rewrite Hrun. simpl.
    rewrite lookup_insert_ne by done. rewrite released_lookup, Hy. simpl.
    unfold let_go.
    assert (existsb (same_object (VObj o)) (o_items x) = false) as ->; [|done].
    apply not_true_is_false. intros Hex. apply existsb_exists in Hex as (v & Hin & Hv).
    destruct v; try done. simpl in Hv. apply bool_decide_eq_true_1 in Hv. subst o0.
    by apply Hnot, list_elem_of_In.
Qed.

(** One [File] in a list of files that a catalog object holds. *)
Lemma clear_releases_and_tells_twice_witness :
  let files := list_of (KMapping "File") [VObj 3%positive] [(1%positive, Some "files")] in
  let st := mkState (heap_of
              [(1%positive, catalog_object "FakeCatalogObject" [("files", VObj 2%positive)]);
               (2%positive, files);
               (3%positive, mapping "File" [] [(2%positive, None)])]) [] in
  dict_get (registry (heap (clear permissive (calls_at permissive 1) 2%positive st).2)
                     3%positive) 2%positive = None.
Proof.
  intros files st.
  destruct (clear_releases_and_tells_twice permissive 0 2%positive files st)
    as (_ & Hreg & _).
  - reflexivity.
  - by eexists.
  - reflexivity.
  - repeat constructor.
  - apply Hreg; [apply list_elem_of_here | reflexivity].
Defined.



(** *** [extend] and [+=] *)

Lemma extend_lazily_plain E r self others : forall x st,
  heap st !! self = Some x -> plain_list x = true ->
  extend_lazily E r self others st
  = (Ok tt, mkState (<[self := with_items x (o_items x ++ others)]> (heap st)) (log st)).
Proof.
  unfold extend_lazily. induction others as [|v others IH]; intros x st H Hp.
  - simpl. rewrite app_nil_r, with_items_same, insert_id by done. by destruct st.
  - simpl.
    rewrite (bind_ok _ _ st tt
               (mkState (<[self := with_items x (o_items x ++ [v])]> (heap st)) (log st))).
    + rewrite (IH (with_items x (o_items x ++ [v]))).
      * simpl. rewrite insert_insert_eq. by rewrite <- app_assoc.
      * simpl. by rewrite lookup_insert_eq.
      * done.
    + rewrite (bind_ok _ _ _ _ _ (instantiate_plain _ _ _ _ _ _ _ H Hp)).
      rewrite (bind_ok _ _ _ _ _ (items_of_run _ _ _ H)).
      by apply set_items_run.
Qed.



(** *** Looking for a value *)

Lemma not_mapping_scalar h v : scalar v = true -> is_mapping h v = false.
Proof. by destruct v. Qed.

Lemma find_and_count E depth h l v : forall i0,
  let r := calls_at E (S depth) in
  let differs z := eq_bool r h z v = Ok false in
  Forall (fun z => scalar z = true) l -> scalar v = true ->
  exists n res,
    count_eq r h l v = Ok n /\ find_index r h l v i0 = Ok res /\
    match res with
    | None => n = 0%nat /\ Forall differs l
    | Some i =>
        (0 < n)%nat /\
        exists k y, i = (i0 + k)%nat /\ l !! k = Some y /\ eq_bool r h y v = Ok true /\
                    Forall differs (take k l)
    end.
Proof.
  intros i0 r differs Hl Hv. revert i0.
  induction Hl as [|z l Hz Hl IH]; intros i0.
  - exists 0%nat, None. by repeat split.
  - cbn [count_eq find_index].
    destruct (eq_bool_scalars E depth h z v Hz Hv) as [b Hb]. fold r in Hb. rewrite Hb.
    cbn [obind].
    destruct (IH (S i0)) as (n & res & Hn & Hres & Hspec). rewrite Hn. cbn [obind].
    destruct b.
    + exists (S n), (Some i0). split_and!; [done..|lia|].
      exists 0%nat, z. split_and!; [lia|done|done|by constructor].
    + exists n, res. split_and!; [done..|].
      destruct res as [i|].
      * destruct Hspec as (Hpos & k & y & -> & Hk & Hy & Hbefore).
        split; [done|]. exists (S k), y. split_and!; [lia|done|done|].
        simpl. by constructor.
      * destruct Hspec as [-> Hall]. split; [done|]. by constructor.
Qed.

(** On a list of scalars, [count], [in] and [index] agree and change
    nothing: [in] answers whether the count is positive; [index] raises
    [ValueError] when it is zero and otherwise returns the first position
    whose item equals the value. *)
Theorem count_contains_index (E : env) (depth : nat) (self : objid) (x : obj) (v : value)
        (st : state) :
  let r := calls_at E (S depth) in
  let l := o_items x in
  let differs z := eq_bool r (heap st) z v = Ok false in
  heap st !! self = Some x -> plain_list x = true ->
  Forall (fun z => scalar z = true) l -> scalar v = true ->
  exists n,
    count E r self v st = (Ok n, st) /\
    contains E r self v st = (Ok (0 <? n)%nat, st) /\
    (n = 0%nat -> index E r self v st = (Raise ValueError, st) /\ Forall differs l) /\
    ((0 < n)%nat ->
     exists i y, index E r self v st = (Ok i, st) /\ l !! i = Some y /\
                 eq_bool r (heap st) y v = Ok true /\ Forall differs (take i l)).
Proof.
  intros r l differs H Hp Hl Hv.
  destruct (find_and_count E depth (heap st) l v 0%nat Hl Hv) as (n & res & Hn & Hres & Hspec).
  fold r in Hn, Hres, Hspec.
  assert (count E r self v st = (Ok n, st)) as Hcount.
  { unfold count. rewrite (bind_ok _ _ _ _ _ (instantiate_plain _ _ _ _ _ _ _ H Hp)).
    rewrite (bind_ok _ _ _ _ _ (items_of_run _ _ _ H)). unfold read. fold l. by rewrite Hn. }
  assert (forall A (k : option nat -> M A),
            (do new_value <- instantiate E r self v true;
             do l <- items_of self;
             do i <- read (fun h => find_index r h l new_value 0);
             k i) st = k res st) as Hfind.
  { intros A k. rewrite (bind_ok _ _ _ _ _ (instantiate_plain _ _ _ _ _ _ _ H Hp)).
    rewrite (bind_ok _ _ _ _ _ (items_of_run _ _ _ H)).
    rewrite (bind_ok _ _ st res st); [done|]. unfold read. fold l. by rewrite Hres. }
  exists n. split; [done|].
  unfold contains, index. rewrite !Hfind.
  destruct res as [i|].
  - destruct Hspec as (Hpos & k & y & -> & Hk & Hy & Hbefore).
    split_and!.
    + by rewrite (proj2 (Nat.ltb_lt _ _) Hpos).
    + lia.
    + intros _. exists k, y. by split_and!.
  - destruct Hspec as [-> Hall]. split_and!; [done|done|lia].
Qed.

Lemma count_contains_index_witness :
  let tags := list_of KAttribute [VStr "a"; VStr "b"; VStr "a"] [] in
  let st := mkState (heap_of [(1%positive, tags)]) [] in
  let r := calls_at permissive 1 in
  exists n,
    count permissive r 1%positive (VStr "b") st = (Ok n, st) /\
    contains permissive r 1%positive (VStr "b") st = (Ok (0 <? n)%nat, st) /\
    (n = 0%nat ->
     index permissive r 1%positive (VStr "b") st = (Raise ValueError, st) /\
     Forall (fun z => eq_bool r (heap st) z (VStr "b") = Ok false) (o_items tags)) /\
    ((0 < n)%nat ->
     exists i y, index permissive r 1%positive (VStr "b") st = (Ok i, st) /\
                 o_items tags !! i = Some y /\
                 eq_bool r (heap st) y (VStr "b") = Ok true /\
                 Forall (fun z => eq_bool r (heap st) z (VStr "b") = Ok false)
                        (take i (o_items tags))).
Proof.
  intros tags st r.
  apply (count_contains_index permissive 0 1%positive tags (VStr "b") st).
  - reflexivity.
  - reflexivity.
  - repeat constructor.
  - reflexivity.
Defined.

Lemma index_run E r self x v i st :
  heap st !! self = Some x -> plain_list x = true ->
  find_index r (heap st) (o_items x) v 0 = Ok i ->
  index E r self v st = match i with
                        | Some i => (Ok i, st)
                        | None => (Raise ValueError, st)
                        end.
Proof.
  intros H Hp Hi. unfold index.
  rewrite (bind_ok _ _ _ _ _ (instantiate_plain _ _ _ _ _ _ _ H Hp)).
  rewrite (bind_ok _ _ _ _ _ (items_of_run _ _ _ H)).
  rewrite (bind_ok _ _ st i st) by (unfold read; by rewrite Hi).
  by destruct i.
Qed.

(** [remove] on a list of scalars takes out the first item equal to the
    value and tells the owners once; when no item equals it, [ValueError] is
    raised and nothing has happened. *)
Theorem remove_takes_the_first_match (E : env) (depth : nat) (self : objid) (x : obj)
        (v : value) (st : state) :
  let r := calls_at E (S depth) in
  let l := o_items x in
  let differs z := eq_bool r (heap st) z v = Ok false in
  heap st !! self = Some x -> plain_list x = true -> writable x = true ->
  Forall (fun z => scalar z = true) l -> scalar v = true ->
  heard E (heap st) true x ->
  (Forall differs l /\ remove E r self v st = (Raise ValueError, st)) \/
  (exists i y, l !! i = Some y /\ eq_bool r (heap st) y v = Ok true /\
               Forall differs (take i l) /\
               remove E r self v st
               = (Ok tt, with_list st self x (take i l ++ drop (S i) l) (told true x))).
Proof.
  intros r l differs H Hp Hw Hl Hv Hh.
  destruct (find_and_count E depth (heap st) l v 0%nat Hl Hv) as (n & res & _ & Hres & Hspec).
  fold r in Hres, Hspec.
  pose proof (index_run E r self x v res st H Hp Hres) as Hidx.
  unfold remove. rewrite (bind_ok _ _ _ _ _ (list_policy_ok _ _ _ H Hw)).
  destruct res as [i|].
  - right. destruct Hspec as (_ & k & y & -> & Hk & Hy & Hbefore). simpl in *.
    exists k, y. split_and!; [done..|].
    rewrite (bind_ok _ _ _ _ _ Hidx).
    assert (k < length l)%nat as Hlt by (by apply lookup_lt_Some with y).
    assert (exists item, o_shape x = ListOf item) as Hs.
    { unfold plain_list in Hp. destruct (o_shape x) as [| |item]; [done..|]. by exists item. }
    assert (is_mapping (heap st) (default VNone (o_items x !! k)) = false) as Hnm.
    { fold l. rewrite Hk. simpl. apply not_mapping_scalar.
      eapply (proj1 (Forall_forall _ _) Hl), list_elem_of_lookup_2, Hk. }
    unfold r.
    rewrite (bind_ok _ _ _ _ _
               (pop_run E depth self x (Z.of_nat k) k st H Hs Hw Hh
                        (norm_index_nat _ _ Hlt) Hnm)).
    done.
  - left. destruct Hspec as [_ Hall]. split; [done|].
    by rewrite (bind_raise _ _ _ _ _ Hidx).
Qed.

Lemma remove_takes_the_first_match_witness :
  let tags := list_of KAttribute [VStr "a"; VStr "b"; VStr "a"] [] in
  let st := mkState (heap_of [(1%positive, tags)]) [] in
  let r := calls_at permissive 1 in
  let differs z := eq_bool r (heap st) z (VStr "a") = Ok false in
  (Forall differs (o_items tags) /\
   remove permissive r 1%positive (VStr "a") st = (Raise ValueError, st)) \/
  (exists i y, o_items tags !! i = Some y /\ eq_bool r (heap st) y (VStr "a") = Ok true /\
               Forall differs (take i (o_items tags)) /\
               remove permissive r 1%positive (VStr "a") st
               = (Ok tt, with_list st 1%positive tags
                                   (take i (o_items tags) ++ drop (S i) (o_items tags))
                                   (told true tags))).
Proof.
  intros tags st r differs.
  apply (remove_takes_the_first_match permissive 0 1%positive tags (VStr "a") st).
  - reflexivity.
  - reflexivity.
  - reflexivity.
  - repeat constructor.
  - reflexivity.
  - constructor.
Defined.

(** *** Equality of list values *)

(** A list value equals itself whatever it holds, equals the builtin list
    of its items with either one on the left, and differs from a builtin
    list of another length and from anything that is not a list. *)
Theorem list_value_equality (E : env) (depth : nat) (h : gmap objid obj) (L : objid)
        (x : obj) (item : kind) :
  let eq := c_eq (calls_at E (S (S depth))) h in
  h !! L = Some x -> o_shape x = ListOf item ->
  eq (VObj L) (VObj L) = Ok true /\
  (Forall (fun v => scalar v = true) (o_items x) ->
   eq (VObj L) (VList (o_items x)) = Ok true /\
   eq (VList (o_items x)) (VObj L) = Ok true) /\
  (forall l, length l <> length (o_items x) ->
     eq (VObj L) (VList l) = Ok false /\ eq (VList l) (VObj L) = Ok false) /\
  (forall v, scalar v = true ->
     eq (VObj L) v = Ok false /\ eq v (VObj L) = Ok false).
Proof.
  intros eq H Hs. unfold eq.
  change (c_eq (calls_at E (S (S depth)))) with (eq_body E (calls_at E (S depth))).
  assert (forall w, method_eq E (calls_at E (S depth)) h L w
                    = ListAttribute_eq E (calls_at E (S depth)) h L x w) as Hm.
  { intros w. unfold method_eq, lookup_obj. rewrite H. simpl. by rewrite Hs. }
  split_and!.
  - simpl. unfold lookup_obj. rewrite H. simpl.
    rewrite bool_decide_eq_true_2 by done. simpl. rewrite Hm.
    unfold ListAttribute_eq. simpl. by rewrite bool_decide_eq_true_2.
  - intros Hsc.
    assert (ListAttribute_eq E (calls_at E (S depth)) h L x (VList (o_items x)) = Ok true)
      as Heq.
    { unfold ListAttribute_eq. simpl. rewrite Nat.eqb_refl. simpl.
      apply zip_eq_scalars; [|done]. intros v Hv. by apply scalar_eq_refl. }
    split; simpl; by rewrite Hm.
  - intros l Hlen.
    assert (ListAttribute_eq E (calls_at E (S depth)) h L x (VList l) = Ok false) as Heq.
    { unfold ListAttribute_eq. simpl.
      by rewrite (proj2 (Nat.eqb_neq (length (o_items x)) (length l))). }
    split; simpl; by rewrite Hm.
  - intros v Hv.
    assert (ListAttribute_eq E (calls_at E (S depth)) h L x v = Ok false) as Heq.
    { unfold ListAttribute_eq. by destruct v. }
    split; destruct v; try done; simpl; by rewrite Hm.
Qed.

Lemma list_value_equality_witness :
  let tags := list_of KAttribute [VStr "a"; VInt 1] [] in
  let h := heap_of [(1%positive, tags)] in
  let eq := c_eq (calls_at permissive 2) h in
  eq (VObj 1%positive) (VList [VStr "a"; VInt 1]) = Ok true /\
  eq (VList [VStr "a"; VInt 1]) (VObj 1%positive) = Ok true.
Proof.
  intros tags h eq.
  destruct (list_value_equality permissive 0 h 1%positive tags KAttribute) as (_ & Hsame & _).
  - reflexivity.
  - reflexivity.
  - apply Hsame. repeat constructor.
Defined.

(** *** Lists of MappingAttribute items *)

Lemma dict_pop_set {K V} `{EqDecision K} (d : list (K * V)) k v :
  dict_pop (dict_set d k v) k = dict_pop d k.
Proof.
  induction d as [|[k' v'] d IH]; simpl.
  - by rewrite decide_True.
  - destruct (decide (k' = k)) as [->|Hne]; simpl.
    + by rewrite decide_True.
    + rewrite decide_False by done. by rewrite IH.
Qed.

Lemma is_catalog_with_registry h m y reg o :
  h !! m = Some y -> is_catalog (<[m := with_model_objects y reg]> h) o = is_catalog h o.
Proof.
  intros H. unfold is_catalog. destruct (decide (o = m)) as [->|Hne].
  - by rewrite lookup_insert_eq, H.
  - by rewrite lookup_insert_ne.
Qed.

Lemma heard_with_registry E h m y reg changed z :
  h !! m = Some y -> heard E h changed z ->
  heard E (<[m := with_model_objects y reg]> h) changed z.
Proof.
  intros H Hh. unfold heard. eapply Forall_impl; [exact Hh|].
  intros owner [Hc Hv]. split; [|done]. by rewrite (is_catalog_with_registry _ _ _ _ _ H).
Qed.

(** Instantiating an item that is a MappingAttribute instance already
    registers the list with it. *)
Lemma instantiate_instance E r self x m y st :
  heap st !! self = Some x -> mapping_list x = true ->
  heap st !! m = Some y -> o_shape y = Mapping ->
  instantiate E r self (VObj m) true st
  = (Ok (VObj m),
     mkState (<[m := with_model_objects y (dict_set (o_model_objects y) self None)]> (heap st))
             (log st)).
Proof.
  intros H Hml Hm Hs. unfold instantiate.
  rewrite (bind_ok _ _ _ _ _ (get_obj_run _ _ _ H)).
  unfold mapping_list in Hml. unfold item_kind.
  destruct (o_shape x) as [| |[]]; try done. unfold instantiate_item.
  rewrite (bind_ok _ _ st true st) by (unfold read, is_mapping; by rewrite Hm, Hs).
  rewrite (bind_ok _ _ st (VObj m) st) by done.
  erewrite bind_ok; [done|].
  unfold add_model_object. rewrite (bind_ok _ _ _ _ _ (get_obj_run _ _ _ Hm)).
  by rewrite Hs.
Qed.

(** Assigning to a slot the MappingAttribute item that is in it already
    leaves the list as it was, but the item no longer has the list in its
    registry: the new item is registered first and the previous one, which
    is the same object, is deregistered last. *)
Theorem setitem_same_item_unregisters (E : env) (depth : nat) (self m : objid) (x y : obj)
        (i : Z) (k : nat) (same : bool) (st : state) :
  let r := calls_at E (S depth) in
  let registered := with_model_objects y (dict_set (o_model_objects y) self None) in
  let st' := (setitem E r self i (VObj m) st).2 in
  heap st !! self = Some x -> mapping_list x = true -> writable x = true ->
  heap st !! m = Some y -> o_shape y = Mapping ->
  norm_index (length (o_items x)) i = Some k -> o_items x !! k = Some (VObj m) ->
  c_eq r (<[m := registered]> (heap st)) (VObj m) (VObj m) = Ok same ->
  heard E (heap st) (negb same) x ->
  setitem E r self i (VObj m) st
  = (Ok tt, mkState (<[m := with_model_objects y (dict_pop (o_model_objects y) self)]> (heap st))
                    (log st ++ told (negb same) x)) /\
  o_items <$> heap st' !! self = Some (o_items x) /\
  dict_get (registry (heap st') m) self = None.
Proof.
  intros r registered st' H Hml Hw Hm Hs Hk Hitem Heq Hh.
  assert (m <> self) as Hne.
  { intros ->. rewrite H in Hm. injection Hm as <-. unfold mapping_list in Hml.
    by rewrite Hs in Hml. }
  assert (exists item, o_shape x = ListOf item) as [item Hsx].
  { unfold mapping_list in Hml. destruct (o_shape x) as [| |item]; [done..|]. by exists item. }
  assert (setitem E r self i (VObj m) st
          = (Ok tt, mkState (<[m := with_model_objects y (dict_pop (o_model_objects y) self)]>
                               (heap st))
                            (log st ++ told (negb same) x))) as Hrun.
  { unfold setitem. rewrite (bind_ok _ _ _ _ _ (list_policy_ok _ _ _ H Hw)).
    rewrite (bind_ok _ _ _ _ _ (items_of_run _ _ _ H)). rewrite Hk, Hitem. simpl default.
    rewrite (bind_ok _ _ _ _ _ (instantiate_instance E r self x m y st H Hml Hm Hs)).
    fold registered.
    set (st1 := mkState (<[m := registered]> (heap st)) (log st)).
    assert (heap st1 !! self = Some x) as H1 by (simpl; by rewrite lookup_insert_ne).
    assert (read (fun h => c_eq r h (VObj m) (VObj m)) st1 = (Ok same, st1)) as Hsame.
    { unfold read. change (heap st1) with (<[m:=registered]> (heap st)). by rewrite Heq. }
    rewrite (bind_ok _ _ st1 same st1) by exact Hsame.
    unfold r.
    rewrite (bind_ok _ _ _ _ _
               (notify_run E depth self x (negb same) st1 H1
                           (list_not_catalog _ _ _ _ H1 Hsx)
                           (heard_with_registry _ _ _ _ _ _ _ Hm Hh))).
    set (st2 := mkState (heap st1) (log st1 ++ told (negb same) x)).
    rewrite (bind_ok _ _ st2 (o_items x) st2) by (by apply items_of_run).
    rewrite (bind_ok _ _ st2 tt st2); cycle 1.
    { rewrite (set_items_run _ x) by done.
      rewrite list_insert_id, with_items_same, insert_id by done. by destruct st2. }
    rewrite release_run. simpl. rewrite lookup_insert_eq. simpl. rewrite Hs.
    by rewrite insert_insert_eq, dict_pop_set. }
  unfold st'. rewrite Hrun. simpl. split_and!; [done| |].
  - by rewrite lookup_insert_ne, H.
  - unfold registry. rewrite lookup_insert_eq. simpl. apply dict_get_pop_eq.
Qed.

Lemma setitem_same_item_unregisters_witness :
  let files := list_of (KMapping "File") [VObj 3%positive] [(1%positive, Some "files")] in
  let st := mkState (heap_of
              [(1%positive, catalog_object "FakeCatalogObject" [("files", VObj 2%positive)]);
               (2%positive, files);
               (3%positive, mapping "File" [("href", VStr "gs://a")] [(2%positive, None)])]) [] in
  let st' := (setitem permissive (calls_at permissive 3) 2%positive 0 (VObj 3%positive) st).2 in
  o_items <$> heap st' !! 2%positive = Some [VObj 3%positive] /\
  dict_get (registry (heap st') 3%positive) 2%positive = None.
Proof.
  intros files st st'.
  destruct (setitem_same_item_unregisters permissive 2 2%positive 3%positive files
              (mapping "File" [("href", VStr "gs://a")] [(2%positive, None)])
              0 0 true st) as (_ & Hitems & Hreg).
  - reflexivity.
  - reflexivity.
  - reflexivity.
  - reflexivity.
  - reflexivity.
  - reflexivity.
  - reflexivity.
  - by vm_compute.
  - repeat constructor.
  - by split.
Defined.

(** A deletion the first owner refuses: [__delitem__] has taken the list
    out of the item's registry before it asks, so the call raises with the
    item still in the list and no longer registered with it. *)
Theorem refused_delitem_unregisters (E : env) (depth : nat) (self m owner : objid)
        (x y : obj) (nm : option string) (others : list (objid * option string))
        (i : Z) (k : nat) (st : state) :
  let r := calls_at E (S depth) in
  let st' := (delitem E r self i st).2 in
  heap st !! self = Some x -> (exists item, o_shape x = ListOf item) -> writable x = true ->
  heap st !! m = Some y -> o_shape y = Mapping ->
  norm_index (length (o_items x)) i = Some k -> o_items x !! k = Some (VObj m) ->
  o_model_objects x = (owner, nm) :: others ->
  is_catalog (heap st) owner = true -> veto E owner nm true true = true ->
  delitem E r self i st
  = (Raise CallbackError,
     mkState (<[m := with_model_objects y (dict_pop (o_model_objects y) self)]> (heap st))
             (log st)) /\
  o_items <$> heap st' !! self = Some (o_items x) /\
  dict_get (registry (heap st') m) self = None.
Proof.
  intros r st' H [item Hsx] Hw Hm Hs Hk Hitem Hown Hcat Hveto.
  assert (m <> self) as Hne.
  { intros ->. rewrite H in Hm. injection Hm as <-. by rewrite Hs in Hsx. }
  assert (owner <> m) as Hom.
  { intros ->. unfold is_catalog in Hcat. by rewrite Hm, Hs in Hcat. }
  assert (delitem E r self i st
          = (Raise CallbackError,
             mkState (<[m := with_model_objects y (dict_pop (o_model_objects y) self)]> (heap st))
                     (log st))) as Hrun.
  { unfold delitem. rewrite (bind_ok _ _ _ _ _ (list_policy_ok _ _ _ H Hw)).
    rewrite (bind_ok _ _ _ _ _ (items_of_run _ _ _ H)). rewrite Hk, Hitem. simpl default.
    rewrite (bind_ok _ _ _ _ _ (release_run _ _ _)).
    simpl release_in. rewrite Hm, Hs.
    set (st1 := mkState _ (log st)).
    assert (heap st1 !! self = Some x) as H1 by (simpl; by rewrite lookup_insert_ne).
    assert (lists_differ r (o_items x) (take k (o_items x) ++ drop (S k) (o_items x)) st1
            = (Ok true, st1)) as Hd.
    { unfold lists_differ, bind, read, builtin_list_eq.
      apply norm_index_Some in Hk as [Hlt _].
      rewrite (proj2 (Nat.eqb_neq _ _)); [done|].
      rewrite length_app, length_take, length_drop. lia. }
    rewrite (bind_ok _ _ _ _ _ Hd).
    apply bind_raise. unfold notify, set_modified_body.
    rewrite (bind_ok _ _ _ _ _ (get_obj_run _ _ _ H1)). rewrite Hsx, Hown.
    cbn [for_each]. apply bind_raise. cbn [fst snd]. unfold r.
    change (c_set_modified (calls_at E (S depth)))
      with (set_modified_body E (calls_at E depth)).
    unfold set_modified_body, is_catalog in *.
    destruct (heap st !! owner) as [xo|] eqn:Ho; [|done].
    assert (heap st1 !! owner = Some xo) as Ho1 by (simpl; by rewrite lookup_insert_ne).
    rewrite (bind_ok _ _ _ _ _ (get_obj_run _ _ _ Ho1)).
    destruct (o_shape xo); [|done..]. by rewrite Hveto. }
  unfold st'. rewrite Hrun. simpl. split_and!; [done| |].
  - by rewrite lookup_insert_ne, H.
  - unfold registry. rewrite lookup_insert_eq. simpl. apply dict_get_pop_eq.
Qed.

Lemma refused_delitem_unregisters_witness :
  let files := list_of (KMapping "File") [VObj 3%positive] [(1%positive, Some "files")] in
  let st := mkState (heap_of
              [(1%positive, catalog_object "FakeCatalogObject" [("files", VObj 2%positive)]);
               (2%positive, files);
               (3%positive, mapping "File" [] [(2%positive, None)])]) [] in
  let st' := (delitem wary (calls_at wary 1) 2%positive 0 st).2 in
  (delitem wary (calls_at wary 1) 2%positive 0 st).1 = Raise CallbackError /\
  o_items <$> heap st' !! 2%positive = Some [VObj 3%positive] /\
  dict_get (registry (heap st') 3%positive) 2%positive = None.
Proof.
  intros files st st'.
  destruct (refused_delitem_unregisters wary 0 2%positive 3%positive 1%positive files
              (mapping "File" [] [(2%positive, None)]) (Some "files") [] 0 0 st)
    as (Hrun & Hitems & Hreg).
  - reflexivity.
  - by eexists.
  - reflexivity.
  - reflexivity.
  - reflexivity.
  - reflexivity.
  - reflexivity.
  - reflexivity.
  - reflexivity.
  - reflexivity.
  - split_and!; [by rewrite Hrun | done | done].
Defined.

Lemma for_each_app {A} (f : A -> M unit) l1 l2 st :
  for_each f (l1 ++ l2) st = (run for_each f l1; for_each f l2) st.
Proof.
  revert st. induction l1 as [|a l1 IH]; intros st; [reflexivity|].
  cbn [app for_each]. destruct (f a st) as [[[]|e] st1] eqn:Hf.
  - rewrite (bind_ok _ _ _ _ _ Hf). rewrite IH.
    unfold bind at 2 3. by rewrite Hf.
  - rewrite (bind_raise _ _ _ _ _ Hf). unfold bind at 1 2. by rewrite Hf.
Qed.

Lemma is_mapping_with_registry h m y reg v :
  h !! m = Some y -> is_mapping (<[m := with_model_objects y reg]> h) v = is_mapping h v.
Proof.
  intros H. destruct v; try done. simpl. destruct (decide (o = m)) as [->|Hne].
  - by rewrite lookup_insert_eq, H.
  - by rewrite lookup_insert_ne.
Qed.

(** Extending a list of mappings by instances: each is registered and
    appended in turn. *)
Lemma extend_lazily_instances E r self ms : forall x st,
  heap st !! self = Some x -> mapping_list x = true ->
  Forall (fun m => is_mapping (heap st) (VObj m) = true) ms ->
  exists st1,
    extend_lazily E r self (VObj <$> ms) st = (Ok tt, st1) /\
    log st1 = log st /\
    heap st1 !! self = Some (with_items x (o_items x ++ (VObj <$> ms))) /\
    (forall v, is_mapping (heap st1) v = is_mapping (heap st) v) /\
    (forall o, o <> self -> dict_get (registry (heap st) o) self = Some None ->
               dict_get (registry (heap st1) o) self = Some None) /\
    (forall m, m ∈ ms -> dict_get (registry (heap st1) m) self = Some None).
Proof.
  induction ms as [|m ms IH]; intros x st H Hml Hms.
  - exists st. split_and!; try done.
    + by rewrite fmap_nil, app_nil_r, with_items_same.
    + intros m Hm. by apply elem_of_nil in Hm.
  - apply Forall_cons in Hms as [Hm Hms].
    unfold is_mapping in Hm. destruct (heap st !! m) as [y|] eqn:Hy; [|done].
    destruct (o_shape y) eqn:Hs; try done.
    assert (m <> self) as Hne.
    { intros ->. rewrite H in Hy. injection Hy as <-. unfold mapping_list in Hml.
      by rewrite Hs in Hml. }
    set (y1 := with_model_objects y (dict_set (o_model_objects y) self None)).
    set (x1 := with_items x (o_items x ++ [VObj m])).
    set (st1 := mkState (<[self := x1]> (<[m := y1]> (heap st))) (log st)).
    assert (heap st1 !! self = Some x1) as H1 by (simpl; by rewrite lookup_insert_eq).
    assert (forall v, is_mapping (heap st1) v = is_mapping (heap st) v) as Hsame.
    { intros v. simpl. unfold x1.
      rewrite (is_mapping_with_items _ self x) by (by rewrite lookup_insert_ne).
      by apply is_mapping_with_registry. }
    destruct (IH x1 st1 H1 Hml) as (st2 & Hrun & Hlog & Hself & Hmap & Hkeep & Hreg).
    { eapply Forall_impl; [exact Hms|]. intros m' Hm'. simpl in Hm'. by rewrite Hsame. }
    exists st2. split_and!.
    + rewrite fmap_cons. unfold extend_lazily in *. cbn [for_each].
      rewrite (bind_ok _ _ st tt st1); [done|].
      rewrite (bind_ok _ _ _ _ _ (instantiate_instance E r self x m y st H Hml Hy Hs)).
      fold y1.
      set (sta := mkState (<[m := y1]> (heap st)) (log st)).
      assert (heap sta !! self = Some x) as Ha by (simpl; by rewrite lookup_insert_ne).
      rewrite (bind_ok _ _ _ _ _ (items_of_run _ _ _ Ha)).
      by rewrite (set_items_run _ _ _ _ Ha).
    + by rewrite Hlog.
    + rewrite Hself. unfold x1. rewrite fmap_cons.
      change (o_items (with_items x (o_items x ++ [VObj m]))) with (o_items x ++ [VObj m]).
      rewrite <- app_assoc. reflexivity.
    + intros v. by rewrite Hmap.
    + intros o Ho Hr. apply Hkeep; [done|]. unfold registry in *. simpl.
      rewrite lookup_insert_ne by done.
      destruct (decide (o = m)) as [->|Hom].
      * rewrite lookup_insert_eq. simpl. apply dict_get_set_eq.
      * by rewrite lookup_insert_ne.
    + intros m' Hm'. apply elem_of_cons in Hm' as [->|Hm']; [|by apply Hreg].
      apply Hkeep; [done|]. unfold registry. simpl.
      rewrite lookup_insert_ne, lookup_insert_eq by done. simpl. apply dict_get_set_eq.
Qed.

(** [extend] is not all or nothing.  The owners are told first and the
    items are instantiated one by one while the list grows, so when an item
    cannot be instantiated the call raises with the owners already told,
    the items before it appended and registered with the list. *)
Theorem extend_stops_half_way (E : env) (depth : nat) (self : objid) (x : obj)
        (other : value) (ms : list objid) (bad : value) (rest : list value) (st : state) :
  let r := calls_at E (S depth) in
  let st' := (extend E r self other st).2 in
  heap st !! self = Some x -> mapping_list x = true -> writable x = true ->
  heard E (heap st) true x ->
  iter_values (heap st) other = Ok ((VObj <$> ms) ++ bad :: rest) ->
  Forall (fun m => is_mapping (heap st) (VObj m) = true) ms ->
  scalar bad = true ->
  (extend E r self other st).1 = Raise TypeError /\
  o_items <$> heap st' !! self = Some (o_items x ++ (VObj <$> ms)) /\
  log st' = log st ++ told true x /\
  (forall m, m ∈ ms -> dict_get (registry (heap st') m) self = Some None).
Proof.
  intros r st' H Hml Hw Hh Hit Hms Hbad.
  assert (exists item, o_shape x = ListOf item) as [item Hsx].
  { unfold mapping_list in Hml. destruct (o_shape x) as [| |item]; [done..|]. by exists item. }
  set (st0 := mkState (heap st) (log st ++ told true x)).
  destruct (extend_lazily_instances E r self ms x st0 H Hml Hms)
    as (st1 & Hrun & Hlog & Hself & Hmap & _ & Hreg).
  assert (extend E r self other st = (Raise TypeError, st1)) as Hext.
  { unfold extend. rewrite (bind_ok _ _ _ _ _ (list_policy_ok _ _ _ H Hw)).
    rewrite (bind_ok _ _ st _ st) by (unfold read; by rewrite Hit).
    unfold r.
    rewrite (bind_ok _ _ _ _ _
               (notify_run E depth self x true st H (list_not_catalog _ _ _ _ H Hsx) Hh)).
    fold st0. unfold extend_lazily. rewrite for_each_app.
    unfold extend_lazily in Hrun. rewrite (bind_ok _ _ _ _ _ Hrun).
    cbn [for_each]. apply bind_raise, bind_raise.
    unfold instantiate. rewrite (bind_ok _ _ _ _ _ (get_obj_run _ _ _ Hself)).
    unfold item_kind. simpl o_shape. unfold mapping_list in Hml.
    destruct (o_shape x) as [| |[]]; try done. unfold instantiate_item.
    rewrite (bind_ok _ _ st1 false st1); cycle 1.
    { unfold read. rewrite Hmap. by rewrite (not_mapping_scalar _ _ Hbad). }
    apply bind_raise. by destruct bad. }
  unfold st'. rewrite Hext. simpl. split_and!; [done| | |done].
  - by rewrite Hself.
  - by rewrite Hlog.
Qed.

Lemma extend_stops_half_way_witness :
  let files := list_of (KMapping "File") [] [(1%positive, Some "files")] in
  let st := mkState (heap_of
              [(1%positive, catalog_object "FakeCatalogObject" [("files", VObj 2%positive)]);
               (2%positive, files);
               (3%positive, mapping "File" [] [])]) [] in
  let other := VList [VObj 3%positive; VInt 7; VObj 3%positive] in
  let st' := (extend permissive (calls_at permissive 1) 2%positive other st).2 in
  (extend permissive (calls_at permissive 1) 2%positive other st).1 = Raise TypeError /\
  o_items <$> heap st' !! 2%positive = Some [VObj 3%positive] /\
  log st' = [mkNotice 1%positive (Some "files") true true] /\
  (forall m, m ∈ [3%positive] -> dict_get (registry (heap st') m) 2%positive = Some None).
Proof.
  intros files st other st'.
  apply (extend_stops_half_way permissive 0 2%positive files other [3%positive] (VInt 7)
           [VObj 3%positive] st).
  - reflexivity.
  - reflexivity.
  - reflexivity.
  - repeat constructor.
  - reflexivity.
  - repeat constructor.
  - reflexivity.
Defined.

(** ** Setting and getting *)

Lemma policy_state p name obj st res st' :
  raise_if_immutable_or_readonly p name obj st = (res, st') -> st' = st.
Proof.
  unfold raise_if_immutable_or_readonly.
  destruct (p_readonly p); [by intros [= _ <-]|].
  destruct (negb (p_mutable p)); [|by intros [= _ <-]].
  destruct obj as [o|]; [|by intros [= _ <-]].
  unfold bind, get_obj, read. destruct (lookup_obj (heap st) o) as [x|e]; [|by intros [= _ <-]].
  destruct (dict_has _ _); by intros [= _ <-].
Qed.

Lemma guarded_policy_state p name obj (validate : bool) st res st' :
  (if validate then raise_if_immutable_or_readonly p name obj else ret tt) st = (res, st') ->
  st' = st.
Proof. destruct validate; [apply policy_state | by intros [= _ <-]]. Qed.

Lemma store_inv o name v u st st' :
  store o name v st = (Ok u, st') ->
  exists x, heap st !! o = Some x /\
            st' = with_store st o x (dict_set (o_attributes x) name v).
Proof.
  unfold store, bind, get_obj, read, lookup_obj.
  destruct (heap st !! o) as [x|]; [|done]. intros [= _ <-]. by exists x.
Qed.

Lemma get_after_store o name v st x :
  heap st !! o = Some x ->
  dict_get (o_attributes x) name = Some v ->
  forall a, a_name a = name -> Attribute_get a o st = (Ok v, st).
Proof.
  intros H Hv a <-. unfold Attribute_get.
  rewrite (bind_ok _ _ _ _ _ (get_obj_run _ _ _ H)). by rewrite Hv.
Qed.

Lemma id_field_differs name : id_field name <> name.
Proof.
  unfold id_field. intros Heq. apply (f_equal String.length) in Heq.
  rewrite length_append in Heq. simpl in Heq. lia.
Qed.

(** What [__set__] stores is what [__get__] reads back.  Whenever a set
    returns, the owner holds a value under the attribute's name: the value
    [deserialize] made of the argument, or for a reference the argument
    itself. *)
Theorem set_then_get (E : env) (depth : nat) (a : attribute) (o : objid) (v : value)
        (validate : bool) (st st' : state) :
  c_set (calls_at E (S depth)) a o v validate st = (Ok tt, st') ->
  exists v',
    Attribute_get a o st' = (Ok v', st') /\
    if is_reference a then v' = v
    else exists st1, c_deserialize (calls_at E depth) a v validate st = (Ok v', st1).
Proof.
  change (c_set (calls_at E (S depth))) with (set_body E (calls_at E depth)).
  unfold set_body, is_reference.
  destruct (a_kind a) as [| | | | |cls allow|cls|item] eqn:Hk.
  1-5: unfold Attribute_set; intros H;
    apply bind_inv_ok in H as (u0 & st0 & Hpol & H);
    apply guarded_policy_state in Hpol; subst st0;
    apply bind_inv_ok in H as (v' & st1 & Hdes & H);
    apply bind_inv_ok in H as (c & st2 & _ & H);
    apply bind_inv_ok in H as (u1 & st3 & _ & H);
    apply store_inv in H as (y3 & H3 & ->);
    exists v'; (split; [|by exists st1]).
  1-5: apply (get_after_store _ (a_name a) _ _
             (with_attributes y3 (dict_set (o_attributes y3) (a_name a) v'))).
  all: try done.
  all: try (unfold with_store; simpl; by rewrite lookup_insert_eq).
  all: try (simpl; apply dict_get_set_eq).
  - unfold CatalogObjectReference_set. intros H.
    apply bind_inv_ok in H as (u0 & st0 & _ & H).
    apply bind_inv_ok in H as (u1 & st1 & _ & H).
    apply bind_inv_ok in H as (c & st2 & _ & H).
    apply bind_inv_ok in H as (u2 & st3 & _ & H).
    apply bind_inv_ok in H as (u3 & st4 & Hstore & H).
    apply bind_inv_ok in H as (u4 & st5 & Hmod & H).
    apply bind_inv_ok in H as (i & st6 & Hread & H).
    apply store_inv in Hstore as (y3 & H3 & ->).
    apply store_inv in H as (y6 & H6 & ->).
    assert (st6 = st5) as -> by (unfold read in Hread; by injection Hread).
    destruct (sound_calls_at E depth) as (Hsm & _ & _).
    pose proof (Hsm o (Some (id_field (a_name a))) c false
                    (with_store st3 o y3 (dict_set (o_attributes y3) (a_name a) v))) as Hkept.
    rewrite Hmod in Hkept. unfold with_store in *. simpl in Hkept.
    destruct (Hkept o (with_attributes y3 (dict_set (o_attributes y3) (a_name a) v)))
      as (x' & Hx' & _ & _ & Hattrs).
    { unfold with_store. simpl. by rewrite lookup_insert_eq. }
    rewrite H6 in Hx'. injection Hx' as <-.
    destruct Hattrs as [Hattrs _]; [set_solver|].
    exists v. split; [|done].
    apply (get_after_store _ (a_name a) _ _
             (with_attributes y6 (dict_set (o_attributes y6) (id_field (a_name a)) i))).
    + unfold with_store. simpl. by rewrite lookup_insert_eq.
    + simpl. rewrite dict_get_set_ne by apply id_field_differs.
      rewrite Hattrs. simpl. apply dict_get_set_eq.
    + done.
  - unfold Container_set. intros H.
    apply bind_inv_ok in H as (u0 & st0 & Hpol & H).
    apply guarded_policy_state in Hpol. subst st0.
    apply bind_inv_ok in H as (v' & st1 & Hdes & H).
    apply bind_inv_ok in H as (y1 & st2 & _ & H).
    apply bind_inv_ok in H as (c & st3 & _ & H).
    apply bind_inv_ok in H as (u1 & st4 & _ & H).
    apply bind_inv_ok in H as (u2 & st5 & _ & H).
    apply bind_inv_ok in H as (u3 & st6 & _ & H).
    apply store_inv in H as (y6 & H6 & ->).
    exists v'. split; [|by exists st1].
    apply (get_after_store _ (a_name a) _ _
             (with_attributes y6 (dict_set (o_attributes y6) (a_name a) v'))).
    + unfold with_store. simpl. by rewrite lookup_insert_eq.
    + simpl. apply dict_get_set_eq.
    + done.
  - unfold Container_set. intros H.
    apply bind_inv_ok in H as (u0 & st0 & Hpol & H).
    apply guarded_policy_state in Hpol. subst st0.
    apply bind_inv_ok in H as (v' & st1 & Hdes & H).
    apply bind_inv_ok in H as (y1 & st2 & _ & H).
    apply bind_inv_ok in H as (c & st3 & _ & H).
    apply bind_inv_ok in H as (u1 & st4 & _ & H).
    apply bind_inv_ok in H as (u2 & st5 & _ & H).
    apply bind_inv_ok in H as (u3 & st6 & _ & H).
    apply store_inv in H as (y6 & H6 & ->).
    exists v'. split; [|by exists st1].
    apply (get_after_store _ (a_name a) _ _
             (with_attributes y6 (dict_set (o_attributes y6) (a_name a) v'))).
    + unfold with_store. simpl. by rewrite lookup_insert_eq.
    + simpl. apply dict_get_set_eq.
    + done.
Qed.

Lemma set_then_get_witness :
  let st' := (c_set (calls_at permissive 3) foo_attr 3%positive (VStr "baz") true shared).2 in
  exists v',
    Attribute_get foo_attr 3%positive st' = (Ok v', st') /\
    if is_reference foo_attr then v' = VStr "baz"
    else exists st1,
        c_deserialize (calls_at permissive 2) foo_attr (VStr "baz") true shared = (Ok v', st1).
Proof.
  intros st'.
  apply (set_then_get permissive 2 foo_attr 3%positive (VStr "baz") true shared st').
  by vm_compute.
Defined.

(** *** Container attributes *)

Lemma add_model_object_run m y owner nm st :
  heap st !! m = Some y -> is_catalog (heap st) m = false ->
  add_model_object (VObj m) owner nm st
  = (Ok tt, mkState (<[m := with_model_objects y (dict_set (o_model_objects y) owner nm)]>
                       (heap st)) (log st)).
Proof.
  intros H Hc. unfold add_model_object. rewrite (bind_ok _ _ _ _ _ (get_obj_run _ _ _ H)).
  unfold is_catalog in Hc. rewrite H in Hc. by destruct (o_shape y).
Qed.

Lemma remove_model_object_run m y owner st :
  heap st !! m = Some y -> is_catalog (heap st) m = false ->
  remove_model_object (VObj m) owner st
  = (Ok tt, mkState (<[m := with_model_objects y (dict_pop (o_model_objects y) owner)]>
                       (heap st)) (log st)).
Proof.
  intros H Hc. unfold remove_model_object. rewrite (bind_ok _ _ _ _ _ (get_obj_run _ _ _ H)).
  unfold is_catalog in Hc. rewrite H in Hc. by destruct (o_shape y).
Qed.

Lemma deserialize_instance E depth a m y (validate : bool) st :
  heap st !! m = Some y -> fits a y = true ->
  c_deserialize (calls_at E (S depth)) a (VObj m) validate st = (Ok (VObj m), st).
Proof.
  intros H Hf.
  change (c_deserialize (calls_at E (S depth))) with (deserialize_body E (calls_at E depth)).
  unfold deserialize_body, fits in *.
  destruct (a_kind a); try done.
  - unfold MappingAttribute_deserialize, bind, read, is_mapping. rewrite H.
    by destruct (o_shape y).
  - unfold ListAttribute_deserialize, bind, read, is_list. rewrite H.
    by destruct (o_shape y).
Qed.

(** Setting a mapping or list attribute to an instance stores that very
    object, whatever its class or item type: the owner is entered in the
    object's registry under the attribute's name, the object held before
    loses the owner, and the owner is told once. *)
Theorem container_set_registers (E : env) (depth : nat) (a : attribute) (owner m : objid)
        (xo y : obj) (validate changed : bool) (st : state) :
  let r := calls_at E (S depth) in
  let name := a_name a in
  let previous_value := default VNone (dict_get (o_attributes xo) name) in
  let st' := (c_set (calls_at E (S (S depth))) a owner (VObj m) validate st).2 in
  heap st !! owner = Some xo -> is_catalog (heap st) owner = true ->
  heap st !! m = Some y -> fits a y = true ->
  permits (a_params a) (dict_has (o_attributes xo) name) validate = true ->
  changed_from r owner name (VObj m) st = (Ok changed, st) ->
  veto E owner (Some name) changed validate = false ->
  (previous_value = VNone \/
   exists p yp, previous_value = VObj p /\ heap st !! p = Some yp /\
                is_catalog (heap st) p = false) ->
  (c_set (calls_at E (S (S depth))) a owner (VObj m) validate st).1 = Ok tt /\
  Attribute_get a owner st' = (Ok (VObj m), st') /\
  dict_get (registry (heap st') m) owner = Some (Some name) /\
  log st' = log st ++ [mkNotice owner (Some name) changed validate] /\
  (forall p, previous_value = VObj p -> p <> m ->
             dict_get (registry (heap st') p) owner = None).
Proof.
  intros r name previous_value st' Ho Hcat Hm Hfit Hperm Hch Hveto Hprev.
  assert (is_catalog (heap st) m = false) as Hmc.
  { unfold is_catalog, fits in *. rewrite Hm. destruct (a_kind a), (o_shape y); done. }
  assert (owner <> m) as Hom by (intros ->; congruence).
  assert (is_container a = true) as Hcont.
  { unfold is_container, fits in *. by destruct (a_kind a). }
  set (st1 := mkState (heap st) (log st ++ [mkNotice owner (Some name) changed validate])).
  (* the state after the previous value has been deregistered *)
  assert (exists h1 y1,
            (match previous_value with
             | VNone => ret tt
             | _ => remove_model_object previous_value owner
             end) st1 = (Ok tt, mkState h1 (log st1)) /\
            h1 !! m = Some y1 /\ o_shape y1 = o_shape y /\
            h1 !! owner = Some xo /\
            dict_get (dict_set (o_model_objects y1) owner (Some name)) owner
              = Some (Some name) /\
            (forall p, previous_value = VObj p -> p <> m ->
                       dict_get (registry h1 p) owner = None)) as (h1 & y1 & Hrem & Hm1 & Hs1 & Ho1 & Hreg1 & Hp1).
  { destruct Hprev as [->|(p & yp & -> & Hp & Hpc)].
    - exists (heap st), y. split_and!; try done. apply dict_get_set_eq.
    - assert (owner <> p) as Hop by (intros ->; congruence).
      rewrite (remove_model_object_run p yp owner st1 Hp Hpc).
      destruct (decide (p = m)) as [->|Hpm].
      + rewrite Hm in Hp. injection Hp as <-.
        eexists _, _. split_and!; [done| by rewrite lookup_insert_eq |done | | |].
        * simpl. by rewrite lookup_insert_ne.
        * apply dict_get_set_eq.
        * by intros p' [= <-] Hne.
      + eexists _, y. split_and!; [done| | done | | |].
        * simpl. by rewrite lookup_insert_ne.
        * simpl. by rewrite lookup_insert_ne.
        * apply dict_get_set_eq.
        * intros p' [= <-] _. unfold registry. rewrite lookup_insert_eq. simpl.
          apply dict_get_pop_eq. }
  assert (is_catalog h1 m = false) as Hmc1.
  { unfold is_catalog in *. rewrite Hm1, Hs1. by rewrite Hm in Hmc. }
  set (h2 := <[m := with_model_objects y1 (dict_set (o_model_objects y1) owner (Some name))]> h1).
  set (h3 := <[owner := with_attributes xo (dict_set (o_attributes xo) name (VObj m))]> h2).
  assert (c_set (calls_at E (S (S depth))) a owner (VObj m) validate st
          = (Ok tt, mkState h3 (log st1))) as Hrun.
  { change (c_set (calls_at E (S (S depth)))) with (set_body E (calls_at E (S depth))).
    unfold set_body, is_container in *.
    assert (Container_set (calls_at E (S depth)) a owner (VObj m) validate st
            = (Ok tt, mkState h3 (log st1))) as Hc; [|by destruct (a_kind a)].
    unfold Container_set.
    pose proof (guarded_policy (a_params a) (a_name a) owner xo validate st Ho) as Hp.
    fold name in Hp. rewrite Hperm in Hp. rewrite (bind_ok _ _ _ _ _ Hp).
    rewrite (bind_ok _ _ _ _ _ (deserialize_instance E depth a m y validate st Hm Hfit)).
    rewrite (bind_ok _ _ _ _ _ (get_obj_run _ _ _ Ho)).
    fold r name. rewrite (bind_ok _ _ _ _ _ Hch).
    unfold r.
    rewrite (bind_ok _ _ _ _ _
               (catalog_set_modified E depth owner (Some name) changed validate st Hcat Hveto)).
    fold st1. fold previous_value. rewrite (bind_ok _ _ _ _ _ Hrem).
    rewrite (bind_ok _ _ _ _ _
               (add_model_object_run m y1 owner (Some name) (mkState h1 (log st1)) Hm1 Hmc1)).
    fold h2. unfold store.
    rewrite (bind_ok _ _ (mkState h2 (log st1)) xo (mkState h2 (log st1))); [done|].
    apply get_obj_run. simpl. unfold h2. by rewrite lookup_insert_ne. }
  unfold st'. rewrite Hrun. simpl. split_and!; [done| | |done|].
  - unfold Attribute_get.
    rewrite (bind_ok _ _ _ (with_attributes xo (dict_set (o_attributes xo) name (VObj m)))
               (mkState h3 (log st1))).
    + simpl. fold name. by rewrite dict_get_set_eq.
    + apply get_obj_run. simpl. unfold h3. by rewrite lookup_insert_eq.
  - unfold registry, h3, h2. rewrite lookup_insert_ne, lookup_insert_eq by done. done.
  - intros p Hp Hpm. unfold registry, h3, h2.
    assert (owner <> p) as Hop.
    { intros ->. destruct Hprev as [Hn|(p' & yp & Hp' & Hyp & Hpc)]; [congruence|].
      rewrite Hp in Hp'. injection Hp' as <-. congruence. }
    rewrite !lookup_insert_ne by done. by apply Hp1.
Qed.

(** [map_attr] is declared with [MyMapping]; a [File] is assigned to it. *)
Lemma container_set_registers_witness :
  let st := mkState (heap_of
              [(1%positive, catalog_object "FakeCatalogObject" [("map_attr", VObj 3%positive)]);
               (3%positive, mapping "MyMapping" [] [(1%positive, Some "map_attr")]);
               (4%positive, mapping "File" [] [])]) [] in
  let st' := (c_set (calls_at permissive 3) map_attr 1%positive (VObj 4%positive) true st).2 in
  Attribute_get map_attr 1%positive st' = (Ok (VObj 4%positive), st') /\
  dict_get (registry (heap st') 4%positive) 1%positive = Some (Some "map_attr") /\
  dict_get (registry (heap st') 3%positive) 1%positive = None.
Proof.
  intros st st'.
  destruct (container_set_registers permissive 1 map_attr 1%positive 4%positive
              (catalog_object "FakeCatalogObject" [("map_attr", VObj 3%positive)])
              (mapping "File" [] []) true true st)
    as (_ & Hget & Hreg & _ & Hold).
  - reflexivity.
  - reflexivity.
  - reflexivity.
  - reflexivity.
  - reflexivity.
  - by vm_compute.
  - reflexivity.
  - right. eexists _, _. split_and!; reflexivity.
  - split_and!; [done..|]. by apply Hold.
Defined.

(** *** References *)

Lemma dict_set_same {K V} `{EqDecision K} (d : list (K * V)) k v :
  dict_get d k = Some v -> dict_set d k v = d.
Proof.
  induction d as [|[k' v'] d IH]; simpl; [done|].
  destruct (decide (k' = k)) as [->|Hne].
  - by intros [= ->].
  - intros H. by rewrite IH.
Qed.

(** A reference that was set is read back from the owner without asking
    the catalog: [__get__] finds the object cached under the name, sees that
    its id is the shadow id [__set__] jammed in, and returns it; after
    setting null it returns null.  Nothing changes in either case. *)
Theorem reference_set_then_get (E : env) (depth : nat) (a : attribute) (cls : classid)
        (allow : bool) (o : objid) (x : obj) (v : value) (validate changed : bool)
        (st : state) :
  let r := calls_at E (S depth) in
  let name := a_name a in
  a_kind a = KReference cls allow ->
  heap st !! o = Some x -> is_catalog (heap st) o = true ->
  acceptable E (heap st) cls allow v = true ->
  permits (a_params a) (dict_has (o_attributes x) name) validate = true ->
  changed_from r o name v st = (Ok changed, st) ->
  veto E o (Some name) changed validate = false ->
  veto E o (Some (id_field name)) changed false = false ->
  is_Some (attribute_types_get E (o_cls x) (id_field name)) ->
  scalar (id_or_none (heap st) v) = true ->
  exists st',
    c_set (calls_at E (S (S depth))) a o v validate st = (Ok tt, st') /\
    CatalogObjectReference_get E r a cls o st' = (Ok v, st').
Proof.
  intros r name Hk Ho Hcat Hacc Hperm Hch Hv1 Hv2 [idt Hid] Hsc.
  pose proof (reference_set_accepted E depth a cls allow o x v validate changed st
                Ho Hcat Hacc Hperm Hch Hv1 Hv2) as Hset.
  fold name in Hset. cbv zeta in Hset.
  set (i := id_or_none (heap st) v) in *.
  set (x' := with_attributes x (dict_set (dict_set (o_attributes x) name v) (id_field name) i))
    in *.
  set (st' := mkState (<[o := x']> (heap st)) _) in *.
  exists st'. split.
  { change (c_set (calls_at E (S (S depth)))) with (set_body E (calls_at E (S depth))).
    unfold set_body. by rewrite Hk. }
  assert (heap st' !! o = Some x') as Ho' by (simpl; by rewrite lookup_insert_eq).
  assert (dict_get (o_attributes x') name = Some v) as Hcached.
  { simpl. rewrite dict_get_set_ne by apply id_field_differs. apply dict_get_set_eq. }
  assert (dict_get (o_attributes x') (id_field name) = Some i) as Hshadow.
  { simpl. apply dict_get_set_eq. }
  unfold CatalogObjectReference_get.
  rewrite (bind_ok _ _ _ _ _ (get_obj_run _ _ _ Ho')). fold name. rewrite Hcached. simpl default.
  rewrite (bind_ok _ _ st' i st'); cycle 1.
  { unfold get_id_field. rewrite (bind_ok _ _ _ _ _ (get_obj_run _ _ _ Ho')).
    change (o_cls x') with (o_cls x). rewrite Hid. by rewrite Hshadow. }
  destruct v as [| | | | | | | |t]; try done.
  - (* null *)
    rewrite (bind_ok _ _ st' false st') by done.
    rewrite (bind_ok _ _ st' VNone st') by done.
    rewrite (bind_ok _ _ st' tt st'); [done|].
    rewrite (store_run _ _ _ _ _ Ho'). f_equal. unfold with_store.
    rewrite (dict_set_same _ _ _ Hcached).
    change (with_attributes x' (o_attributes x')) with x'.
    rewrite insert_id by done. by destruct st'.
  - (* a catalog object *)
    simpl in Hacc. apply andb_true_iff in Hacc as [Htc _].
    unfold is_catalog in Htc. destruct (heap st !! t) as [y|] eqn:Hy; [|done].
    destruct (o_shape y) as [j s| |] eqn:Hsy; try done.
    assert (i = j) as Hij by (unfold i; simpl; by rewrite Hy, Hsy).
    assert (exists y', heap st' !! t = Some y' /\ o_shape y' = Catalog j s) as (y' & Hy' & Hsy').
    { destruct (decide (t = o)) as [->|Hne].
      - exists x'. split; [done|]. rewrite Ho in Hy. injection Hy as ->. done.
      - exists y. split; [|done]. simpl. by rewrite lookup_insert_ne. }
    rewrite (bind_ok _ _ st' true st'); [done|].
    unfold read. unfold truthy. change (<[o:=x']> (heap st)) with (heap st').
    rewrite Hy', Hsy'. unfold lookup_obj. rewrite Hy'. cbn [obind].
    unfold id_of. rewrite Hsy'. cbn [obind]. rewrite Hij.
    unfold r. rewrite scalar_eq_refl; [done|]. by rewrite <- Hij.
Qed.

Lemma reference_set_then_get_witness :
  exists st',
    c_set (calls_at permissive 2) product_attr 1%positive (VObj 2%positive) true referring
    = (Ok tt, st') /\
    CatalogObjectReference_get permissive (calls_at permissive 1) product_attr "Product"
      1%positive st' = (Ok (VObj 2%positive), st').
Proof.
  apply (reference_set_then_get permissive 0 product_attr "Product" false 1%positive
           (catalog_object "FakeCatalogObject" []) (VObj 2%positive) true true referring).
  - reflexivity.
  - reflexivity.
  - reflexivity.
  - reflexivity.
  - reflexivity.
  - reflexivity.
  - reflexivity.
  - reflexivity.
  - by eexists.
  - reflexivity.
Defined.

(** ** Mapping values on the wire *)

Lemma serialize_items_inv E r h cls data : forall acc d,
  serialize_items E r h cls data acc = Ok d ->
  NoDup data.*1 -> (forall k, k ∈ data.*1 -> k ∉ acc.*1) ->
  Forall (fun kv => is_Some (attribute_types_get E cls kv.1)) data /\
  exists ss, d = acc ++ ss /\
    Forall2 (fun kv ks => ks.1 = kv.1 /\
               exists t, attribute_types_get E cls kv.1 = Some t /\
                         c_serialize r h t kv.2 = Ok ks.2)
            (List.filter (fun kv => on_wire E cls kv.1) data) ss.
Proof.
  induction data as [|[k v] data IH]; intros acc d Hrun Hnd Hfresh.
  - simpl in Hrun. injection Hrun as <-. split; [done|]. exists []. by rewrite app_nil_r.
  - cbn [serialize_items] in Hrun. unfold get_attribute_type in Hrun.
    inversion Hnd as [|? ? Hk Hnd']; subst.
    destruct (attribute_types_get E cls k) as [t|] eqn:Ht; [|done]. cbn [obind] in Hrun.
    cbn [List.filter]. unfold on_wire at 1. cbn [fst]. rewrite Ht.
    destruct (a_serializable t) eqn:Hser.
    + destruct (c_serialize r h t v) as [s|] eqn:Hs; [|done]. cbn [obind] in Hrun.
      rewrite dict_set_fresh in Hrun by (apply Hfresh; left).
      apply IH in Hrun as (Hdecl & ss & -> & Hss); [|done|].
      * split; [constructor; [by eexists | done]|].
        exists ((k, s) :: ss). split; [by rewrite <- app_assoc|].
        constructor; [|done]. split; [done|]. by exists t.
      * intros k' Hk'. rewrite fmap_app, elem_of_app. simpl.
        intros [Hin|Hin%list_elem_of_singleton]; [|by subst].
        by apply (Hfresh k'); [right|].
    + apply IH in Hrun as (Hdecl & ss & -> & Hss); [|done|].
      * split; [constructor; [by eexists | done]|]. by exists ss.
      * intros k' Hk'. apply Hfresh. by right.
Qed.

(** What [MappingAttribute.serialize] answers for a dict or an instance, when
    it answers: every field it was given is declared by the class, and the
    result holds exactly the fields whose attribute is serializable, in the
    order they were given, each serialized by its own attribute.  So a field
    the class does not declare makes it raise, and a field declared with
    [serializable=False] never shows. *)
Theorem mapping_serialize_fields (E : env) (r : calls) (h : gmap objid obj) (cls : classid)
        (attrs out : value) (data : list (string * value)) :
  fields_of h attrs = Some data -> NoDup data.*1 ->
  MappingAttribute_serialize E r h cls attrs = Ok out ->
  Forall (fun kv => is_Some (attribute_types_get E cls kv.1)) data /\
  exists d, out = VDict d /\
    Forall2 (fun kv ks => ks.1 = kv.1 /\
               exists t, attribute_types_get E cls kv.1 = Some t /\
                         c_serialize r h t kv.2 = Ok ks.2)
            (List.filter (fun kv => on_wire E cls kv.1) data) d.
Proof.
  intros Hf Hnd Hrun.
  assert (exists d, serialize_items E r h cls data [] = Ok d /\ out = VDict d) as (d & Hd & ->).
  { unfold fields_of, MappingAttribute_serialize in *.
    destruct attrs as [| | | | | | |d0|o]; try done.
    - injection Hf as <-. destruct (serialize_items _ _ _ _ _ _) as [d|]; [|done].
      injection Hrun as <-. by exists d.
    - unfold lookup_obj in Hrun. destruct (h !! o) as [x|]; [|done]. cbn [obind] in Hrun.
      destruct (o_shape x); try done. injection Hf as <-.
      destruct (serialize_items _ _ _ _ _ _) as [d|]; [|done].
      injection Hrun as <-. by exists d. }
  destruct (serialize_items_inv E r h cls data [] d Hd Hnd) as (Hdecl & ss & -> & Hss).
  { intros k _. apply not_elem_of_nil. }
  split; [done|]. by exists ss.
Qed.

Lemma mapping_serialize_fields_witness :
  let data := [("href", VStr "gs://a"); ("size_bytes", VInt 10)] in
  Forall (fun kv => is_Some (attribute_types_get permissive "File" kv.1)) data /\
  exists d, VDict data = VDict d /\
    Forall2 (fun kv ks => ks.1 = kv.1 /\
               exists t, attribute_types_get permissive "File" kv.1 = Some t /\
                         c_serialize (calls_at permissive 1) (heap filed) t kv.2 = Ok ks.2)
            (List.filter (fun kv => on_wire permissive "File" kv.1) data) d.
Proof.
  intros data.
  apply (mapping_serialize_fields permissive (calls_at permissive 1) (heap filed) "File"
           (VObj 1%positive) (VDict data) data).
  - reflexivity.
  - apply (bool_decide_unpack _). by vm_compute.
  - reflexivity.
Defined.



(** ** Enum attributes *)

(** With validation an enum attribute takes a member or the string of one
    and keeps the string; anything else, null included, is a [ValueError],
    not an [AttributeValidationError], raised before any owner is told.
    Without validation every value is stored as it is. *)
Theorem enum_attribute_validation (E : env) (depth : nat) (a : attribute) (enum_cls : string)
        (members : list string) (o : objid) (x : obj) (v : value) (st : state) :
  let r := calls_at E (S depth) in
  a_kind a = KEnum enum_cls members ->
  heap st !! o = Some x ->
  permits (a_params a) (dict_has (o_attributes x) (a_name a)) true = true ->
  (forall s, str_of v = Some s -> s ∈ members ->
     c_deserialize r a v true st = (Ok (VStr s), st) /\
     c_deserialize r a (VStr s) true st = (Ok (VStr s), st) /\
     c_serialize r (heap st) a (VStr s) = Ok (VStr s)) /\
  ((forall s, str_of v = Some s -> s ∉ members) ->
     c_set (calls_at E (S (S depth))) a o v true st = (Raise ValueError, st)) /\
  c_deserialize r a v false st = (Ok v, st).
Proof.
  intros r Hk Ho Hperm. unfold r.
  change (c_set (calls_at E (S (S depth)))) with (set_body E (calls_at E (S depth))).
  change (c_deserialize (calls_at E (S depth))) with (deserialize_body E (calls_at E depth)).
  change (c_serialize (calls_at E (S depth))) with (serialize_body E (calls_at E depth)).
  unfold deserialize_body, serialize_body, set_body. rewrite Hk.
  split_and!; [| |done].
  - intros s Hs Hin. unfold lift, EnumAttribute_deserialize. rewrite Hs. simpl.
    by rewrite bool_decide_eq_true_2.
  - intros Hout. unfold Attribute_set.
    pose proof (guarded_policy (a_params a) (a_name a) o x true st Ho) as Hp.
    rewrite Hperm in Hp. rewrite (bind_ok _ _ _ _ _ Hp).
    apply bind_raise.
    change (c_deserialize (calls_at E (S depth))) with (deserialize_body E (calls_at E depth)).
    unfold deserialize_body. rewrite Hk. unfold lift, EnumAttribute_deserialize.
    destruct (str_of v) as [s|] eqn:Hs; [|done].
    by rewrite bool_decide_eq_false_2 by (by apply Hout).
Qed.

(** The [unit] of a [Resolution] cannot be set to null under validation. *)
Lemma enum_attribute_validation_witness :
  let unit_attr := plain (KEnum "ResolutionUnit" ["meters"; "degrees"]) "unit" in
  let st := mkState (heap_of [(1%positive, mapping "Resolution" [] [])]) [] in
  c_set (calls_at permissive 2) unit_attr 1%positive VNone true st = (Raise ValueError, st).
Proof.
  intros unit_attr st.
  destruct (enum_attribute_validation permissive 0 unit_attr "ResolutionUnit"
              ["meters"; "degrees"] 1%positive (mapping "Resolution" [] []) VNone st)
    as (_ & Hbad & _).
  - reflexivity.
  - reflexivity.
  - reflexivity.
  - apply Hbad. intros s Hs. discriminate Hs.
Defined.

(** ** Timestamps on the wire *)

Section Digits.
Local Open Scope Z_scope.

Lemma digit_char_code z :
  Z.of_nat (nat_of_ascii (digit_char z)) = 48 + z mod 10.
Proof.
  unfold digit_char. rewrite nat_ascii_embedding.
  - rewrite Z2Nat.id; [done|]. pose proof (Z.mod_pos_bound z 10). lia.
  - pose proof (Z.mod_pos_bound z 10). lia.
Qed.

Lemma is_digit_digit_char z : is_digit (digit_char z) = true.
Proof.
  unfold is_digit. rewrite digit_char_code. pose proof (Z.mod_pos_bound z 10).
  apply andb_true_iff. split; [apply Z.leb_le | apply Z.leb_le]; lia.
Qed.

Lemma digit_val_digit_char z : digit_val (digit_char z) = z mod 10.
Proof. unfold digit_val. rewrite digit_char_code. lia. Qed.

Lemma is_digit_range c : is_digit c = true -> 0 <= digit_val c <= 9.
Proof.
  unfold is_digit, digit_val. rewrite andb_true_iff, !Z.leb_le. lia.
Qed.

Lemma in_range_digit lo hi c :
  is_digit c = true -> in_range lo hi c = (lo <=? digit_val c) && (digit_val c <=? hi).
Proof. intros H. unfold in_range. by rewrite H. Qed.

Lemma int_of_snoc cs c :
  is_digit c = true -> int_of (cs ++ [c]) = 10 * int_of cs + digit_val c.
Proof. intros H. unfold int_of. rewrite fold_left_app. simpl. by rewrite H. Qed.

Lemma list_ascii_of_string_app s t :
  list_ascii_of_string (s ++ t) = list_ascii_of_string s ++ list_ascii_of_string t.
Proof. induction s as [|c s IH]; simpl; [done|]. by rewrite IH. Qed.

Lemma digits_S n z : digits (S n) z = digits n (z / 10) ++ [digit_char z].
Proof. unfold digits. simpl. by rewrite list_ascii_of_string_app. Qed.

Lemma digits_length n z : length (digits n z) = n.
Proof.
  revert z. induction n as [|n IH]; intros z; [done|].
  rewrite digits_S, length_app, IH. simpl. lia.
Qed.

Lemma digits_are_digits n z : Forall (fun c => is_digit c = true) (digits n z).
Proof.
  revert z. induction n as [|n IH]; intros z; [constructor|].
  rewrite digits_S. apply Forall_app. split; [apply IH|].
  constructor; [apply is_digit_digit_char | constructor].
Qed.

Lemma int_of_digits n z : 0 <= z -> int_of (digits n z) = z mod 10 ^ Z.of_nat n.
Proof.
  revert z. induction n as [|n IH]; intros z Hz.
  - simpl. by rewrite Z.mod_1_r.
  - rewrite digits_S, int_of_snoc by apply is_digit_digit_char.
    rewrite IH by (apply Z.div_pos; lia). rewrite digit_val_digit_char.
    rewrite Nat2Z.inj_succ, Z.pow_succ_r by lia.
    rewrite Z.rem_mul_r by lia. lia.
Qed.

End Digits.

(** *** What a directive can match *)

Lemma in_alt1 p s m r :
  In (m, r) (alt1 p s) -> exists c, s = c :: r /\ m = [c] /\ p c = true.
Proof.
  unfold alt1. destruct s as [|c s]; [done|]. destruct (p c) eqn:Hp; [|done].
  intros [[= <- <-]|[]]. by exists c.
Qed.

Lemma in_alt2 p1 p2 s m r :
  In (m, r) (alt2 p1 p2 s) ->
  exists c1 c2, s = c1 :: c2 :: r /\ m = [c1; c2] /\ p1 c1 = true /\ p2 c2 = true.
Proof.
  unfold alt2. destruct s as [|c1 [|c2 s]]; [done..|].
  destruct (p1 c1 && p2 c2) eqn:Hp; [|done].
  apply andb_true_iff in Hp as [H1 H2]. intros [[= <- <-]|[]]. by exists c1, c2.
Qed.

Lemma in_digit_run n : forall s m r,
  In (m, r) (digit_run n s) ->
  s = m ++ r /\ m <> [] /\ (length m <= n)%nat /\ Forall (fun c => is_digit c = true) m.
Proof.
  induction n as [|n IH]; intros s m r; [done|].
  destruct s as [|c s]; [done|]. cbn [digit_run].
  destruct (is_digit c) eqn:Hc; [|done].
  rewrite in_app_iff, in_map_iff. intros [([m' r'] & [= <- <-] & Hin)|[[= <- <-]|[]]].
  - apply IH in Hin as (-> & _ & Hlen & Hall). split_and!; [done|done|simpl; lia|by constructor].
  - split_and!; [done|done|simpl; lia|by repeat constructor].
Qed.

Lemma int_of_bound m :
  Forall (fun c => is_digit c = true) m ->
  (0 <= int_of m < 10 ^ Z.of_nat (length m))%Z.
Proof.
  induction m as [|c m IH] using rev_ind; intros Hall; [by split|].
  apply Forall_app in Hall as [Hm Hc]. apply Forall_inv in Hc.
  rewrite int_of_snoc by done. rewrite length_app. simpl.
  rewrite Nat2Z.inj_add, Z.pow_add_r by lia.
  pose proof (is_digit_range c Hc). specialize (IH Hm). simpl (10 ^ Z.of_nat 1)%Z. lia.
Qed.

Lemma int_of_one c : is_digit c = true -> int_of [c] = digit_val c.
Proof. intros H. unfold int_of. simpl. rewrite H. lia. Qed.

Lemma int_of_two c1 c2 :
  is_digit c1 = true -> is_digit c2 = true ->
  int_of [c1; c2] = (10 * digit_val c1 + digit_val c2)%Z.
Proof. intros H1 H2. unfold int_of. simpl. rewrite H1, H2. lia. Qed.

Lemma int_of_blank c1 c2 :
  is_space c1 = true -> is_digit c2 = true -> int_of [c1; c2] = digit_val c2.
Proof.
  intros H1 H2. unfold int_of. simpl. rewrite H2.
  assert (is_digit c1 = false) as ->; [|lia].
  unfold is_space in H1. apply Z.eqb_eq in H1. unfold is_digit. rewrite H1. done.
Qed.

Lemma in_range_inv lo hi c :
  in_range lo hi c = true -> is_digit c = true /\ (lo <= digit_val c <= hi)%Z.
Proof.
  unfold in_range. rewrite !andb_true_iff, !Z.leb_le. tauto.
Qed.

Ltac bound_digits :=
  repeat match goal with
    | H : in_range _ _ _ = true |- _ => apply in_range_inv in H as [? ?]
    | H : is_digit ?c = true |- _ =>
        lazymatch goal with
        | _ : (0 <= digit_val c <= 9)%Z |- _ => fail
        | _ => pose proof (is_digit_range c H)
        end
    end.

(** Whatever a directive matches, it takes a non-empty prefix of the text
    and leaves the fields within their ranges. *)
Lemma match_item_sound it s a a' r :
  In (a', r) (match_item it s a) -> ranged a ->
  ranged a' /\ exists m, s = m ++ r /\ m <> [].
Proof.
  intros Hin (HY & Hm & Hd & HH & HM & HS & Hf). unfold ranged.
  destruct it; cbn [match_item] in Hin.
  - destruct s as [|c' s]; [done|]. destruct (Ascii.eqb _ _); [|done].
    destruct Hin as [[= <- <-]|[]]. split; [done|]. by exists [c'].
  - destruct s as [|c1 [|c2 [|c3 [|c4 s]]]]; try done.
    destruct (is_digit c1 && is_digit c2 && is_digit c3 && is_digit c4) eqn:Hdig; [|done].
    destruct Hin as [[= <- <-]|[]].
    apply andb_true_iff in Hdig as [Hdig H4]. apply andb_true_iff in Hdig as [Hdig H3].
    apply andb_true_iff in Hdig as [H1 H2].
    split; [|by exists [c1; c2; c3; c4]]. cbn [fY fm fd fH fM fS ff].
    pose proof (int_of_bound [c1; c2; c3; c4]) as Hb. simpl length in Hb.
    destruct Hb as [Hlo Hhi]; [by repeat constructor|].
    change (10 ^ Z.of_nat 4)%Z with 10000%Z in Hhi.
    split_and!; try done; lia.
  - apply in_map_iff in Hin as ([m r'] & [= <- <-] & Hin).
    rewrite !in_app_iff in Hin.
    destruct Hin as [Hin|[Hin|Hin]];
      [apply in_alt2 in Hin as (c1 & c2 & -> & -> & H1 & H2)
      |apply in_alt2 in Hin as (c1 & c2 & -> & -> & H1 & H2)
      |apply in_alt1 in Hin as (c1 & -> & -> & H1)];
      bound_digits; (split; [|first [by exists [c1; c2] | by exists [c1]]]);
      cbn [fY fm fd fH fM fS ff];
      rewrite ?int_of_two, ?int_of_one by done; split_and!; try done; lia.
  - apply in_map_iff in Hin as ([m r'] & [= <- <-] & Hin).
    rewrite !in_app_iff in Hin.
    destruct Hin as [Hin|[Hin|[Hin|[Hin|Hin]]]];
      [apply in_alt2 in Hin as (c1 & c2 & -> & -> & H1 & H2)
      |apply in_alt2 in Hin as (c1 & c2 & -> & -> & H1 & H2)
      |apply in_alt2 in Hin as (c1 & c2 & -> & -> & H1 & H2)
      |apply in_alt1 in Hin as (c1 & -> & -> & H1)
      |apply in_alt2 in Hin as (c1 & c2 & -> & -> & H1 & H2)];
      bound_digits; (split; [|first [by exists [c1; c2] | by exists [c1]]]);
      cbn [fY fm fd fH fM fS ff];
      rewrite ?int_of_two, ?int_of_one, ?int_of_blank by done; split_and!; try done; lia.
  - apply in_map_iff in Hin as ([m r'] & [= <- <-] & Hin).
    rewrite !in_app_iff in Hin.
    destruct Hin as [Hin|[Hin|Hin]];
      [apply in_alt2 in Hin as (c1 & c2 & -> & -> & H1 & H2)
      |apply in_alt2 in Hin as (c1 & c2 & -> & -> & H1 & H2)
      |apply in_alt1 in Hin as (c1 & -> & -> & H1)];
      bound_digits; (split; [|first [by exists [c1; c2] | by exists [c1]]]);
      cbn [fY fm fd fH fM fS ff];
      rewrite ?int_of_two, ?int_of_one by done; split_and!; try done; lia.
  - apply in_map_iff in Hin as ([m r'] & [= <- <-] & Hin).
    rewrite !in_app_iff in Hin.
    destruct Hin as [Hin|Hin];
      [apply in_alt2 in Hin as (c1 & c2 & -> & -> & H1 & H2)
      |apply in_alt1 in Hin as (c1 & -> & -> & H1)];
      bound_digits; (split; [|first [by exists [c1; c2] | by exists [c1]]]);
      cbn [fY fm fd fH fM fS ff];
      rewrite ?int_of_two, ?int_of_one by done; split_and!; try done; lia.
  - apply in_map_iff in Hin as ([m r'] & [= <- <-] & Hin).
    rewrite !in_app_iff in Hin.
    destruct Hin as [Hin|[Hin|Hin]];
      [apply in_alt2 in Hin as (c1 & c2 & -> & -> & H1 & H2)
      |apply in_alt2 in Hin as (c1 & c2 & -> & -> & H1 & H2)
      |apply in_alt1 in Hin as (c1 & -> & -> & H1)];
      bound_digits; (split; [|first [by exists [c1; c2] | by exists [c1]]]);
      cbn [fY fm fd fH fM fS ff];
      rewrite ?int_of_two, ?int_of_one by done; split_and!; try done; lia.
  - apply in_map_iff in Hin as ([m r'] & [= <- <-] & Hin).
    apply in_digit_run in Hin as (-> & Hne & Hlen & Hall).
    split; [|by exists m]. cbn [fY fm fd fH fM fS ff].
    assert (0 <= int_of m * 10 ^ (6 - Z.of_nat (length m)) <= 999999)%Z as Hff.
    { pose proof (int_of_bound m Hall) as [Hlo Hhi]. split.
      - apply Z.mul_nonneg_nonneg; [lia|]. apply Z.pow_nonneg. lia.
      - assert (int_of m * 10 ^ (6 - Z.of_nat (length m))
                <= (10 ^ Z.of_nat (length m) - 1) * 10 ^ (6 - Z.of_nat (length m)))%Z as Hle.
        { apply Z.mul_le_mono_nonneg_r; [apply Z.pow_nonneg|]; lia. }
        rewrite Z.mul_sub_distr_r, <- Z.pow_add_r in Hle by lia.
        replace (Z.of_nat (length m) + (6 - Z.of_nat (length m)))%Z with 6%Z in Hle by lia.
        assert (1 <= 10 ^ (6 - Z.of_nat (length m)))%Z.
        { apply (Z.pow_le_mono_r 10 0); lia. }
        change (10 ^ 6)%Z with 1000000%Z in Hle. lia. }
    split_and!; lia.
Qed.

Lemma match_items_sound items : forall s a a' r,
  In (a', r) (match_items items s a) -> ranged a ->
  ranged a' /\ exists m, s = m ++ r.
Proof.
  induction items as [|it items IH]; intros s a a' r Hin Hr.
  - destruct Hin as [[= <- <-]|[]]. split; [done|]. by exists [].
  - cbn [match_items] in Hin. apply in_flat_map in Hin as ([a1 s1] & H1 & Hin).
    apply match_item_sound in H1 as (Hr1 & m1 & -> & _); [|done].
    apply IH in Hin as (Hr' & m & ->); [|done].
    split; [done|]. exists (m1 ++ m). by rewrite app_assoc.
Qed.

(** A format that ends in a literal matches only text that ends in that
    character, in either case. *)
Lemma match_items_last items c : forall s a a',
  In (a', []) (match_items (items ++ [FLit c]) s a) ->
  exists s0 c', s = s0 ++ [c'] /\ Ascii.eqb (lower c) (lower c') = true.
Proof.
  induction items as [|it items IH]; intros s a a' Hin.
  - cbn [app match_items match_item] in Hin.
    destruct s as [|c' s]; [done|].
    destruct (Ascii.eqb (lower c) (lower c')) eqn:Hc; [|done].
    cbn in Hin. destruct Hin as [[= <- ->]|[]]. by exists [], c'.
  - cbn [app match_items] in Hin. apply in_flat_map in Hin as ([a1 s1] & H1 & Hin).
    apply IH in Hin as (s0 & c' & -> & Hc).
    assert (exists m, s = m ++ s0 ++ [c']) as [m ->].
    { destruct it; cbn [match_item] in H1.
      - destruct s as [|ch s]; [done|]. destruct (Ascii.eqb _ _); [|done].
        destruct H1 as [[= _ <-]|[]]. by exists [ch].
      - destruct s as [|c1 [|c2 [|c3 [|c4 s]]]]; try done.
        destruct (_ && _); [|done]. destruct H1 as [[= _ <-]|[]]. by exists [c1; c2; c3; c4].
      - apply in_map_iff in H1 as ([m r'] & [= _ <-] & H1). rewrite !in_app_iff in H1.
        destruct H1 as [H1|[H1|H1]];
          [apply in_alt2 in H1 as (c1 & c2 & -> & _)
          |apply in_alt2 in H1 as (c1 & c2 & -> & _)
          |apply in_alt1 in H1 as (c1 & -> & _)];
          first [by exists [c1; c2] | by exists [c1]].
      - apply in_map_iff in H1 as ([m r'] & [= _ <-] & H1). rewrite !in_app_iff in H1.
        destruct H1 as [H1|[H1|[H1|[H1|H1]]]];
          [apply in_alt2 in H1 as (c1 & c2 & -> & _)
          |apply in_alt2 in H1 as (c1 & c2 & -> & _)
          |apply in_alt2 in H1 as (c1 & c2 & -> & _)
          |apply in_alt1 in H1 as (c1 & -> & _)
          |apply in_alt2 in H1 as (c1 & c2 & -> & _)];
          first [by exists [c1; c2] | by exists [c1]].
      - apply in_map_iff in H1 as ([m r'] & [= _ <-] & H1). rewrite !in_app_iff in H1.
        destruct H1 as [H1|[H1|H1]];
          [apply in_alt2 in H1 as (c1 & c2 & -> & _)
          |apply in_alt2 in H1 as (c1 & c2 & -> & _)
          |apply in_alt1 in H1 as (c1 & -> & _)];
          first [by exists [c1; c2] | by exists [c1]].
      - apply in_map_iff in H1 as ([m r'] & [= _ <-] & H1). rewrite !in_app_iff in H1.
        destruct H1 as [H1|H1];
          [apply in_alt2 in H1 as (c1 & c2 & -> & _)
          |apply in_alt1 in H1 as (c1 & -> & _)];
          first [by exists [c1; c2] | by exists [c1]].
      - apply in_map_iff in H1 as ([m r'] & [= _ <-] & H1). rewrite !in_app_iff in H1.
        destruct H1 as [H1|[H1|H1]];
          [apply in_alt2 in H1 as (c1 & c2 & -> & _)
          |apply in_alt2 in H1 as (c1 & c2 & -> & _)
          |apply in_alt1 in H1 as (c1 & -> & _)];
          first [by exists [c1; c2] | by exists [c1]].
      - apply in_map_iff in H1 as ([m r'] & [= _ <-] & H1).
        apply in_digit_run in H1 as (-> & _). by exists m. }
    exists (m ++ s0), c'. by rewrite <- app_assoc.
Qed.

Lemma ranged_fields0 : ranged fields0.
Proof. unfold ranged, fields0. simpl. lia. Qed.

(** What [strptime] returns under one of the two formats of the source. *)
Lemma strptime_sound s fmt items d :
  compile_format (list_ascii_of_string fmt) = Some (items ++ [FLit "Z"%char]) ->
  strptime s fmt = Ok d ->
  valid_datetime d = true /\ tzinfo d = None /\
  exists s0 c', list_ascii_of_string s = s0 ++ [c'] /\
                Ascii.eqb "z"%char (lower c') = true.
Proof.
  intros Hfmt. unfold strptime. rewrite Hfmt.
  destruct (match_items _ _ _) as [|[a [|c r]] l] eqn:Hm; try done.
  assert (In (a, []) (match_items (items ++ [FLit "Z"%char]) (list_ascii_of_string s) fields0))
    as Hin by (rewrite Hm; by left).
  destruct (match_items_sound _ _ _ _ _ Hin ranged_fields0)
    as ((HY & Hmo & Hd & HH & HM & HS & Hf) & _).
  apply match_items_last in Hin as (s0 & c' & Hs & Hc).
  destruct ((1 <=? fY a)%Z && (1 <=? fd a)%Z && (fd a <=? days_in_month (fY a) (fm a))%Z
            && (fS a <=? 59)%Z) eqn:Hchk; [|done].
  intros [= <-]. split_and!; [|done|by exists s0, c'].
  apply andb_true_iff in Hchk as [Hchk H4]. apply andb_true_iff in Hchk as [Hchk H3].
  apply andb_true_iff in Hchk as [H1 H2].
  unfold valid_datetime. cbn [year month day hour minute second microsecond].
  rewrite H1, H2, H3, H4.
  repeat (apply andb_true_iff; split); try done; apply Z.leb_le; lia.
Qed.

Lemma string_of_list_ascii_snoc l c :
  string_of_list_ascii (l ++ [c]) = (string_of_list_ascii l ++ String c "")%string.
Proof. induction l as [|c' l IH]; simpl; [done|]. by rewrite IH. Qed.

Lemma ends_with_list s s0 c :
  list_ascii_of_string s = s0 ++ [c] -> ends_with c s.
Proof.
  intros H. exists (string_of_list_ascii s0).
  rewrite <- (string_of_list_ascii_of_string s), H. apply string_of_list_ascii_snoc.
Qed.

Lemma substring_all s : substring 0 (String.length s) s = s.
Proof. induction s as [|c s IH]; simpl; [done|]. by rewrite IH. Qed.

Lemma substring_app_r s t n :
  substring (String.length s) n (s ++ t) = substring 0 n t.
Proof. induction s as [|c s IH]; simpl; [done|]. exact IH. Qed.

Lemma last_char_snoc s c : last_char (s ++ String c "") = String c "".
Proof.
  unfold last_char. rewrite length_append. simpl.
  replace (String.length s + 1 - 1)%nat with (String.length s) by lia.
  by rewrite substring_app_r.
Qed.

Lemma string_snoc_cases s : s = ""%string \/ exists s0 c, s = (s0 ++ String c "")%string.
Proof.
  induction s as [|c s IH]; [by left|]. right.
  destruct IH as [->|(s0 & c' & ->)].
  - by exists ""%string, c.
  - by exists (String c s0), c'.
Qed.

Lemma list_snoc_inj {A} (l1 l2 : list A) a b : l1 ++ [a] = l2 ++ [b] -> a = b.
Proof. intros H. by apply app_inj_tail in H as [_ ->]. Qed.

(** Whatever [parse_iso_datetime] returns is a datetime the class accepts,
    in UTC, and it was read from text that ends in the designator: a [Z],
    or a [z] since the formats are matched without regard to case. *)
Theorem parsed_timestamps (s : string) (d : datetime) :
  parse_iso_datetime s = Ok d ->
  valid_datetime d = true /\ tzinfo d = Some utc /\
  (ends_with "Z"%char s \/ ends_with "z"%char s).
Proof.
  unfold parse_iso_datetime.
  set (s' := if (27 <? String.length s)%nat then _ else _).
  assert (forall fmt items date,
            compile_format (list_ascii_of_string fmt) = Some (items ++ [FLit "Z"%char]) ->
            strptime s' fmt = Ok date ->
            valid_datetime (replace_tzinfo date (Some utc)) = true /\
            tzinfo (replace_tzinfo date (Some utc)) = Some utc /\
            (ends_with "Z"%char s \/ ends_with "z"%char s)) as Hfmt.
  { intros fmt items date Hc Hp.
    destruct (strptime_sound s' fmt items date Hc Hp) as (Hv & _ & s0 & c' & Hs & Hz).
    split_and!; [done|done|].
    assert (ends_with c' s) as Hend.
    { unfold s' in Hs. destruct (27 <? String.length s)%nat eqn:Hlen.
      - apply Nat.ltb_lt in Hlen.
        destruct (string_snoc_cases s) as [->|(t & c & ->)]; [simpl in Hlen; lia|].
        rewrite last_char_snoc, list_ascii_of_string_app in Hs. simpl in Hs.
        apply list_snoc_inj in Hs as ->. by exists t.
      - by apply ends_with_list with s0. }
    assert (c' = "Z"%char \/ c' = "z"%char) as [->| ->]; [|by left|by right].
    clear -Hz. destruct c' as [[] [] [] [] [] [] [] []]; try done; auto. }
  destruct (strptime s' "%Y-%m-%dT%H:%M:%S.%fZ") as [date|e] eqn:H1.
  - intros [= <-].
    apply (Hfmt "%Y-%m-%dT%H:%M:%S.%fZ"%string
             [FYear; FLit "-"; FMonth; FLit "-"; FDay; FLit "T"; FHour; FLit ":";
              FMinute; FLit ":"; FSecond; FLit "."; FMicro]%char date); [reflexivity|done].
  - destruct e; try done.
    destruct (strptime s' "%Y-%m-%dT%H:%M:%SZ") as [date|e] eqn:H2; [|done].
    intros [= <-].
    apply (Hfmt "%Y-%m-%dT%H:%M:%SZ"%string
             [FYear; FLit "-"; FMonth; FLit "-"; FDay; FLit "T"; FHour; FLit ":";
              FMinute; FLit ":"; FSecond]%char date); [reflexivity|done].
Qed.

Lemma parsed_timestamps_witness :
  valid_datetime instant = true /\ tzinfo instant = Some utc /\
  (ends_with "Z"%char "2021-01-01T00:00:00.123456Z" \/
   ends_with "z"%char "2021-01-01T00:00:00.123456Z").
Proof.
  apply (parsed_timestamps "2021-01-01T00:00:00.123456Z" instant).
  by vm_compute.
Defined.

(** *** Reading back what [isoformat] writes *)

Lemma lit_step c c' rest s a :
  match_items (FLit c :: rest) (c' :: s) a
  = if Ascii.eqb (lower c) (lower c') then match_items rest s a else [].
Proof.
  cbn [match_items match_item]. destruct (Ascii.eqb _ _); cbn; [apply app_nil_r | done].
Qed.

Lemma is_digit_not_space c : is_digit c = true -> is_space c = false.
Proof.
  unfold is_digit, is_space. rewrite andb_true_iff, !Z.leb_le. intros [H1 H2].
  apply Z.eqb_neq. lia.
Qed.

Lemma digits_two v :
  (0 <= v <= 99)%Z ->
  exists c1 c2, digits 2 v = [c1; c2] /\ is_digit c1 = true /\ is_digit c2 = true /\
                (v = 10 * digit_val c1 + digit_val c2)%Z /\
                (0 <= digit_val c1 <= 9)%Z /\ (0 <= digit_val c2 <= 9)%Z.
Proof.
  intros Hv. exists (digit_char (v / 10)), (digit_char v).
  rewrite !is_digit_digit_char, !digit_val_digit_char.
  pose proof (Z.div_mod v 10 ltac:(lia)) as Hdm.
  pose proof (Z.mod_pos_bound v 10 ltac:(lia)) as Hm.
  assert (0 <= v / 10 <= 9)%Z as Hq by lia.
  rewrite (Z.mod_small (v / 10)) by lia.
  split_and!; try done; lia.
Qed.

Ltac decide_ranges :=
  repeat match goal with
    | |- context [(?a <=? ?b)%Z] =>
        let H := fresh in destruct (Z.leb_spec a b) as [H|H]; try lia
    end.

Ltac two_digit_step v Hv sep Hsep :=
  let c1 := fresh "c1" in
  let c2 := fresh "c2" in
  let Hds := fresh "Hds" in
  let H1 := fresh "H1" in
  let H2 := fresh "H2" in
  let Heq := fresh "Heq" in
  let Hb1 := fresh "Hb1" in
  let Hb2 := fresh "Hb2" in
  destruct (digits_two v) as (c1 & c2 & Hds & H1 & H2 & Heq & Hb1 & Hb2); [lia|];
  rewrite Hds; cbn [app match_items match_item];
  unfold alt2, alt1;
  rewrite ?(in_range_digit _ _ c1 H1), ?(in_range_digit _ _ c2 H2),
    ?H1, ?H2, ?(is_digit_not_space c1 H1);
  decide_ranges; cbn [andb app map flat_map];
  rewrite ?lit_step, ?(Hsep c2 H2), ?app_nil_r;
  rewrite ?(int_of_two c1 c2 H1 H2), <- ?Heq; try reflexivity;
  destruct (Ascii.eqb (lower sep) _); cbn [flat_map]; rewrite ?app_nil_r; reflexivity.

Section Steps.
Variables (sep c3 : ascii) (rest : list fmt_item) (s : list ascii) (a : fields).
Hypothesis Hsep : forall d, is_digit d = true -> Ascii.eqb (lower sep) (lower d) = false.

Lemma month_step v :
  (1 <= v <= 12)%Z ->
  match_items (FMonth :: FLit sep :: rest) (digits 2 v ++ c3 :: s) a
  = if Ascii.eqb (lower sep) (lower c3)
    then match_items rest s (mkFields (fY a) v (fd a) (fH a) (fM a) (fS a) (ff a))
    else [].
Proof. intros Hv. two_digit_step v Hv sep Hsep. Qed.

Lemma day_step v :
  (1 <= v <= 31)%Z ->
  match_items (FDay :: FLit sep :: rest) (digits 2 v ++ c3 :: s) a
  = if Ascii.eqb (lower sep) (lower c3)
    then match_items rest s (mkFields (fY a) (fm a) v (fH a) (fM a) (fS a) (ff a))
    else [].
Proof. intros Hv. two_digit_step v Hv sep Hsep. Qed.

Lemma hour_step v :
  (0 <= v <= 23)%Z ->
  match_items (FHour :: FLit sep :: rest) (digits 2 v ++ c3 :: s) a
  = if Ascii.eqb (lower sep) (lower c3)
    then match_items rest s (mkFields (fY a) (fm a) (fd a) v (fM a) (fS a) (ff a))
    else [].
Proof. intros Hv. two_digit_step v Hv sep Hsep. Qed.

Lemma minute_step v :
  (0 <= v <= 59)%Z ->
  match_items (FMinute :: FLit sep :: rest) (digits 2 v ++ c3 :: s) a
  = if Ascii.eqb (lower sep) (lower c3)
    then match_items rest s (mkFields (fY a) (fm a) (fd a) (fH a) v (fS a) (ff a))
    else [].
Proof. intros Hv. two_digit_step v Hv sep Hsep. Qed.

Lemma second_step v :
  (0 <= v <= 59)%Z ->
  match_items (FSecond :: FLit sep :: rest) (digits 2 v ++ c3 :: s) a
  = if Ascii.eqb (lower sep) (lower c3)
    then match_items rest s (mkFields (fY a) (fm a) (fd a) (fH a) (fM a) v (ff a))
    else [].
Proof. intros Hv. two_digit_step v Hv sep Hsep. Qed.
End Steps.

Lemma year_step v rest s a :
  (0 <= v <= 9999)%Z ->
  match_items (FYear :: rest) (digits 4 v ++ s) a
  = match_items rest s (mkFields v (fm a) (fd a) (fH a) (fM a) (fS a) (ff a)).
Proof.
  intros Hv.
  pose proof (digits_length 4 v) as Hlen.
  pose proof (digits_are_digits 4 v) as Hall.
  pose proof (int_of_digits 4 v ltac:(lia)) as Hint.
  rewrite Z.mod_small in Hint by (change (10 ^ Z.of_nat 4)%Z with 10000%Z; lia).
  destruct (digits 4 v) as [|c1 [|c2 [|c3 [|c4 [|c5 l]]]]]; try done.
  apply Forall_cons in Hall as [H1 Hall]. apply Forall_cons in Hall as [H2 Hall].
  apply Forall_cons in Hall as [H3 Hall]. apply Forall_cons in Hall as [H4 _].
  cbn [app match_items match_item]. rewrite H1, H2, H3, H4. cbn [andb flat_map].
  rewrite Hint. apply app_nil_r.
Qed.

Lemma digit_run_full ds : forall c s,
  ds <> [] -> Forall (fun d => is_digit d = true) ds -> is_digit c = false ->
  exists tl,
    digit_run (length ds) (ds ++ c :: s) = (ds, c :: s) :: tl /\
    Forall (fun mr => exists d r, mr.2 = d :: r /\ is_digit d = true) tl.
Proof.
  induction ds as [|d1 ds IH]; intros c s Hne Hall Hc; [done|].
  apply Forall_cons in Hall as [H1 Hall]. cbn [length app digit_run]. rewrite H1.
  destruct ds as [|d2 ds].
  - simpl. exists []. split; [done | constructor].
  - destruct (IH c s) as (tl & Hrun & Htl); [done..|].
    rewrite Hrun. cbn [map app].
    exists (map (fun '(m, r') => (d1 :: m, r')) tl ++ [([d1], (d2 :: ds) ++ c :: s)]).
    split; [done|]. apply Forall_app. split.
    + apply Forall_fmap. eapply Forall_impl; [exact Htl|]. by intros [m r'].
    + constructor; [|constructor]. exists d2, (ds ++ c :: s). split; [done|].
      by apply Forall_inv in Hall.
Qed.

Lemma match_items_cons it rest s a :
  match_items (it :: rest) s a
  = flat_map (fun '(a', s') => match_items rest s' a') (match_item it s a).
Proof. reflexivity. Qed.

Lemma micro_step sep c rest s a v :
  (forall d, is_digit d = true -> Ascii.eqb (lower sep) (lower d) = false) ->
  is_digit c = false -> (0 <= v <= 999999)%Z ->
  match_items (FMicro :: FLit sep :: rest) (digits 6 v ++ c :: s) a
  = if Ascii.eqb (lower sep) (lower c)
    then match_items rest s (mkFields (fY a) (fm a) (fd a) (fH a) (fM a) (fS a) v)
    else [].
Proof.
  intros Hsep Hc Hv.
  pose proof (digits_length 6 v) as Hlen.
  pose proof (int_of_digits 6 v ltac:(lia)) as Hint.
  rewrite Z.mod_small in Hint by (change (10 ^ Z.of_nat 6)%Z with 1000000%Z; lia).
  destruct (digit_run_full (digits 6 v) c s) as (tl & Hrun & Htl).
  { intros Hnil. by rewrite Hnil in Hlen. }
  { apply digits_are_digits. }
  { done. }
  rewrite Hlen in Hrun. rewrite match_items_cons. cbn [match_item]. rewrite Hrun.
  cbn [map flat_map]. rewrite Hlen, Hint, lit_step.
  change (6 - Z.of_nat 6)%Z with 0%Z. rewrite Z.pow_0_r, Z.mul_1_r.
  assert (flat_map (fun '(a', s') => match_items (FLit sep :: rest) s' a')
            (map (fun '(m, r) =>
                    (mkFields (fY a) (fm a) (fd a) (fH a) (fM a) (fS a)
                              (int_of m * 10 ^ (6 - Z.of_nat (length m))), r)) tl) = []) as ->.
  { clear Hrun. induction Htl as [|[m r] tl (d & r' & Hr & Hd) _ IH]; [done|].
    simpl in Hr. subst r. cbn [map flat_map]. rewrite lit_step, (Hsep d Hd). exact IH. }
  by rewrite app_nil_r.
Qed.

Lemma string_length_list s : String.length s = length (list_ascii_of_string s).
Proof. induction s as [|c s IH]; simpl; [done|]. by rewrite IH. Qed.

Lemma kills_digits c :
  is_digit c = false ->
  (forall d, is_digit d = true -> Ascii.eqb (lower c) (lower d) = false).
Proof.
  intros Hc d Hd. apply Ascii.eqb_neq. intros Heq.
  assert (lower d = d) as Hld.
  { clear -Hd. destruct d as [[] [] [] [] [] [] [] []]; try done. }
  rewrite Hld in Heq.
  assert (is_digit (lower c) = false) as Hlc.
  { clear -Hc. destruct c as [[] [] [] [] [] [] [] []]; try done. }
  congruence.
Qed.

Lemma days_in_month_le y m : (days_in_month y m <= 31)%Z.
Proof.
  unfold days_in_month. destruct (m =? 2)%Z; [destruct (is_leap y); lia|].
  destruct (_ || _); lia.
Qed.

Ltac lit :=
  repeat match goal with
    | |- context [Ascii.eqb (lower ?a) (lower ?b)] =>
        let v := eval vm_compute in (Ascii.eqb (lower a) (lower b)) in
        change (Ascii.eqb (lower a) (lower b)) with v; cbv iota
    end.

(** The text [isoformat] writes for a naive datetime, followed by the
    designator [Z], is read back by [parse_iso_datetime] as the same
    datetime in UTC: with the first format when there are microseconds,
    and with the second when [isoformat] left them out. *)
Theorem timestamp_wire_round_trip (d : datetime) :
  valid_datetime d = true -> tzinfo d = None ->
  serialize_datetime (VDate d) = VStr (isoformat d) /\
  parse_iso_datetime (isoformat d ++ "Z") = Ok (replace_tzinfo d (Some utc)) /\
  Timestamp_deserialize (VStr (isoformat d ++ "Z")) false
  = Ok (VDate (replace_tzinfo d (Some utc))).
Proof.
  intros Hvalid Htz.
  assert (parse_iso_datetime (isoformat d ++ "Z") = Ok (replace_tzinfo d (Some utc))) as Hparse;
    [|split_and!; [done|done|by simpl; rewrite Hparse]].
  destruct d as [Y mo dd H M S us tz]. simpl in Htz. subst tz.
  unfold valid_datetime in Hvalid. cbn [year month day hour minute second microsecond] in Hvalid.
  repeat (apply andb_true_iff in Hvalid as [Hvalid ?]).
  repeat match goal with Hle : (_ <=? _)%Z = true |- _ => apply Z.leb_le in Hle end.
  set (frac := if (us =? 0)%Z then [] else "."%char :: digits 6 us).
  assert (list_ascii_of_string (isoformat (mkDatetime Y mo dd H M S us None) ++ "Z")
          = digits 4 Y ++ "-"%char :: digits 2 mo ++ "-"%char :: digits 2 dd ++ "T"%char
            :: digits 2 H ++ ":"%char :: digits 2 M ++ ":"%char :: digits 2 S
            ++ frac ++ ["Z"%char]) as Hlist.
  { unfold isoformat, frac, digits.
    cbn [year month day hour minute second microsecond tzinfo].
    rewrite !list_ascii_of_string_app. simpl (list_ascii_of_string "-").
    simpl (list_ascii_of_string "T"). simpl (list_ascii_of_string ":").
    simpl (list_ascii_of_string ""). simpl (list_ascii_of_string "Z").
    destruct (us =? 0)%Z.
    - simpl (list_ascii_of_string ""). rewrite <- !app_assoc. reflexivity.
    - rewrite !list_ascii_of_string_app. simpl (list_ascii_of_string ".").
      rewrite <- !app_assoc. reflexivity. }
  assert ((27 <? String.length (isoformat (mkDatetime Y mo dd H M S us None) ++ "Z"))%nat
          = false) as Hlen.
  { apply Nat.ltb_ge. rewrite string_length_list, Hlist.
    repeat (rewrite ?length_app, ?length_cons, ?digits_length).
    unfold frac. destruct (us =? 0)%Z; simpl; rewrite ?digits_length; lia. }
  unfold parse_iso_datetime. rewrite Hlen.
  assert (forall c, is_digit c = false ->
            forall dg, is_digit dg = true -> Ascii.eqb (lower c) (lower dg) = false) as Hk
    by apply kills_digits.
  unfold strptime.
  change (compile_format (list_ascii_of_string "%Y-%m-%dT%H:%M:%S.%fZ"))
    with (Some [FYear; FLit "-"; FMonth; FLit "-"; FDay; FLit "T"; FHour; FLit ":";
                FMinute; FLit ":"; FSecond; FLit "."; FMicro; FLit "Z"]%char).
  change (compile_format (list_ascii_of_string "%Y-%m-%dT%H:%M:%SZ"))
    with (Some [FYear; FLit "-"; FMonth; FLit "-"; FDay; FLit "T"; FHour; FLit ":";
                FMinute; FLit ":"; FSecond; FLit "Z"]%char).
  rewrite Hlist.
  rewrite !year_step by lia. rewrite !lit_step. lit.
  rewrite !month_step by (try apply Hk; done || lia). lit.
  rewrite !day_step by (try apply Hk; done || lia
                        || (pose proof (days_in_month_le Y mo); lia)). lit.
  rewrite !hour_step by (try apply Hk; done || lia). lit.
  rewrite !minute_step by (try apply Hk; done || lia). lit.
  unfold frac. destruct (us =? 0)%Z eqn:Hus.
  - apply Z.eqb_eq in Hus. subst us. cbn [app].
    rewrite !second_step by (try apply Hk; done || lia). lit.
    cbn [match_items fY fm fd fH fM fS ff fields0].
    rewrite !(proj2 (Z.leb_le _ _)) by lia. done.
  - cbn [app].
    rewrite second_step by (try apply Hk; done || lia). lit.
    rewrite micro_step by (try apply Hk; done || lia). lit.
    cbn [match_items fY fm fd fH fM fS ff fields0].
    rewrite !(proj2 (Z.leb_le _ _)) by lia. done.
Qed.

Lemma timestamp_wire_round_trip_witness :
  let noon := mkDatetime 2020 2 29 12 0 0 0 None in
  serialize_datetime (VDate noon) = VStr "2020-02-29T12:00:00" /\
  parse_iso_datetime "2020-02-29T12:00:00Z" = Ok (mkDatetime 2020 2 29 12 0 0 0 (Some utc)) /\
  Timestamp_deserialize (VStr "2020-02-29T12:00:00Z") false
  = Ok (VDate (mkDatetime 2020 2 29 12 0 0 0 (Some utc))).
Proof.
  intros noon.
  apply (timestamp_wire_round_trip noon); reflexivity.
Defined.

(** ** The registries of a class *)

Section MetaFacts.
Import Meta.

Lemma is_reference_type_renamed ds d n d' :
  is_reference_type (set_attribute_name ds d n) d' = is_reference_type ds d'.
Proof.
  unfold is_reference_type, set_attribute_name.
  destruct (decide (d = d')) as [->|Hne].
  - rewrite lookup_alter_eq. by destruct (ds !! d').
  - by rewrite lookup_alter_ne.
Qed.

Lemma declared_cons_ne n m rest name :
  n <> name -> declared ((n, m) :: rest) name = declared rest name.
Proof. intros Hne. unfold declared. simpl. by rewrite decide_False. Qed.

Lemma declared_fresh rest name : name ∉ rest.*1 -> declared rest name = None.
Proof. intros H. unfold declared. by rewrite (proj2 (dict_get_None rest name) H). Qed.

Lemma register_get items : forall types references ds name,
  NoDup items.*1 ->
  dict_get (register items types references ds).1.1 name
  = match declared items name with
    | Some d => Some d
    | None => dict_get types name
    end /\
  dict_get (register items types references ds).1.2 name
  = match declared_reference ds items name with
    | Some d => Some d
    | None => dict_get references name
    end.
Proof.
  induction items as [|[n m] items IH]; intros types references ds name Hnd; [done|].
  inversion Hnd as [|? ? Hn Hnd']; subst.
  unfold declared_reference. destruct m as [d|t]; cbn [register].
  - destruct (IH (dict_set types n d)
                 (if is_reference_type ds d then dict_set references n d else references)
                 (set_attribute_name ds d n) name Hnd') as [Ht Hr].
    rewrite Ht, Hr. unfold declared_reference.
    destruct (decide (n = name)) as [->|Hne].
    + rewrite (declared_fresh items name Hn).
      unfold declared. simpl. rewrite decide_True by done.
      rewrite dict_get_set_eq. split; [done|].
      destruct (is_reference_type ds d); [by rewrite dict_get_set_eq|done].
    + rewrite (declared_cons_ne _ _ _ _ Hne), dict_get_set_ne by done.
      split; [done|].
      destruct (declared items name) as [d'|].
      * rewrite is_reference_type_renamed.
        destruct (is_reference_type ds d'); [done|].
        destruct (is_reference_type ds d); [by rewrite dict_get_set_ne|done].
      * destruct (is_reference_type ds d); [by rewrite dict_get_set_ne|done].
  - destruct (IH types references ds name Hnd') as [Ht Hr]. rewrite Ht, Hr.
    unfold declared_reference.
    destruct (decide (n = name)) as [->|Hne].
    + rewrite (declared_fresh items name Hn). unfold declared. simpl.
      by rewrite decide_True.
    + by rewrite (declared_cons_ne _ _ _ _ Hne).
Qed.

Lemma inherit_types_get ds b_types : forall types attrs name,
  dict_get (inherit_types ds b_types types attrs).1 name
  = match dict_get types name with
    | Some d => Some d
    | None => dict_get b_types name
    end.
Proof.
  induction b_types as [|[n d] rest IH]; intros types attrs name; cbn [inherit_types].
  - cbn [fst]. by destruct (dict_get types name).
  - unfold dict_has. destruct (dict_get types n) as [d0|] eqn:Hn.
    + rewrite IH. destruct (dict_get types name) eqn:Hname; [done|].
      simpl. rewrite decide_False; [done|]. intros ->. congruence.
    + rewrite IH. destruct (decide (n = name)) as [->|Hne].
      * rewrite dict_get_set_eq, Hn. simpl. by rewrite decide_True.
      * rewrite dict_get_set_ne by done. simpl. by rewrite decide_False.
Qed.

Lemma inherit_references_get b_references : forall references name,
  dict_get (inherit_references b_references references) name
  = match dict_get references name with
    | Some d => Some d
    | None => dict_get b_references name
    end.
Proof.
  induction b_references as [|[n d] rest IH]; intros references name;
    cbn [inherit_references].
  - by destruct (dict_get references name).
  - rewrite IH. unfold dict_has. destruct (dict_get references n) as [d0|] eqn:Hn.
    + destruct (dict_get references name) eqn:Hname; [done|].
      simpl. rewrite decide_False; [done|]. intros ->. congruence.
    + destruct (decide (n = name)) as [->|Hne].
      * rewrite dict_get_set_eq, Hn. simpl. by rewrite decide_True.
      * rewrite dict_get_set_ne by done. simpl. by rewrite decide_False.
Qed.

Lemma inherit_get ds bases : forall types references attrs name,
  dict_get (inherit ds bases types references attrs).1.1 name
  = match dict_get types name with
    | Some d => Some d
    | None => first_base b_attribute_types bases name
    end /\
  dict_get (inherit ds bases types references attrs).1.2 name
  = match dict_get references name with
    | Some d => Some d
    | None => first_base b_reference_attribute_types bases name
    end.
Proof.
  induction bases as [|b bases IH]; intros types references attrs name; cbn [inherit].
  - cbn [fst snd]. by destruct (dict_get types name), (dict_get references name).
  - cbn [first_base].
    destruct (b_attribute_types b) as [bt|], (b_reference_attribute_types b) as [br|].
    + destruct (inherit_types ds bt types attrs) as [types' attrs'] eqn:Hit.
      destruct (IH types' (inherit_references br references) attrs' name) as [Ht Hr].
      rewrite Ht, Hr.
      replace types' with (inherit_types ds bt types attrs).1 by (by rewrite Hit).
      rewrite inherit_types_get, inherit_references_get.
      by destruct (dict_get types name), (dict_get references name),
        (dict_get bt name), (dict_get br name).
    + destruct (inherit_types ds bt types attrs) as [types' attrs'] eqn:Hit.
      destruct (IH types' references attrs' name) as [Ht Hr].
      rewrite Ht, Hr.
      replace types' with (inherit_types ds bt types attrs).1 by (by rewrite Hit).
      rewrite inherit_types_get.
      by destruct (dict_get types name), (dict_get bt name).
    + destruct (IH types (inherit_references br references) attrs name) as [Ht Hr].
      rewrite Ht, Hr. rewrite inherit_references_get.
      by destruct (dict_get references name), (dict_get br name).
    + apply IH.
Qed.

Lemma new_registries bases attrs ds :
  attribute_types (new bases attrs ds)
  = (inherit (register attrs [] [] ds).2 bases (register attrs [] [] ds).1.1
             (register attrs [] [] ds).1.2 attrs).1.1 /\
  reference_attribute_types (new bases attrs ds)
  = (inherit (register attrs [] [] ds).2 bases (register attrs [] [] ds).1.1
             (register attrs [] [] ds).1.2 attrs).1.2 /\
  ATTRIBUTES (new bases attrs ds) = (attribute_types (new bases attrs ds)).*1 /\
  descriptors (new bases attrs ds) = (register attrs [] [] ds).2.
Proof.
  unfold new. destruct (register attrs [] [] ds) as [[types references] ds'].
  cbn [fst snd]. by destruct (inherit ds' bases types references attrs) as [[t r] a].
Qed.
End MetaFacts.

Lemma registries_get bases attrs ds name :
  NoDup attrs.*1 ->
  dict_get (Meta.attribute_types (Meta.new bases attrs ds)) name
  = match Meta.declared attrs name with
    | Some d => Some d
    | None => Meta.first_base Meta.b_attribute_types bases name
    end /\
  dict_get (Meta.reference_attribute_types (Meta.new bases attrs ds)) name
  = match Meta.declared_reference ds attrs name with
    | Some d => Some d
    | None => Meta.first_base Meta.b_reference_attribute_types bases name
    end.
Proof.
  intros Hnd.
  destruct (new_registries bases attrs ds) as (-> & -> & _).
  destruct (inherit_get (Meta.register attrs [] [] ds).2 bases
                        (Meta.register attrs [] [] ds).1.1
                        (Meta.register attrs [] [] ds).1.2 attrs name) as [-> ->].
  destruct (register_get attrs [] [] ds name Hnd) as [-> ->].
  by destruct (Meta.declared attrs name), (Meta.declared_reference ds attrs name).
Qed.

(** Each registry of a class is resolved the same way: what the class body
    declares under a name wins, and otherwise the first base, in the order
    the bases are listed, that has the name.  The two registries are
    resolved separately, so a reference of a base that the class body
    overrides with a plain attribute stays in [_reference_attribute_types]
    while [_attribute_types] holds the plain attribute.  [_no_inherit]
    plays no part in either. *)
Theorem registries_resolve_by_declaration_then_bases (bases : list Meta.base)
        (attrs : list (string * Meta.member)) (ds : gmap objid Meta.descriptor) (name : string) :
  let cls := Meta.new bases attrs ds in
  NoDup attrs.*1 ->
  dict_get (Meta.attribute_types cls) name
  = match Meta.declared attrs name with
    | Some d => Some d
    | None => Meta.first_base Meta.b_attribute_types bases name
    end /\
  dict_get (Meta.reference_attribute_types cls) name
  = match Meta.declared_reference ds attrs name with
    | Some d => Some d
    | None => Meta.first_base Meta.b_reference_attribute_types bases name
    end.
Proof. intros cls Hnd. by apply registries_get. Qed.

(** The base declares the reference [product]; the class body binds
    [product] to a plain attribute. *)
Lemma registries_resolve_by_declaration_then_bases_witness :
  let ds : gmap objid Meta.descriptor :=
    list_to_map [(1%positive, Meta.mkDescriptor product_attr true);
                 (2%positive, Meta.mkDescriptor (plain KAttribute "") true)] in
  let parent := Meta.mkBase (Some [("product", 1%positive)])
                            (Some [("product", 1%positive)]) in
  let cls := Meta.new [parent] [("product", Meta.MAttribute 2%positive)] ds in
  dict_get (Meta.attribute_types cls) "product" = Some 2%positive /\
  dict_get (Meta.reference_attribute_types cls) "product" = Some 1%positive.
Proof.
  intros ds parent cls.
  apply (registries_resolve_by_declaration_then_bases [parent]
           [("product", Meta.MAttribute 2%positive)] ds "product").
  apply (bool_decide_unpack _). by vm_compute.
Defined.

Section MetaOrder.
Import Meta.

Lemma dict_set_keys {V} (d : list (string * V)) k v :
  (dict_set d k v).*1 = if dict_has d k then d.*1 else d.*1 ++ [k].
Proof.
  unfold dict_has. destruct (dict_get d k) as [w|] eqn:Hk.
  - revert Hk. induction d as [|[k' v'] d IH]; [done|]. cbn [dict_get dict_set].
    destruct (decide (k' = k)) as [->|Hne]; [done|].
    intros Hk. rewrite !fmap_cons. by rewrite IH.
  - rewrite dict_set_fresh by (by apply dict_get_None). by rewrite fmap_app.
Qed.

Lemma dict_has_keys {V} (d : list (string * V)) k : dict_has d k = true <-> k ∈ d.*1.
Proof.
  unfold dict_has. destruct (dict_get d k) eqn:H.
  - split; [|done]. intros _. apply dict_get_elem_of in H.
    apply list_elem_of_fmap. by exists (k, v).
  - split; [done|]. intros Hin. by apply dict_get_None in H.
Qed.

Lemma dict_set_keys_NoDup {V} (d : list (string * V)) k v :
  NoDup d.*1 -> NoDup (dict_set d k v).*1.
Proof.
  intros Hnd. rewrite dict_set_keys. destruct (dict_has d k) eqn:Hk; [done|].
  apply NoDup_app. split_and!; [done| |apply NoDup_singleton].
  intros x Hx Hin%list_elem_of_singleton. subst x.
  apply dict_has_keys in Hx. congruence.
Qed.

Lemma declared_names_declared attrs n :
  NoDup attrs.*1 -> n ∈ declared_names attrs <-> is_Some (declared attrs n).
Proof.
  induction attrs as [|[k m] attrs IH]; intros Hnd.
  - split; [by intros H%elem_of_nil | by intros [? ?]].
  - inversion Hnd as [|? ? Hk Hnd']; subst.
    destruct (decide (k = n)) as [->|Hne].
    + unfold declared. simpl. rewrite decide_True by done.
      destruct m as [d|t]; simpl.
      * split; [by eexists | intros _; left].
      * rewrite (IH Hnd'). rewrite (declared_fresh attrs n Hk).
        split; [done | by intros [? ?]].
    + rewrite (declared_cons_ne _ _ _ _ Hne). rewrite <- (IH Hnd').
      destruct m as [d|t]; simpl; [|done].
      rewrite elem_of_cons. split; [by intros [?|?] | by right].
Qed.

Lemma declared_names_keys attrs n : n ∈ declared_names attrs -> n ∈ attrs.*1.
Proof.
  induction attrs as [|[k m] attrs IH]; [done|].
  destruct m as [d|t]; simpl; rewrite ?elem_of_cons; intuition.
Qed.

Lemma register_keys items : forall types references ds,
  NoDup items.*1 -> (forall n, n ∈ items.*1 -> n ∉ types.*1) ->
  (register items types references ds).1.1.*1 = types.*1 ++ declared_names items.
Proof.
  induction items as [|[n m] items IH]; intros types references ds Hnd Hfresh.
  - simpl. by rewrite app_nil_r.
  - inversion Hnd as [|? ? Hn Hnd']; subst.
    destruct m as [d|t]; cbn [register declared_names].
    + rewrite IH; [|done|].
      * rewrite dict_set_keys.
        destruct (dict_has types n) eqn:Hh.
        { apply dict_has_keys in Hh. exfalso. apply (Hfresh n); [left|done]. }
        by rewrite <- app_assoc.
      * intros k Hk. rewrite dict_set_keys.
        destruct (dict_has types n); [apply Hfresh; by right|].
        rewrite elem_of_app, list_elem_of_singleton. intros [Hin| ->].
        -- by apply (Hfresh k); [right|].
        -- done.
    + apply IH; [done|]. intros k Hk. apply Hfresh. by right.
Qed.

Lemma inherit_types_keys ds b_types : forall types attrs,
  NoDup types.*1 ->
  exists more,
    (inherit_types ds b_types types attrs).1.*1 = types.*1 ++ more /\
    NoDup (types.*1 ++ more).
Proof.
  induction b_types as [|[n d] rest IH]; intros types attrs Hnd; cbn [inherit_types].
  - exists []. by rewrite app_nil_r.
  - destruct (dict_has types n) eqn:Hh; [by apply IH|].
    destruct (IH (dict_set types n d)
                 (if inherits_docs ds attrs then dict_set attrs n (MAttribute d) else attrs))
      as (more & Hkeys & Hnd').
    { by apply dict_set_keys_NoDup. }
    rewrite dict_set_keys, Hh in Hkeys, Hnd'.
    exists (n :: more). rewrite Hkeys. rewrite <- app_assoc in *. done.
Qed.

Lemma inherit_keys ds bases : forall types references attrs,
  NoDup types.*1 ->
  exists more,
    (inherit ds bases types references attrs).1.1.*1 = types.*1 ++ more /\
    NoDup (types.*1 ++ more).
Proof.
  induction bases as [|b bases IH]; intros types references attrs Hnd; cbn [inherit].
  - exists []. by rewrite app_nil_r.
  - destruct (b_attribute_types b) as [bt|].
    + destruct (inherit_types_keys ds bt types attrs Hnd) as (more1 & Hk1 & Hnd1).
      destruct (inherit_types ds bt types attrs) as [types' attrs'] eqn:Hit.
      cbn [fst] in Hk1.
      destruct (IH types'
                   (match b_reference_attribute_types b with
                    | Some br => inherit_references br references
                    | None => references
                    end) attrs') as (more2 & Hk2 & Hnd2).
      { by rewrite Hk1. }
      exists (more1 ++ more2). rewrite Hk2, Hk1 in *. by rewrite <- !app_assoc in *.
    + apply IH. done.
Qed.

Lemma register_descriptors items : forall types references ds d x,
  ds !! d = Some x ->
  exists x',
    (register items types references ds).2 !! d = Some x' /\
    a_kind (d_attribute x') = a_kind (d_attribute x) /\
    a_params (d_attribute x') = a_params (d_attribute x) /\
    d_truth x' = d_truth x /\
    a_name (d_attribute x') = default (a_name (d_attribute x)) (last_name items d).
Proof.
  induction items as [|[n m] items IH]; intros types references ds d x Hx.
  - exists x. by split_and!.
  - destruct m as [d0|t]; cbn [register last_name].
    + set (ds1 := set_attribute_name ds d0 n).
      destruct (decide (d0 = d)) as [->|Hne].
      * set (x1 := mkDescriptor (mkAttribute (a_kind (d_attribute x)) n
                                             (a_params (d_attribute x))) (d_truth x)).
        assert (ds1 !! d = Some x1) as H1.
        { unfold ds1, set_attribute_name. by rewrite lookup_alter_eq, Hx. }
        destruct (IH (dict_set types n d)
                     (if is_reference_type ds d then dict_set references n d else references)
                     ds1 d x1 H1) as (x' & Hx' & Hk & Hp & Ht & Hn).
        exists x'. split_and!; try done. rewrite Hn.
        by destruct (last_name items d).
      * assert (ds1 !! d = Some x) as H1.
        { unfold ds1, set_attribute_name. by rewrite lookup_alter_ne. }
        destruct (IH (dict_set types n d0)
                     (if is_reference_type ds d0 then dict_set references n d0 else references)
                     ds1 d x H1) as (x' & Hx' & Hk & Hp & Ht & Hn).
        exists x'. split_and!; try done. rewrite Hn.
        by destruct (last_name items d).
    + destruct (IH types references ds d x Hx) as (x' & Hx' & Hk & Hp & Ht & Hn).
      exists x'. split_and!; try done. rewrite Hn. by destruct (last_name items d).
Qed.
End MetaOrder.

(** [ATTRIBUTES] lists the names of [_attribute_types], each once: first
    the attributes of the class body in the order of the body, then the
    inherited ones, which are names the body does not declare and some base
    has. *)
Theorem ATTRIBUTES_order (bases : list Meta.base) (attrs : list (string * Meta.member))
        (ds : gmap objid Meta.descriptor) :
  let cls := Meta.new bases attrs ds in
  NoDup attrs.*1 ->
  Meta.ATTRIBUTES cls = (Meta.attribute_types cls).*1 /\
  NoDup (Meta.ATTRIBUTES cls) /\
  exists inherited,
    Meta.ATTRIBUTES cls = Meta.declared_names attrs ++ inherited /\
    Forall (fun n => Meta.declared attrs n = None /\
                     is_Some (Meta.first_base Meta.b_attribute_types bases n)) inherited.
Proof.
  intros cls Hnd.
  destruct (new_registries bases attrs ds) as (Htypes & _ & Hattrs & _).
  fold cls in Htypes, Hattrs.
  assert ((Meta.register attrs [] [] ds).1.1.*1 = Meta.declared_names attrs) as Hreg.
  { rewrite register_keys; [done|done|]. intros n _. apply not_elem_of_nil. }
  assert (NoDup (Meta.register attrs [] [] ds).1.1.*1) as Hnd0.
  { rewrite Hreg. clear -Hnd.
    induction attrs as [|[k m] attrs IH]; [constructor|].
    inversion Hnd as [|? ? Hk Hnd']; subst.
    destruct m; simpl; [|by apply IH]. constructor; [|by apply IH].
    intros Hin. by apply Hk, declared_names_keys. }
  destruct (inherit_keys (Meta.register attrs [] [] ds).2 bases
                         (Meta.register attrs [] [] ds).1.1
                         (Meta.register attrs [] [] ds).1.2 attrs Hnd0)
    as (inherited & Hkeys & Hnd1).
  rewrite <- Htypes in Hkeys. rewrite Hreg in Hkeys, Hnd1.
  split_and!; [done| by rewrite Hattrs, Hkeys |].
  exists inherited. split; [by rewrite Hattrs, Hkeys|].
  apply Forall_forall. intros n Hn.
  apply NoDup_app in Hnd1 as (_ & Hdisj & _).
  assert (Meta.declared attrs n = None) as Hdecl.
  { destruct (Meta.declared attrs n) as [d|] eqn:Hd; [|done]. exfalso.
    apply (Hdisj n); [|done]. apply declared_names_declared; [done|]. by rewrite Hd. }
  split; [done|].
  destruct (registries_get bases attrs ds n Hnd) as [Hget _]. fold cls in Hget.
  rewrite Hdecl in Hget. rewrite <- Hget.
  assert (n ∈ (Meta.attribute_types cls).*1) as Hin.
  { rewrite Hkeys. apply elem_of_app. by right. }
  apply dict_has_keys in Hin. unfold dict_has in Hin.
  by destruct (dict_get (Meta.attribute_types cls) n).
Qed.

Lemma ATTRIBUTES_order_witness :
  let ds : gmap objid Meta.descriptor :=
    list_to_map [(1%positive, Meta.mkDescriptor (plain KAttribute "a") true);
                 (2%positive, Meta.mkDescriptor (plain KAttribute "") true);
                 (3%positive, Meta.mkDescriptor (plain KAttribute "") true)] in
  let parent := Meta.mkBase (Some [("a", 1%positive); ("c", 1%positive)]) (Some []) in
  let attrs := [("b", Meta.MAttribute 2%positive); ("_no_inherit", Meta.MOther true);
                ("a", Meta.MAttribute 3%positive)] in
  let cls := Meta.new [parent] attrs ds in
  Meta.ATTRIBUTES cls = (Meta.attribute_types cls).*1 /\
  NoDup (Meta.ATTRIBUTES cls) /\
  exists inherited,
    Meta.ATTRIBUTES cls = Meta.declared_names attrs ++ inherited /\
    Forall (fun n => Meta.declared attrs n = None /\
                     is_Some (Meta.first_base Meta.b_attribute_types [parent] n)) inherited.
Proof.
  intros ds parent attrs cls.
  apply (ATTRIBUTES_order [parent] attrs ds).
  apply (bool_decide_unpack _). by vm_compute.
Defined.

(** A descriptor is one object however many names it goes by.  After the
    class is made, it carries the last name the class body bound it to, or
    the name it had if the body does not bind it; its class and flags are
    as before.  Every name the body binds it to leads to it in
    [_attribute_types], so two names bound to one descriptor read and write
    one slot, that of the later name. *)
Theorem shared_descriptor_takes_the_last_name (bases : list Meta.base)
        (attrs : list (string * Meta.member)) (ds : gmap objid Meta.descriptor)
        (d : objid) (x : Meta.descriptor) :
  let cls := Meta.new bases attrs ds in
  ds !! d = Some x -> NoDup attrs.*1 ->
  (exists x',
     Meta.descriptors cls !! d = Some x' /\
     a_kind (Meta.d_attribute x') = a_kind (Meta.d_attribute x) /\
     a_params (Meta.d_attribute x') = a_params (Meta.d_attribute x) /\
     Meta.d_truth x' = Meta.d_truth x /\
     a_name (Meta.d_attribute x')
     = default (a_name (Meta.d_attribute x)) (Meta.last_name attrs d)) /\
  (forall n, dict_get attrs n = Some (Meta.MAttribute d) ->
             dict_get (Meta.attribute_types cls) n = Some d).
Proof.
  intros cls Hx Hnd. split.
  - destruct (new_registries bases attrs ds) as (_ & _ & _ & Hds). fold cls in Hds.
    rewrite Hds. by apply register_descriptors.
  - intros n Hn. destruct (registries_get bases attrs ds n Hnd) as [Hget _].
    fold cls in Hget. rewrite Hget. unfold Meta.declared. by rewrite Hn.
Qed.

Lemma shared_descriptor_takes_the_last_name_witness :
  let ds : gmap objid Meta.descriptor :=
    list_to_map [(1%positive, Meta.mkDescriptor (plain KAttribute "") true)] in
  let attrs := [("start", Meta.MAttribute 1%positive); ("begin", Meta.MAttribute 1%positive)] in
  let cls := Meta.new [] attrs ds in
  (exists x',
     Meta.descriptors cls !! 1%positive = Some x' /\
     a_kind (Meta.d_attribute x') = KAttribute /\
     a_params (Meta.d_attribute x') = default_params /\
     Meta.d_truth x' = true /\
     a_name (Meta.d_attribute x') = "begin") /\
  (forall n, dict_get attrs n = Some (Meta.MAttribute 1%positive) ->
             dict_get (Meta.attribute_types cls) n = Some 1%positive).
Proof.
  intros ds attrs cls.
  apply (shared_descriptor_takes_the_last_name [] attrs ds 1%positive
           (Meta.mkDescriptor (plain KAttribute "") true)).
  - reflexivity.
  - apply (bool_decide_unpack _). by vm_compute.
Defined.

Lemma append_then_pop_witness :
  let tags := list_of KAttribute [VInt 1; VInt 2] [] in
  let st := mkState (heap_of [(1%positive, tags)]) [] in
  (run append permissive (calls_at permissive 1) 1%positive (VInt 3);
   pop permissive (calls_at permissive 1) 1%positive (-1)) st
  = (Ok (VInt 3), mkState (heap st) (log st ++ told true tags ++ told true tags)).
Proof.
  intros tags st.
  apply (append_then_pop permissive 0 1%positive tags (VInt 3) st).
  - reflexivity.
  - reflexivity.
  - reflexivity.
  - reflexivity.
  - constructor.
Defined.

(** ** Resolution strings *)

Section ResolutionFacts.
Import Resolution.

Lemma whitespace_not_number (c : ascii) : is_whitespace c = true -> in_number c = false.
Proof. by destruct c as [[] [] [] [] [] [] [] []]. Qed.

Lemma whitespace_not_unit (c : ascii) : is_whitespace c = true -> in_unit c = false.
Proof. by destruct c as [[] [] [] [] [] [] [] []]. Qed.

Lemma letter_not_number (c : ascii) : is_letter c = true -> in_number c = false.
Proof. by destruct c as [[] [] [] [] [] [] [] []]. Qed.

Lemma letter_not_whitespace (c : ascii) : is_letter c = true -> is_whitespace c = false.
Proof. by destruct c as [[] [] [] [] [] [] [] []]. Qed.

Lemma letter_in_unit (c : ascii) : is_letter c = true -> in_unit c = true.
Proof. unfold in_unit. by intros ->. Qed.

Lemma point_in_unit (c : ascii) : is_point c = true -> in_unit c = true.
Proof. unfold in_unit. intros ->. by rewrite orb_true_r. Qed.

Lemma number_unit_point (c : ascii) :
  in_number c = true -> in_unit c = true -> is_point c = true.
Proof. by destruct c as [[] [] [] [] [] [] [] []]. Qed.

Lemma lower_letter_not_point (c : ascii) : is_letter c = true -> is_point (lower c) = false.
Proof. by destruct c as [[] [] [] [] [] [] [] []]. Qed.

Lemma lower_point (c : ascii) : is_point c = true -> is_point (lower c) = true.
Proof. by destruct c as [[] [] [] [] [] [] [] []]. Qed.

Lemma plus_ends (p : ascii -> bool) (s : list ascii) : ends p s = true -> plus p s = [].
Proof. destruct s as [|c s]; [done|]. simpl. by destruct (p c). Qed.

Lemma plus_full (p : ascii -> bool) (n rest : list ascii) :
  n <> [] -> forallb p n = true -> ends p rest = true ->
  exists l, plus p (n ++ rest) = (n, rest) :: l.
Proof.
  intros Hn Hp He. induction n as [|c n IH]; [done|].
  simpl in Hp. apply andb_true_iff in Hp as [Hc Hp].
  destruct n as [|c' n].
  - simpl. rewrite Hc, (plus_ends _ _ He). by exists [].
  - destruct (IH ltac:(done) Hp) as [l Hl].
    change ((c :: c' :: n) ++ rest) with (c :: ((c' :: n) ++ rest)).
    cbn [plus]. rewrite Hc, Hl. cbn [map app]. by eexists.
Qed.

Lemma star_full (p : ascii -> bool) (n rest : list ascii) :
  forallb p n = true -> ends p rest = true ->
  exists l, star p (n ++ rest) = (n, rest) :: l.
Proof.
  intros Hp He. unfold star. destruct n as [|c n].
  - simpl. rewrite (plus_ends _ _ He). by exists [].
  - destruct (plus_full p (c :: n) rest ltac:(done) Hp He) as [l ->]. by eexists.
Qed.

Lemma ends_app (p : ascii -> bool) (a b : list ascii) :
  ends p b = true -> (forall c, head a = Some c -> p c = false) -> ends p (a ++ b) = true.
Proof.
  intros Hb Ha. destruct a as [|c a]; [done|]. simpl. by rewrite (Ha c).
Qed.

Lemma lstrip_points_app (ps l : list ascii) :
  forallb is_point ps = true -> lstrip_points (ps ++ l) = lstrip_points l.
Proof.
  induction ps as [|c ps IH]; [done|]. simpl. intros [Hc Hp]%andb_true_iff.
  rewrite Hc. by apply IH.
Qed.

Lemma lstrip_points_stop (l : list ascii) :
  ends is_point l = true -> lstrip_points l = l.
Proof. destruct l as [|c l]; [done|]. simpl. by destruct (is_point c). Qed.

Lemma forallb_rev {A} (p : A -> bool) (l : list A) : forallb p (rev l) = forallb p l.
Proof.
  induction l as [|a l IH]; [done|]. simpl. rewrite forallb_app, IH. simpl.
  rewrite andb_true_r. apply andb_comm.
Qed.

Lemma rstrip_points_word (word points : list ascii) :
  word <> [] -> forallb is_letter word = true -> forallb is_point points = true ->
  rstrip_points (map lower (word ++ points)) = map lower word.
Proof.
  intros Hw Hl Hp. unfold rstrip_points.
  rewrite map_app, rev_app_distr, lstrip_points_app.
  - rewrite lstrip_points_stop; [apply rev_involutive|].
    destruct (exists_last Hw) as (w & c & ->).
    rewrite map_app, rev_app_distr. simpl.
    rewrite forallb_app in Hl. apply andb_true_iff in Hl as [_ Hc]. simpl in Hc.
    apply andb_true_iff in Hc as [Hc _]. by rewrite (lower_letter_not_point _ Hc).
  - rewrite forallb_rev. clear -Hp. induction points as [|c ps IH]; [done|].
    simpl in *. apply andb_true_iff in Hp as [Hc Hp]. by rewrite (lower_point _ Hc), IH.
Qed.

Lemma rstrip_points_points (points : list ascii) :
  forallb is_point points = true -> rstrip_points (map lower points) = [].
Proof.
  intros Hp. unfold rstrip_points.
  assert (forallb is_point (rev (map lower points)) = true) as H.
  { rewrite forallb_rev. induction points as [|c ps IH]; [done|].
    simpl in *. apply andb_true_iff in Hp as [Hc Hp]. by rewrite (lower_point _ Hc), IH. }
  pose proof (lstrip_points_app _ [] H) as H2. rewrite app_nil_r in H2. by rewrite H2.
Qed.

(** The first match of the pattern on a number, white space and a run of
    unit characters that ends there *)
Lemma pattern_match_full (n ws w tail : list ascii) :
  n <> [] -> forallb in_number n = true -> forallb is_whitespace ws = true ->
  w <> [] -> forallb in_unit w = true ->
  ends in_number (ws ++ w) = true -> ends is_whitespace w = true ->
  ends in_unit tail = true ->
  pattern_match (n ++ ws ++ w ++ tail) = Some (n, w).
Proof.
  intros Hn Hnn Hws Hw Hwu He1 He2 He3. unfold pattern_match, matches.
  assert (ends in_number (ws ++ w ++ tail) = true) as He1'.
  { rewrite app_assoc. destruct (ws ++ w) as [|c l] eqn:Heq; [|done].
    apply app_eq_nil in Heq as [_ ->]. done. }
  assert (ends is_whitespace (w ++ tail) = true) as He2'.
  { destruct w; done. }
  destruct (plus_full in_number n _ Hn Hnn He1') as [l1 ->].
  cbn [flat_map].
  destruct (star_full is_whitespace ws _ Hws He2') as [l2 ->].
  cbn [flat_map].
  destruct (plus_full in_unit w _ Hw Hwu He3) as [l3 ->].
  done.
Qed.

Lemma plus_inv (p : ascii -> bool) (s m r : list ascii) :
  (m, r) ∈ plus p s -> m <> [] /\ forallb p m = true /\ s = m ++ r.
Proof.
  revert m r. induction s as [|c s IH]; intros m r; simpl.
  - by intros ?%elem_of_nil.
  - destruct (p c) eqn:Hc; [|by intros ?%elem_of_nil].
    intros [H|H]%elem_of_app.
    + apply list_elem_of_fmap in H as ([m' r'] & Heq & H). injection Heq as -> ->.
      destruct (IH _ _ H) as (_ & Hp & ->). simpl. by rewrite Hc, Hp.
    + apply list_elem_of_singleton in H. injection H as -> ->. simpl. by rewrite Hc.
Qed.

Lemma star_inv (p : ascii -> bool) (s m r : list ascii) :
  (m, r) ∈ star p s -> forallb p m = true /\ s = m ++ r.
Proof.
  unfold star. intros [H|H]%elem_of_app.
  - by destruct (plus_inv _ _ _ _ H) as (_ & ? & ?).
  - apply list_elem_of_singleton in H. by injection H as -> ->.
Qed.

Lemma matches_inv (s g1 g2 : list ascii) :
  (g1, g2) ∈ matches s ->
  exists a1 sp a2 r, (g1, a1) ∈ plus in_number s /\ (sp, a2) ∈ star is_whitespace a1 /\
                     (g2, r) ∈ plus in_unit a2.
Proof.
  unfold matches. intros H. apply list_elem_of_In, in_flat_map in H as ([g a1] & H1 & H).
  apply in_flat_map in H as ([sp a2] & H2 & H).
  apply in_map_iff in H as ([g' r] & Heq & H3). injection Heq as -> ->.
  exists a1, sp, a2, r. by rewrite !list_elem_of_In.
Qed.

(** A run of [p] at the head of a text whose own run of [p] is [n] lies
    within [n]. *)
Lemma run_prefix (p : ascii -> bool) (g a n rest : list ascii) :
  forallb p g = true -> ends p rest = true -> n ++ rest = g ++ a ->
  exists n2, n = g ++ n2 /\ a = n2 ++ rest.
Proof.
  revert n. induction g as [|c g IH]; intros n Hg He Heq.
  - exists n. by simpl in *.
  - simpl in Hg. apply andb_true_iff in Hg as [Hc Hg]. destruct n as [|c' n].
    + simpl in Heq. subst rest. simpl in He. by rewrite Hc in He.
    + simpl in Heq. injection Heq as -> Heq. destruct (IH n Hg He Heq) as (n2 & -> & ->).
      by exists n2.
Qed.

(** A run of unit characters that starts in a number consists of points. *)
Lemma unit_run_in_number (g r n rest : list ascii) :
  forallb in_unit g = true -> forallb in_number n = true -> ends in_unit rest = true ->
  g ++ r = n ++ rest -> forallb is_point g = true.
Proof.
  revert n. induction g as [|c g IH]; intros n Hg Hn He Heq; [done|].
  simpl in Hg. apply andb_true_iff in Hg as [Hc Hg]. destruct n as [|c' n].
  - simpl in Heq. subst rest. simpl in He. by rewrite Hc in He.
  - simpl in Heq. injection Heq as -> Heq. simpl in Hn.
    apply andb_true_iff in Hn as [Hc' Hn]. simpl.
    by rewrite (number_unit_point _ Hc' Hc), (IH n Hg Hn He Heq).
Qed.

Lemma matches_without_unit (n ws tail g1 g2 : list ascii) :
  forallb in_number n = true -> forallb is_whitespace ws = true ->
  ends in_number tail = true -> ends is_whitespace tail = true -> ends in_unit tail = true ->
  (g1, g2) ∈ matches (n ++ ws ++ tail) -> forallb is_point g2 = true.
Proof.
  intros Hn Hws Ht1 Ht2 Ht3 H.
  destruct (matches_inv _ _ _ H) as (a1 & sp & a2 & r & H1 & H2 & H3).
  destruct (plus_inv _ _ _ _ H1) as (_ & Hg1 & Heq1).
  destruct (star_inv _ _ _ _ H2) as (Hsp & ->).
  destruct (plus_inv _ _ _ _ H3) as (Hg2 & Hu & ->).
  assert (ends in_number (ws ++ tail) = true) as He1.
  { apply ends_app; [done|]. intros c Hc. destruct ws as [|c' ws]; [done|].
    simpl in Hc, Hws. injection Hc as ->. apply andb_true_iff in Hws as [Hc _].
    by apply whitespace_not_number. }
  assert (ends in_unit (ws ++ tail) = true) as He3.
  { apply ends_app; [done|]. intros c Hc. destruct ws as [|c' ws]; [done|].
    simpl in Hc, Hws. injection Hc as ->. apply andb_true_iff in Hws as [Hc _].
    by apply whitespace_not_unit. }
  destruct (run_prefix in_number g1 _ n _ Hg1 He1 Heq1) as (n2 & -> & Heq2).
  rewrite forallb_app in Hn. apply andb_true_iff in Hn as [_ Hn2].
  destruct n2 as [|c n2].
  - simpl in Heq2. symmetry in Heq2.
    destruct (run_prefix is_whitespace sp _ ws _ Hsp Ht2 Heq2) as (ws2 & -> & Heq3).
    rewrite forallb_app in Hws. apply andb_true_iff in Hws as [_ Hws2].
    apply (unit_run_in_number g2 r [] (ws2 ++ tail)); [done..| |done].
    apply ends_app; [done|]. intros c Hc. destruct ws2 as [|c' ws2]; [done|].
    simpl in Hc, Hws2. injection Hc as ->. apply andb_true_iff in Hws2 as [Hc _].
    by apply whitespace_not_unit.
  - destruct sp as [|c' sp].
    + simpl in Heq2. by apply (unit_run_in_number g2 r (c :: n2) (ws ++ tail)).
    + simpl in Heq2, Hsp, Hn2. injection Heq2 as -> _.
      apply andb_true_iff in Hsp as [Hc _]. apply andb_true_iff in Hn2 as [Hc' _].
      by rewrite (whitespace_not_number _ Hc) in Hc'.
Qed.

End ResolutionFacts.

(** A resolution string is a number, optional white space and a unit word
    in any case with any number of periods after it; what follows the word
    is not read.  The unit word is looked up first, so that an unknown word
    raises [AttributeValidationError] whatever the number; a number that
    [float] cannot read, such as one with two points, raises
    [ValueError]. *)
Theorem resolution_string_forms (n ws word points tail : list ascii) :
  n <> [] -> forallb Resolution.in_number n = true ->
  forallb Resolution.is_whitespace ws = true ->
  word <> [] -> forallb Resolution.is_letter word = true ->
  forallb Resolution.is_point points = true ->
  Resolution.ends Resolution.in_unit tail = true ->
  Resolution.deserialize_string (string_of_list_ascii (n ++ ws ++ word ++ points ++ tail))
  = match dict_get Resolution.unit_mapping (string_of_list_ascii (map lower word)) with
    | None => Raise AttributeValidationError
    | Some u =>
        match Resolution.float n with
        | Some f => Ok (f, u)
        | None => Raise ValueError
        end
    end.
Proof.
  intros Hn Hnn Hws Hw Hl Hp He. unfold Resolution.deserialize_string.
  rewrite list_ascii_of_string_of_list_ascii.
  assert (exists c w', word = c :: w' /\ Resolution.is_letter c = true) as (c & w' & -> & Hc).
  { destruct word as [|c w']; [done|]. simpl in Hl. apply andb_true_iff in Hl as [Hc _].
    by exists c, w'. }
  rewrite (app_assoc (c :: w') points tail).
  rewrite (pattern_match_full n ws ((c :: w') ++ points) tail); try done.
  - by rewrite (rstrip_points_word _ _ Hw Hl Hp).
  - rewrite forallb_app. apply andb_true_iff. split.
    + clear -Hl. induction (c :: w') as [|a l IH]; [done|]. simpl in *.
      apply andb_true_iff in Hl as [Ha Hl]. by rewrite (letter_in_unit _ Ha), IH.
    + clear -Hp. induction points as [|a l IH]; [done|]. simpl in *.
      apply andb_true_iff in Hp as [Ha Hp]. by rewrite (point_in_unit _ Ha), IH.
  - destruct ws as [|c' ws].
    + simpl. by rewrite (letter_not_number _ Hc).
    + simpl in *. apply andb_true_iff in Hws as [Hc' _].
      by rewrite (whitespace_not_number _ Hc').
  - simpl. by rewrite (letter_not_whitespace _ Hc).
Qed.

Lemma resolution_string_forms_witness :
  Resolution.deserialize_string "-1.5 Deg.. per pixel"
  = Ok (Resolution.mkNumeral true 15 1, Resolution.DEGREES).
Proof.
  exact (resolution_string_forms
           (list_ascii_of_string "-1.5") (list_ascii_of_string " ")
           (list_ascii_of_string "Deg") (list_ascii_of_string "..")
           (list_ascii_of_string " per pixel")
           ltac:(done) eq_refl eq_refl ltac:(done) eq_refl eq_refl eq_refl).
Defined.

(** A string gives no resolution without a number at its start and a unit
    word after it: a text that does not start with a number character, and
    a number followed by nothing but white space and something that is no
    unit word, raise [AttributeValidationError]. *)
Theorem resolution_string_without_unit (s n ws tail : list ascii) :
  (Resolution.ends Resolution.in_number s = true ->
   Resolution.deserialize_string (string_of_list_ascii s) = Raise AttributeValidationError) /\
  (forallb Resolution.in_number n = true -> forallb Resolution.is_whitespace ws = true ->
   Resolution.ends Resolution.in_number tail = true ->
   Resolution.ends Resolution.is_whitespace tail = true ->
   Resolution.ends Resolution.in_unit tail = true ->
   Resolution.deserialize_string (string_of_list_ascii (n ++ ws ++ tail))
   = Raise AttributeValidationError).
Proof.
  split.
  - intros He. unfold Resolution.deserialize_string, Resolution.pattern_match,
      Resolution.matches.
    by rewrite list_ascii_of_string_of_list_ascii, (plus_ends _ _ He).
  - intros Hn Hws Ht1 Ht2 Ht3. unfold Resolution.deserialize_string, Resolution.pattern_match.
    rewrite list_ascii_of_string_of_list_ascii.
    destruct (Resolution.matches (n ++ ws ++ tail)) as [|[g1 g2] l] eqn:Hm; [done|].
    assert ((g1, g2) ∈ Resolution.matches (n ++ ws ++ tail)) as Hin.
    { rewrite Hm. apply list_elem_of_here. }
    simpl.
    by rewrite (rstrip_points_points _
                  (matches_without_unit _ _ _ _ _ Hn Hws Ht1 Ht2 Ht3 Hin)).
Qed.

Lemma resolution_string_without_unit_witness :
  Resolution.deserialize_string " 60m" = Raise AttributeValidationError /\
  Resolution.deserialize_string "60. /px" = Raise AttributeValidationError.
Proof.
  pose proof (resolution_string_without_unit
                (list_ascii_of_string " 60m") (list_ascii_of_string "60.")
                (list_ascii_of_string " ") (list_ascii_of_string "/px")) as [H1 H2].
  split; [exact (H1 eq_refl)|exact (H2 eq_refl eq_refl eq_refl eq_refl eq_refl)].
Defined.

Lemma map_instantiate_plain E r self x l add_model st :
  heap st !! self = Some x -> plain_list x = true ->
  map_M (fun o => instantiate E r self o add_model) l st = (Ok l, st).
Proof.
  intros H Hp. induction l as [|v l IH]; [done|]. cbn [map_M].
  rewrite (bind_ok _ _ _ _ _ (instantiate_plain E r self x v add_model st H Hp)).
  by rewrite (bind_ok _ _ _ _ _ IH).
Qed.


